(** * pg_legacy_replication: the replication core, embedded and verified

    A shallow embedding of [sources/pg_legacy_replication/helpers.py] and
    [sources/pg_legacy_replication/schema_types.py].  Python integers are
    [Z] (unbounded, with [Z.land] and [Z.shiftr] for [&] and [>>]), Python
    strings are [string], dictionaries are insertion-ordered association
    lists, and code that raises is a function into [result]. *)

From Stdlib Require Import ZArith List String Ascii Bool Lia.
Import ListNotations.
Local Open Scope string_scope.
Local Open Scope Z_scope.

Set Implicit Arguments.
Set Warnings "-register-all".

(** ** Python values, exceptions and results *)

(** The values that occur in column schemas and in emitted row items.  A
    float is [m * 2^e]; a [Decimal] is [n * 10^e]; a datetime is kept as its
    microseconds since the epoch. *)
Inductive PyVal : Type :=
| VNone
| VBool (b : bool)
| VInt (n : Z)
| VFloat (m e : Z)
| VDecimal (n e : Z)
| VStr (s : string)
| VBytes (b : string)
| VList (l : list PyVal)
| VDateTime (epoch_micros : Z).

(** The exceptions the embedded code can raise.  [StopReplication] is
    psycopg2's control-flow signal and [DecodeError] is protobuf's;
    [LibraryError] is whatever a call into a library outside the
    repository raises; the others are Python built-ins. *)
Inductive exn : Type :=
| StopReplication
| AssertionError (msg : string)
| KeyError (key : PyVal)
| TypeError (msg : string)
| IndexError
| AttributeError (attr : string)
| ValueError (msg : string)
| DecodeError
| LibraryError (what : string).

Inductive result (A : Type) : Type :=
| Ok (a : A)
| Raise (e : exn).
Arguments Ok {A} a.
Arguments Raise {A} e.

Definition bind {A B} (r : result A) (k : A -> result B) : result B :=
  match r with
  | Ok a => k a
  | Raise e => Raise e
  end.

Notation "x <- r ;; k" := (bind r (fun x => k))
  (at level 61, r at next level, right associativity).

(** ** Hexadecimal formatting, as the format specs [X] and [08X] do it *)

Module Hex.

(** The upper-case digit of [d], for [0 <= d < 16]. *)
Definition digit (d : Z) : ascii :=
  if d <? 10 then ascii_of_nat (48 + Z.to_nat d)
  else ascii_of_nat (55 + Z.to_nat d).

(** The digits of [n], most significant first and with no leading zero;
    [fuel] bounds the number of digits. *)
Fixpoint digits (fuel : nat) (n : Z) : string :=
  match fuel with
  | O => ""
  | S fuel' =>
      if n <=? 0 then ""
      else digits fuel' (n / 16) ++ String (digit (n mod 16)) ""
  end.

(** [format(n, "X")]. *)
Definition format_X (n : Z) : string :=
  if n =? 0 then "0"
  else if n <? 0 then String "-" (digits (S (Z.to_nat (Z.log2 (- n)))) (- n))
  else digits (S (Z.to_nat (Z.log2 n))) n.

Fixpoint zeros (k : nat) : string :=
  match k with
  | O => ""
  | S k' => String "0" (zeros k')
  end.

(** [format(n, "0wX")] for a non-negative [n]: zero fill on the left up to
    the width [w]; a longer number is left as it is. *)
Definition format_0wX (w : nat) (n : Z) : string :=
  let s := format_X n in
  zeros (w - String.length s) ++ s.

(** The value of an upper-case hexadecimal digit. *)
Definition digit_val (c : ascii) : option Z :=
  let k := Z.of_nat (nat_of_ascii c) in
  if (48 <=? k) && (k <=? 57) then Some (k - 48)
  else if (65 <=? k) && (k <=? 70) then Some (k - 55)
  else None.

Definition is_upper_hex (c : ascii) : bool :=
  match digit_val c with Some _ => true | None => false end.

Fixpoint all_upper_hex (s : string) : bool :=
  match s with
  | EmptyString => true
  | String c s' => is_upper_hex c && all_upper_hex s'
  end.

(** [int(s, 16)] on a string of upper-case digits, most significant first. *)
Fixpoint parse_from (acc : Z) (s : string) : option Z :=
  match s with
  | EmptyString => Some acc
  | String c s' =>
      match digit_val c with
      | Some v => parse_from (16 * acc + v) s'
      | None => None
      end
  end.

Definition parse (s : string) : option Z :=
  match s with
  | EmptyString => None
  | _ => parse_from 0 s
  end.

End Hex.

(** ** helpers.py: [lsn_int_to_hex] *)

(** [f"{lsn >> 32 & 4294967295:X}/{lsn & 4294967295:08X}"]; [>>] binds
    tighter than [&]. *)
Definition lsn_int_to_hex (lsn : Z) : string :=
  Hex.format_X (Z.land (Z.shiftr lsn 32) 4294967295)
  ++ "/" ++ Hex.format_0wX 8 (Z.land lsn 4294967295).

(** The two readings of the textual form that the specification uses to
    state the round trip; neither is in the source. *)
Module LsnText.

(** The text before the first ["/"] and the text after it. *)
Fixpoint split_slash (s : string) : option (string * string) :=
  match s with
  | EmptyString => None
  | String c s' =>
      if Ascii.eqb c "/" then Some ("", s')
      else match split_slash s' with
           | Some (h, l) => Some (String c h, l)
           | None => None
           end
  end.

(** The pattern [^[0-9A-F]+/[0-9A-F]{8}$]. *)
Definition matches_pattern (s : string) : bool :=
  match split_slash s with
  | Some (h, l) =>
      negb (String.length h =? 0)%nat && Hex.all_upper_hex h
      && (String.length l =? 8)%nat && Hex.all_upper_hex l
  | None => false
  end.

(** [int(H, 16) * 2^32 + int(LL, 16)]. *)
Definition parse (s : string) : option Z :=
  match split_slash s with
  | Some (h, l) =>
      match Hex.parse h, Hex.parse l with
      | Some a, Some b => Some (a * 2 ^ 32 + b)
      | _, _ => None
      end
  | None => None
  end.

End LsnText.

(** ** schema_types.py: the type mapper's precision and scale *)

Definition _get_precision (type_id atttypmod : Z) : option Z :=
  if type_id =? 21 then Some 16
  else if type_id =? 23 then Some 32
  else if type_id =? 20 then Some 64
  else if negb (atttypmod =? -1) then
    if type_id =? 1700 then Some (Z.land (Z.shiftr (atttypmod - 4) 16) 65535)
    else if (type_id =? 1083) || (type_id =? 1184) then Some atttypmod
    else if type_id =? 1043 then Some (atttypmod - 4)
    else None
  else None.

Definition _get_scale (type_id atttypmod : Z) : option Z :=
  if negb (atttypmod =? -1) then
    if (type_id =? 21) || (type_id =? 23) || (type_id =? 20) then Some 0
    else if type_id =? 1700 then Some (Z.land (atttypmod - 4) 65535)
    else None
  else None.

(** ** Dictionaries *)

(** A [dict] with string keys: an association list in insertion order.
    Assigning to a key that is present replaces the value where the key
    stands; a new key goes to the end. *)
Module Dict.
Section Ops.
Variable V : Type.

Definition t := list (string * V).

Definition empty : t := [].

Fixpoint get (k : string) (d : t) : option V :=
  match d with
  | [] => None
  | (k', v) :: d' => if String.eqb k k' then Some v else get k d'
  end.

Fixpoint setitem (k : string) (v : V) (d : t) : t :=
  match d with
  | [] => [(k, v)]
  | (k', v') :: d' =>
      if String.eqb k k' then (k', v) :: d' else (k', v') :: setitem k v d'
  end.

Definition contains (k : string) (d : t) : bool :=
  match get k d with Some _ => true | None => false end.

Definition getitem (k : string) (d : t) : result V :=
  match get k d with Some v => Ok v | None => Raise (KeyError (VStr k)) end.

Definition keys (d : t) : list string := map fst d.
Definition values (d : t) : list V := map snd d.
Definition items (d : t) : list (string * V) := d.

(** What makes an association list a dictionary: no key twice. *)
Definition wf (d : t) : Prop := NoDup (keys d).
End Ops.
Arguments empty {V}.
End Dict.

(** A [set] of strings, used for membership and truthiness only. *)
Definition str_set := list string.

Definition set_contains (x : string) (s : str_set) : bool :=
  existsb (String.eqb x) s.

Definition TColumnSchema := Dict.t PyVal.
Definition TTableSchemaColumns := Dict.t TColumnSchema.

Record TTableSchema : Type := {
  name : string;
  columns : TTableSchemaColumns
}.

Definition TDataItem := Dict.t PyVal.

(** ** The decoded wire messages ([pg_logicaldec_pb2]) *)

Inductive Op : Type := UNKNOWN | INSERT | UPDATE | DELETE | BEGIN | COMMIT.

Definition Op_eqb (a b : Op) : bool :=
  match a, b with
  | UNKNOWN, UNKNOWN | INSERT, INSERT | UPDATE, UPDATE
  | DELETE, DELETE | BEGIN, BEGIN | COMMIT, COMMIT => true
  | _, _ => false
  end.

(** Modelled from the spec: the generated protobuf module is not in src.
    Section 3 gives a column's datum as a variant over a null marker and
    the scalar kinds; the value decoder of section 4.2 tells three cases
    apart (null, a value it coerces from text, an unknown marker), and the
    datum is kept in that form. *)
Inductive Datum : Type :=
| datum_null
| datum_text (val : string)
| datum_unknown.

Record DatumMessage : Type := {
  column_name : string;
  column_type : Z;
  atttypmod : Z;
  part_of_pkey : bool;
  datum : Datum
}.

Record TypeInfo : Type := {
  modifier : string;
  value_optional : bool
}.

Record RowMessage : Type := {
  op : Op;
  table : string;
  commit_time : Z;
  new_tuple : list DatumMessage;
  old_tuple : list DatumMessage;
  new_typeinfo : list TypeInfo
}.

(** psycopg2's [ReplicationMessage].  [payload] is what
    [RowMessage.ParseFromString] makes of the bytes: [None] for bytes that
    do not parse. *)
Record ReplicationMessage : Type := {
  payload : option RowMessage;
  data_start : Z
}.

(** ** schema_types.py: dummy values and the value decoder *)

Definition _DUMMY_VALS : Dict.t PyVal :=
  [ ("bigint", VInt 0);
    ("binary", VBytes " ");
    ("bool", VBool true);
    ("complex", VList [VInt 0]);
    ("date", VStr "2000-01-01");
    ("decimal", VDecimal 0 0);
    ("double", VFloat 0 0);
    ("text", VStr "");
    ("time", VStr "00:00:00");
    ("timestamp", VStr "2000-01-01T00:00:00");
    ("wei", VInt 0) ].

(** The members of dlt's [TDataType]. *)
Definition TDataType_values : list string :=
  [ "bigint"; "binary"; "bool"; "complex"; "date"; "decimal"; "double";
    "text"; "time"; "timestamp"; "wei" ].

Definition _PG_TYPES : list (Z * string) :=
  [ (16, "boolean");
    (17, "bytea");
    (20, "bigint");
    (21, "smallint");
    (23, "integer");
    (701, "double precision");
    (1043, "character varying");
    (1082, "date");
    (1083, "time without time zone");
    (1184, "timestamp with time zone");
    (1700, "numeric");
    (3802, "jsonb") ].

Fixpoint _PG_TYPES_get (tbl : list (Z * string)) (type_id : Z) : option string :=
  match tbl with
  | [] => None
  | (k, v) :: tbl' => if type_id =? k then Some v else _PG_TYPES_get tbl' type_id
  end.

(** [val.replace("\\x", "")]: every backslash followed by [x] is dropped,
    scanning from the left. *)
Fixpoint replace_backslash_x (val : string) : string :=
  match val with
  | EmptyString => EmptyString
  | String c rest =>
      match rest with
      | String c' rest' =>
          if Ascii.eqb c "\" && Ascii.eqb c' "x"
          then replace_backslash_x rest'
          else String c (replace_backslash_x rest)
      | EmptyString => String c EmptyString
      end
  end.

(** What a library call comes to: a value, or an exception of the
    library's own. *)
Inductive lib_result : Type :=
| Returned (v : PyVal)
| Failed (what : string).

Definition from_library (r : lib_result) : result PyVal :=
  match r with
  | Returned v => Ok v
  | Failed what => Raise (LibraryError what)
  end.

(** The library calls the value decoder makes on a non-null datum:
    [bytes.fromhex], [json.loads] and dlt's [coerce_value].  They are
    outside the repository, and every property below holds whatever they
    return and wherever they fail. *)
Record Library : Type := {
  bytes_fromhex : string -> lib_result;
  json_loads : string -> lib_result;
  coerce_value : PyVal -> string -> string -> lib_result
}.

(** A library in which every call fails.  The worked examples decode null
    datums only, so they make no library call; with this instance they
    could not depend on one. *)
Definition unused_library : Library := {|
  bytes_fromhex := fun _ => Failed "bytes.fromhex";
  json_loads := fun _ => Failed "json.loads";
  coerce_value := fun _ _ _ => Failed "coerce_value"
|}.

(** [d[key]] for a key that is any value: only a string can be present in
    a dictionary with string keys, and a list cannot be hashed. *)
Definition getitem_val {V} (key : PyVal) (d : Dict.t V) : result V :=
  match key with
  | VStr k => Dict.getitem k d
  | VList _ => Raise (TypeError "unhashable type: 'list'")
  | _ => Raise (KeyError key)
  end.

(** [data_type == s] for a string [s]. *)
Definition is_str (data_type : PyVal) (s : string) : bool :=
  match data_type with
  | VStr t => String.eqb t s
  | _ => false
  end.

(** [_to_dlt_val(val, data_type, byte1, for_delete)]. *)
Definition _to_dlt_val (lib : Library) (val : string) (data_type : PyVal)
    (byte1 : string) (for_delete : bool) : result PyVal :=
  if String.eqb byte1 "n" then
    if for_delete then getitem_val data_type _DUMMY_VALS
    else Ok VNone
  else if String.eqb byte1 "t" then
    if is_str data_type "binary" then
      from_library (bytes_fromhex lib (replace_backslash_x val))
    else if is_str data_type "complex" then
      from_library (json_loads lib val)
    else from_library (coerce_value lib data_type "text" val)
  else
    Raise (ValueError "Byte1 in replication message must be 'n' or 't'").

(** Modelled from the spec: helpers.py calls the decoder with the column
    itself, [_to_dlt_val(data, data_type, for_delete=...)], a form that is
    not in src.  Section 4.2 gives it the three cases of the decoder that
    is in src, so the datum is handed to that one with the matching
    marker. *)
Definition _to_dlt_val_datum (lib : Library) (data : DatumMessage)
    (data_type : PyVal) (for_delete : bool) : result PyVal :=
  match datum data with
  | datum_null => _to_dlt_val lib "" data_type "n" for_delete
  | datum_text val => _to_dlt_val lib val data_type "t" for_delete
  | datum_unknown => _to_dlt_val lib "" data_type "?" for_delete
  end.

(** Modelled from the spec: [_epoch_micros_to_datetime] is imported from
    schema_types.py but is not in src.  Section 3 gives [commit_time] as
    microseconds since the epoch; the datetime is kept as that number. *)
Definition _epoch_micros_to_datetime (epoch_micros : Z) : PyVal :=
  VDateTime epoch_micros.

(** ** schema_types.py: the type mapper *)

(** Modelled from the spec: dlt's [PostgresTypeMapper.from_db_type] is
    outside the repository.  Section 4.1 lists the kinds (smallint and
    integer are the bigint kind with a precision); an unknown type is
    text; precision and scale are kept when they are not [None]. *)
Definition dbt_to_sct (db_type : option string) : string :=
  match db_type with
  | Some t =>
      if String.eqb t "boolean" then "bool"
      else if String.eqb t "bytea" then "binary"
      else if String.eqb t "bigint" then "bigint"
      else if String.eqb t "smallint" then "bigint"
      else if String.eqb t "integer" then "bigint"
      else if String.eqb t "double precision" then "double"
      else if String.eqb t "character varying" then "text"
      else if String.eqb t "date" then "date"
      else if String.eqb t "time without time zone" then "time"
      else if String.eqb t "timestamp with time zone" then "timestamp"
      else if String.eqb t "numeric" then "decimal"
      else if String.eqb t "jsonb" then "complex"
      else "text"
  | None => "text"
  end.

Definition set_unless_none (k : string) (v : option Z) (d : TColumnSchema)
    : TColumnSchema :=
  match v with
  | Some n => Dict.setitem k (VInt n) d
  | None => d
  end.

Definition from_db_type (db_type : option string) (precision scale : option Z)
    : TColumnSchema :=
  set_unless_none "scale" scale
    (set_unless_none "precision" precision
       (Dict.setitem "data_type" (VStr (dbt_to_sct db_type)) Dict.empty)).

Definition _to_dlt_column_type (type_id atttypmod : Z) : TColumnSchema :=
  let pg_type := _PG_TYPES_get _PG_TYPES type_id in
  let precision := _get_precision type_id atttypmod in
  let scale := _get_scale type_id atttypmod in
  from_db_type pg_type precision scale.

(** Modelled from the spec: helpers.py calls
    [_to_dlt_column_schema(col, type_info)]; src has the one-argument form,
    [{**dlt_column_type, "name": ..., "primary_key": ...}], which is
    followed here on the wire column.  Section 4.3 adds [nullable] from
    [value_optional] when type info is given. *)
Definition _to_dlt_column_schema (col : DatumMessage)
    (type_info : option TypeInfo) : TColumnSchema :=
  let dlt_column_type := _to_dlt_column_type (column_type col) (atttypmod col) in
  let schema :=
    Dict.setitem "primary_key" (VBool (part_of_pkey col))
      (Dict.setitem "name" (VStr (column_name col)) dlt_column_type) in
  match type_info with
  | Some ti => Dict.setitem "nullable" (VBool (value_optional ti)) schema
  | None => schema
  end.

(** ** helpers.py: schema inference *)

(** [s.split(".")]. *)
Fixpoint split_dot (s : string) : list string :=
  match s with
  | EmptyString => [EmptyString]
  | String c s' =>
      if Ascii.eqb c "." then EmptyString :: split_dot s'
      else match split_dot s' with
           | h :: t => String c h :: t
           | [] => [String c EmptyString]
           end
  end.

(** [l[i]] on a list. *)
Definition list_getitem {A} (l : list A) (i : nat) : result A :=
  match nth_error l i with
  | Some a => Ok a
  | None => Raise IndexError
  end.

(** [not included_columns or name in included_columns]: a missing or empty
    allow-list admits every column. *)
Definition column_included (included_columns : option str_set)
    (column : string) : bool :=
  match included_columns with
  | None => true
  | Some [] => true
  | Some s => set_contains column s
  end.

(** The dictionary comprehension of [infer_table_schema], from index [i]
    on: the filter is evaluated first, then the key and the value. *)
Fixpoint infer_columns (is_change : bool) (typeinfo : list TypeInfo)
    (included_columns : option str_set) (i : nat) (tuples : list DatumMessage)
    (acc : TTableSchemaColumns) : result TTableSchemaColumns :=
  match tuples with
  | [] => Ok acc
  | col :: rest =>
      if column_included included_columns (column_name col) then
        ti <- (if is_change
               then (t <- list_getitem typeinfo i ;; Ok (Some t))
               else Ok None) ;;
        infer_columns is_change typeinfo included_columns (S i) rest
          (Dict.setitem (column_name col) (_to_dlt_column_schema col ti) acc)
      else
        infer_columns is_change typeinfo included_columns (S i) rest acc
  end.

Definition lsn_column : TColumnSchema :=
  [ ("data_type", VStr "bigint"); ("name", VStr "lsn"); ("nullable", VBool true) ].

Definition deleted_ts_column : TColumnSchema :=
  [ ("data_type", VStr "timestamp"); ("name", VStr "deleted_ts");
    ("nullable", VBool true) ].

(** The tuple a message is read from: [msg.new_tuple] unless the
    operation is a DELETE, [msg.old_tuple] for a DELETE. *)
Definition source_tuple (msg : RowMessage) : list DatumMessage :=
  if negb (Op_eqb (op msg) DELETE) then new_tuple msg else old_tuple msg.

Definition infer_table_schema (msg : RowMessage)
    (included_columns : option str_set) : result TTableSchema :=
  let is_change := negb (Op_eqb (op msg) DELETE) in
  let tuples := source_tuple msg in
  columns <- infer_columns is_change (new_typeinfo msg) included_columns
               0 tuples Dict.empty ;;
  let columns := Dict.setitem "lsn" lsn_column columns in
  let columns := Dict.setitem "deleted_ts" deleted_ts_column columns in
  table_name <- list_getitem (split_dot (table msg)) 1 ;;
  Ok {| name := table_name; columns := columns |}.

(** ** helpers.py: row items *)

(** The loop of [gen_data_item] over the row. *)
Fixpoint gen_data_item_loop (lib : Library) (for_delete : bool)
    (column_schema : TTableSchemaColumns) (included_columns : option str_set)
    (row : list DatumMessage) (data_item : TDataItem) : result TDataItem :=
  match row with
  | [] => Ok data_item
  | data :: rest =>
      let col_name := column_name data in
      if column_included included_columns col_name then
        col <- Dict.getitem col_name column_schema ;;
        data_type <- Dict.getitem "data_type" col ;;
        v <- _to_dlt_val_datum lib data data_type for_delete ;;
        gen_data_item_loop lib for_delete column_schema included_columns
          rest (Dict.setitem col_name v data_item)
      else
        gen_data_item_loop lib for_delete column_schema included_columns
          rest data_item
  end.

Definition gen_data_item (lib : Library) (msg : RowMessage)
    (column_schema : TTableSchemaColumns) (included_columns : option str_set)
    : result TDataItem :=
  let is_delete := Op_eqb (op msg) DELETE in
  let row := source_tuple msg in
  let data_item :=
    if is_delete
    then Dict.setitem "deleted_ts" (_epoch_micros_to_datetime (commit_time msg))
           Dict.empty
    else Dict.empty in
  gen_data_item_loop lib is_delete column_schema included_columns row data_item.

(** ** helpers.py: schema reconciliation *)

(** A number as a fraction with a positive denominator; [None] for a value
    that is not a number.  [True] is 1 and [False] is 0. *)
Definition as_fraction (v : PyVal) : option (Z * Z) :=
  let scaled (n base e : Z) :=
    if 0 <=? e then (n * base ^ e, 1) else (n, base ^ (- e)) in
  match v with
  | VBool b => Some (if b then 1 else 0, 1)
  | VInt n => Some (n, 1)
  | VFloat m e => Some (scaled m 2 e)
  | VDecimal n e => Some (scaled n 10 e)
  | _ => None
  end.

(** Python's [==] on values: numbers by value across their types, the rest
    by kind and content. *)
Fixpoint py_eqb (a b : PyVal) : bool :=
  match as_fraction a, as_fraction b with
  | Some (n1, d1), Some (n2, d2) => n1 * d2 =? n2 * d1
  | Some _, None | None, Some _ => false
  | None, None =>
      match a, b with
      | VNone, VNone => true
      | VStr s1, VStr s2 => String.eqb s1 s2
      | VBytes b1, VBytes b2 => String.eqb b1 b2
      | VDateTime t1, VDateTime t2 => t1 =? t2
      | VList l1, VList l2 =>
          (fix all2 (xs ys : list PyVal) {struct xs} : bool :=
             match xs, ys with
             | [], [] => true
             | x :: xs', y :: ys' => py_eqb x y && all2 xs' ys'
             | _, _ => false
             end) l1 l2
      | _, _ => false
      end
  end.

Definition ALLOWED_COL_SCHEMA_FIELDS : str_set :=
  [ "name"; "data_type"; "nullable"; "precision"; "scale" ].

(** [set(s2.keys()) - ALLOWED_COL_SCHEMA_FIELDS], as the list of the keys
    that are left. *)
Definition extra_fields (s2 : TColumnSchema) : list string :=
  filter (fun k => negb (set_contains k ALLOWED_COL_SCHEMA_FIELDS)) (Dict.keys s2).

(** [if k in s1 or k in s2: col_schema[k] = s1.get(k, s2.get(k))]. *)
Definition retain_field (k : string) (s1 s2 col_schema : TColumnSchema)
    : TColumnSchema :=
  if Dict.contains k s1 || Dict.contains k s2 then
    let v :=
      match Dict.get k s1 with
      | Some v1 => v1
      | None => match Dict.get k s2 with Some v2 => v2 | None => VNone end
      end in
    Dict.setitem k v col_schema
  else col_schema.

(** One turn of the loop of [compare_schemas], for the column [col_name]
    of [last] with schema [s1]. *)
Definition compare_column (new_columns : TTableSchemaColumns)
    (col_name : string) (s1 : TColumnSchema) : result TColumnSchema :=
  let incompatible :=
    Raise (AssertionError ("Incompatible schema for column '" ++ col_name ++ "'")) in
  match Dict.get col_name new_columns with
  | None => incompatible
  | Some s2 =>
      t1 <- Dict.getitem "data_type" s1 ;;
      t2 <- Dict.getitem "data_type" s2 ;;
      if negb (py_eqb t1 t2) then incompatible
      else
        match extra_fields s2 with
        | _ :: _ =>
            Raise (AssertionError ("Unexpected fields in column '" ++ col_name ++ "'"))
        | [] =>
            let col_schema :=
              Dict.setitem "data_type" t1
                (Dict.setitem "name" (VStr col_name) Dict.empty) in
            let col_schema := retain_field "nullable" s1 s2 col_schema in
            let col_schema := retain_field "precision" s1 s2 col_schema in
            let col_schema := retain_field "scale" s1 s2 col_schema in
            Ok col_schema
        end
  end.

Fixpoint compare_columns (new_columns : TTableSchemaColumns)
    (last_items : list (string * TColumnSchema)) (acc : TTableSchemaColumns)
    : result TTableSchemaColumns :=
  match last_items with
  | [] => Ok acc
  | (col_name, s1) :: rest =>
      col_schema <- compare_column new_columns col_name s1 ;;
      compare_columns new_columns rest (Dict.setitem col_name col_schema acc)
  end.

Definition compare_schemas (last new : TTableSchema) : result TTableSchema :=
  let table_name := name last in
  if negb (String.eqb table_name (name new)) then
    Raise (AssertionError "Table names do not match")
  else
    columns <- compare_columns (columns new) (Dict.items (columns last))
                 Dict.empty ;;
    Ok {| name := table_name; columns := columns |}.

(** ** helpers.py: the type-info fingerprint *)

(** [repr] of the values [hash_typeinfo] prints, and [str.encode].  A
    string is read as a sequence of characters with code points below
    256. *)
Module Repr.

Definition double_quote : ascii := ascii_of_nat 34.

Fixpoint has_char (c : ascii) (s : string) : bool :=
  match s with
  | EmptyString => false
  | String c' s' => Ascii.eqb c c' || has_char c s'
  end.

Definition lower_hex_digit (d : Z) : ascii :=
  if d <? 10 then ascii_of_nat (48 + Z.to_nat d)
  else ascii_of_nat (87 + Z.to_nat d).

(** A character [repr] leaves as it is: printable ASCII, and the
    printable characters of Latin-1. *)
Definition printable (k : Z) : bool :=
  ((32 <=? k) && (k <? 127)) || ((161 <=? k) && negb (k =? 173)).

Definition escape_char (quote c : ascii) : string :=
  let k := Z.of_nat (nat_of_ascii c) in
  if Ascii.eqb c quote || Ascii.eqb c "\" then String "\" (String c "")
  else if k =? 9 then "\t"
  else if k =? 10 then "\n"
  else if k =? 13 then "\r"
  else if printable k then String c ""
  else String "\" (String "x"
         (String (lower_hex_digit (k / 16)) (String (lower_hex_digit (k mod 16)) ""))).

Fixpoint escape (quote : ascii) (s : string) : string :=
  match s with
  | EmptyString => EmptyString
  | String c s' => escape_char quote c ++ escape quote s'
  end.

(** [repr(s)] for a string: single quotes, unless the string has a single
    quote and no double quote. *)
Definition repr_str (s : string) : string :=
  let quote :=
    if has_char "'" s && negb (has_char double_quote s) then double_quote
    else "'"%char in
  String quote (escape quote s ++ String quote "").

Definition repr_bool (b : bool) : string := if b then "True" else "False".

Fixpoint join_comma (l : list string) : string :=
  match l with
  | [] => ""
  | [x] => x
  | x :: l' => x ++ ", " ++ join_comma l'
  end.

(** [repr] of a tuple whose items print as [l]. *)
Definition repr_tuple (l : list string) : string :=
  match l with
  | [x] => "(" ++ x ++ ",)"
  | _ => "(" ++ join_comma l ++ ")"
  end.

(** [s.encode()]: UTF-8, one byte below 128 and two bytes from there. *)
Fixpoint encode (s : string) : list Z :=
  match s with
  | EmptyString => []
  | String c s' =>
      let k := Z.of_nat (nat_of_ascii c) in
      if k <? 128 then k :: encode s'
      else Z.lor 192 (Z.shiftr k 6) :: Z.lor 128 (Z.land k 63) :: encode s'
  end.

End Repr.

(** [hashlib.blake2b(data, digest_size=8)], after RFC 7693: 64-bit words,
    no key, one 128-byte block at a time. *)
Module Blake2b.

Definition mask64 : Z := 18446744073709551615.

Definition add64 (a b : Z) : Z := Z.land (a + b) mask64.

Definition rotr64 (x n : Z) : Z :=
  Z.land (Z.lor (Z.shiftr x n) (Z.shiftl x (64 - n))) mask64.

Definition IV : list Z :=
  [ 7640891576956012808; 13503953896175478587;
    4354685564936845355; 11912009170470909681;
    5840696475078001361; 11170449401992604703;
    2270897969802886507; 6620516959819538809 ].

Definition SIGMA : list (list nat) :=
  [ [0; 1; 2; 3; 4; 5; 6; 7; 8; 9; 10; 11; 12; 13; 14; 15];
    [14; 10; 4; 8; 9; 15; 13; 6; 1; 12; 0; 2; 11; 7; 5; 3];
    [11; 8; 12; 0; 5; 2; 15; 13; 10; 14; 3; 6; 7; 1; 9; 4];
    [7; 9; 3; 1; 13; 12; 11; 14; 2; 6; 5; 10; 4; 0; 15; 8];
    [9; 0; 5; 7; 2; 4; 10; 15; 14; 1; 11; 12; 6; 8; 3; 13];
    [2; 12; 6; 10; 0; 11; 8; 3; 4; 13; 7; 5; 15; 14; 1; 9];
    [12; 5; 1; 15; 14; 13; 4; 10; 0; 7; 6; 3; 9; 2; 8; 11];
    [13; 11; 7; 14; 12; 1; 3; 9; 5; 0; 15; 4; 8; 6; 2; 10];
    [6; 15; 14; 9; 11; 3; 0; 8; 12; 2; 13; 7; 1; 4; 10; 5];
    [10; 2; 8; 4; 7; 6; 1; 5; 15; 11; 9; 14; 3; 12; 13; 0] ]%nat.

Definition word (l : list Z) (i : nat) : Z := nth i l 0.

Fixpoint upd (i : nat) (x : Z) (l : list Z) : list Z :=
  match l, i with
  | [], _ => []
  | _ :: l', O => x :: l'
  | y :: l', S i' => y :: upd i' x l'
  end.

(** The mixing function [G] on the work vector [v]. *)
Definition G (a b c d : nat) (x y : Z) (v : list Z) : list Z :=
  let v := upd a (add64 (add64 (word v a) (word v b)) x) v in
  let v := upd d (rotr64 (Z.lxor (word v d) (word v a)) 32) v in
  let v := upd c (add64 (word v c) (word v d)) v in
  let v := upd b (rotr64 (Z.lxor (word v b) (word v c)) 24) v in
  let v := upd a (add64 (add64 (word v a) (word v b)) y) v in
  let v := upd d (rotr64 (Z.lxor (word v d) (word v a)) 16) v in
  let v := upd c (add64 (word v c) (word v d)) v in
  let v := upd b (rotr64 (Z.lxor (word v b) (word v c)) 63) v in
  v.

Definition round (m : list Z) (s : list nat) (v : list Z) : list Z :=
  let x (i : nat) := word m (nth i s O) in
  let v := G 0 4 8 12 (x 0%nat) (x 1%nat) v in
  let v := G 1 5 9 13 (x 2%nat) (x 3%nat) v in
  let v := G 2 6 10 14 (x 4%nat) (x 5%nat) v in
  let v := G 3 7 11 15 (x 6%nat) (x 7%nat) v in
  let v := G 0 5 10 15 (x 8%nat) (x 9%nat) v in
  let v := G 1 6 11 12 (x 10%nat) (x 11%nat) v in
  let v := G 2 7 8 13 (x 12%nat) (x 13%nat) v in
  let v := G 3 4 9 14 (x 14%nat) (x 15%nat) v in
  v.

Fixpoint rounds (m : list Z) (rs : list nat) (v : list Z) : list Z :=
  match rs with
  | [] => v
  | r :: rs' => rounds m rs' (round m (nth (r mod 10) SIGMA []) v)
  end.

(** A little-endian 64-bit word from eight bytes. *)
Fixpoint le_word (bytes : list Z) : Z :=
  match bytes with
  | [] => 0
  | b :: bytes' => b + 256 * le_word bytes'
  end.

(** The sixteen message words of a block, short blocks padded with zero. *)
Fixpoint block_words (n : nat) (block : list Z) : list Z :=
  match n with
  | O => []
  | S n' => le_word (firstn 8 block) :: block_words n' (skipn 8 block)
  end.

(** The compression function [F]: [t] is the byte count so far and
    [final] marks the last block. *)
Definition F (h : list Z) (block : list Z) (t : Z) (final : bool) : list Z :=
  let m := block_words 16 block in
  let v := (h ++ IV)%list in
  let v := upd 12 (Z.lxor (word v 12) (Z.land t mask64)) v in
  let v := upd 13 (Z.lxor (word v 13) (Z.land (Z.shiftr t 64) mask64)) v in
  let v := if final then upd 14 (Z.lxor (word v 14) mask64) v else v in
  let v := rounds m (seq 0 12) v in
  map (fun i => Z.lxor (Z.lxor (word h i) (word v i)) (word v (i + 8)))
      (seq 0 8).

(** All blocks but the last, then the last; [fuel] bounds the number of
    blocks. *)
Fixpoint absorb (fuel : nat) (h : list Z) (data : list Z) (t : Z) : list Z :=
  match fuel with
  | O => h
  | S fuel' =>
      if (List.length data <=? 128)%nat
      then F h data (t + Z.of_nat (List.length data)) true
      else absorb fuel' (F h (firstn 128 data) (t + 128) false)
             (skipn 128 data) (t + 128)
  end.

(** The state after the whole input, for a digest of [nn] bytes. *)
Definition state (nn : Z) (data : list Z) : list Z :=
  let h := upd 0 (Z.lxor (word IV 0) (Z.lxor 16842752 nn)) IV in
  absorb (S (List.length data / 128)) h data 0.

Fixpoint le_bytes (n : nat) (w : Z) : list Z :=
  match n with
  | O => []
  | S n' => w mod 256 :: le_bytes n' (w / 256)
  end.

(** [int(hexdigest, 16)] of the 8-byte digest: the first state word's
    bytes, least significant first, read as one big-endian number. *)
Definition digest8_int (data : list Z) : Z :=
  fold_left (fun acc b => 256 * acc + b) (le_bytes 8 (word (state 8 data) 0)) 0.

End Blake2b.

Definition hash_typeinfo (new_typeinfo : list TypeInfo) : Z :=
  let typeinfo_tuple :=
    Repr.repr_tuple
      (map (fun info =>
              Repr.repr_tuple
                [Repr.repr_str (modifier info); Repr.repr_bool (value_optional info)])
           new_typeinfo) in
  Blake2b.digest8_int (Repr.encode typeinfo_tuple).

(** ** helpers.py: [MessageConsumer] *)

Module SqlTableOptions.
(** The one option the consumer reads; [None] is a key that is missing
    or holds [None]. *)
Record t : Type := {
  included_columns : option (list string)
}.
End SqlTableOptions.

Definition sum_Z (l : list Z) : Z := fold_left Z.add l 0.

Module MessageConsumer.

(** The consumer's attributes.  [last_commit_ts] and [last_commit_lsn] are
    only annotated in [__init__]: the attribute does not exist ([None]
    here) until a BEGIN or a COMMIT assigns it. *)
Record t : Type := {
  upto_lsn : Z;
  table_qnames : str_set;
  target_batch_size : Z;
  included_columns : Dict.t str_set;
  consumed_all : bool;
  data_items : Dict.t (list TDataItem);
  last_table_schema : Dict.t TTableSchema;
  last_table_hashes : Dict.t Z;
  last_commit_ts : option PyVal;
  last_commit_lsn : option Z
}.

Definition set_consumed_all (b : bool) (self : t) : t :=
  {| upto_lsn := upto_lsn self; table_qnames := table_qnames self;
     target_batch_size := target_batch_size self;
     included_columns := included_columns self;
     consumed_all := b;
     data_items := data_items self;
     last_table_schema := last_table_schema self;
     last_table_hashes := last_table_hashes self;
     last_commit_ts := last_commit_ts self;
     last_commit_lsn := last_commit_lsn self |}.

Definition set_data_items (d : Dict.t (list TDataItem)) (self : t) : t :=
  {| upto_lsn := upto_lsn self; table_qnames := table_qnames self;
     target_batch_size := target_batch_size self;
     included_columns := included_columns self;
     consumed_all := consumed_all self;
     data_items := d;
     last_table_schema := last_table_schema self;
     last_table_hashes := last_table_hashes self;
     last_commit_ts := last_commit_ts self;
     last_commit_lsn := last_commit_lsn self |}.

Definition set_last_table_schema (d : Dict.t TTableSchema) (self : t) : t :=
  {| upto_lsn := upto_lsn self; table_qnames := table_qnames self;
     target_batch_size := target_batch_size self;
     included_columns := included_columns self;
     consumed_all := consumed_all self;
     data_items := data_items self;
     last_table_schema := d;
     last_table_hashes := last_table_hashes self;
     last_commit_ts := last_commit_ts self;
     last_commit_lsn := last_commit_lsn self |}.

Definition set_last_table_hashes (d : Dict.t Z) (self : t) : t :=
  {| upto_lsn := upto_lsn self; table_qnames := table_qnames self;
     target_batch_size := target_batch_size self;
     included_columns := included_columns self;
     consumed_all := consumed_all self;
     data_items := data_items self;
     last_table_schema := last_table_schema self;
     last_table_hashes := d;
     last_commit_ts := last_commit_ts self;
     last_commit_lsn := last_commit_lsn self |}.

Definition set_last_commit_ts (ts : PyVal) (self : t) : t :=
  {| upto_lsn := upto_lsn self; table_qnames := table_qnames self;
     target_batch_size := target_batch_size self;
     included_columns := included_columns self;
     consumed_all := consumed_all self;
     data_items := data_items self;
     last_table_schema := last_table_schema self;
     last_table_hashes := last_table_hashes self;
     last_commit_ts := Some ts;
     last_commit_lsn := last_commit_lsn self |}.

Definition set_last_commit_lsn (lsn : Z) (self : t) : t :=
  {| upto_lsn := upto_lsn self; table_qnames := table_qnames self;
     target_batch_size := target_batch_size self;
     included_columns := included_columns self;
     consumed_all := consumed_all self;
     data_items := data_items self;
     last_table_schema := last_table_schema self;
     last_table_hashes := last_table_hashes self;
     last_commit_ts := last_commit_ts self;
     last_commit_lsn := Some lsn |}.

(** A method: it may change the consumer and then return or raise; what it
    changed before raising stays changed. *)
Definition M (A : Type) : Type := t -> t * result A.

Definition ret {A} (a : A) : M A := fun self => (self, Ok a).
Definition raise {A} (e : exn) : M A := fun self => (self, Raise e).
Definition lift {A} (r : result A) : M A := fun self => (self, r).
Definition read {A} (f : t -> A) : M A := fun self => (self, Ok (f self)).
Definition update (f : t -> t) : M unit := fun self => (f self, Ok tt).

Definition bindM {A B} (m : M A) (k : A -> M B) : M B :=
  fun self =>
    match m self with
    | (self', Ok a) => k a self'
    | (self', Raise e) => (self', Raise e)
    end.

Notation "x <~ m ;; k" := (bindM m (fun x => k))
  (at level 61, m at next level, right associativity).
Notation "m ;;; k" := (bindM m (fun _ => k))
  (at level 61, right associativity).

(** The comprehension of [__init__]: a table gets an entry only when its
    [included_columns] option is truthy. *)
Fixpoint init_included_columns
    (table_options : list (string * SqlTableOptions.t)) (acc : Dict.t str_set)
    : Dict.t str_set :=
  match table_options with
  | [] => acc
  | (table, options) :: rest =>
      match SqlTableOptions.included_columns options with
      | Some (c :: cs) =>
          init_included_columns rest (Dict.setitem table (c :: cs) acc)
      | _ => init_included_columns rest acc
      end
  end.

Definition __init__ (upto_lsn : Z) (table_qnames : str_set)
    (target_batch_size : Z) (table_options : option (Dict.t SqlTableOptions.t))
    : t :=
  {| upto_lsn := upto_lsn;
     table_qnames := table_qnames;
     target_batch_size := target_batch_size;
     included_columns :=
       init_included_columns
         (match table_options with Some o => Dict.items o | None => [] end)
         Dict.empty;
     consumed_all := false;
     data_items := Dict.empty;
     last_table_schema := Dict.empty;
     last_table_hashes := Dict.empty;
     last_commit_ts := None;
     last_commit_lsn := None |}.

(** The number of buffered rows, over all tables. *)
Definition n_items (self : t) : Z :=
  sum_Z (map (fun items => Z.of_nat (List.length items))
             (Dict.values (data_items self))).

Definition process_commit (lsn : Z) : M unit :=
  update (set_last_commit_lsn lsn) ;;;
  upto <~ read upto_lsn ;;
  (if lsn >=? upto then update (set_consumed_all true) else ret tt) ;;;
  done <~ read consumed_all ;;
  n <~ read n_items ;;
  target <~ read target_batch_size ;;
  if done || (n >=? target) then raise StopReplication else ret tt.

Definition option_Z_eqb (a b : option Z) : bool :=
  match a, b with
  | Some x, Some y => x =? y
  | None, None => true
  | _, _ => false
  end.

Definition get_table_schema (msg : RowMessage) (table_name : string)
    : M TTableSchema :=
  last_schema <~ read (fun self => Dict.get table_name (last_table_schema self)) ;;
  included <~ read (fun self => Dict.get table_name (included_columns self)) ;;
  match Op_eqb (op msg) DELETE, last_schema with
  | true, Some cached => ret cached
  | _, _ =>
      let current_hash := hash_typeinfo (new_typeinfo msg) in
      last_hash <~ read (fun self => Dict.get table_name (last_table_hashes self)) ;;
      if option_Z_eqb (Some current_hash) last_hash then
        cached <~ read (fun self => Dict.getitem table_name (last_table_schema self)) ;;
        lift cached
      else
        new_schema <~ lift (infer_table_schema msg included) ;;
        match last_schema with
        | None =>
            update (fun self =>
                      set_last_table_schema
                        (Dict.setitem table_name new_schema (last_table_schema self))
                        self) ;;;
            update (fun self =>
                      set_last_table_hashes
                        (Dict.setitem table_name current_hash (last_table_hashes self))
                        self) ;;;
            ret new_schema
        | Some last =>
            match compare_schemas last new_schema with
            | Ok retained_schema =>
                update (fun self =>
                          set_last_table_schema
                            (Dict.setitem table_name retained_schema
                               (last_table_schema self))
                            self) ;;;
                ret new_schema
            | Raise (AssertionError _) => raise StopReplication
            | Raise e => raise e
            end
        end
  end.

(** [self.data_items[table_name].append(data_item)] on a
    [defaultdict(list)]. *)
Definition append_item (table_name : string) (data_item : TDataItem)
    (d : Dict.t (list TDataItem)) : Dict.t (list TDataItem) :=
  let items := match Dict.get table_name d with Some l => l | None => [] end in
  Dict.setitem table_name (items ++ [data_item])%list d.

Definition process_change (lib : Library) (msg : RowMessage) (lsn : Z)
    : M unit :=
  qnames <~ read table_qnames ;;
  if negb (set_contains (table msg) qnames) then ret tt
  else
    table_name <~ lift (list_getitem (split_dot (table msg)) 1) ;;
    table_schema <~ get_table_schema msg table_name ;;
    included <~ read (fun self => Dict.get table_name (included_columns self)) ;;
    data_item <~ lift (gen_data_item lib msg (columns table_schema) included) ;;
    let data_item := Dict.setitem "lsn" (VInt lsn) data_item in
    update (fun self =>
              set_data_items (append_item table_name data_item (data_items self))
                self).

Definition process_msg (lib : Library) (msg : ReplicationMessage) : M unit :=
  match payload msg with
  | None => raise DecodeError
  | Some row_msg =>
      match op row_msg with
      | UNKNOWN => raise (AssertionError "Unsupported operation")
      | BEGIN =>
          update (set_last_commit_ts (_epoch_micros_to_datetime (commit_time row_msg)))
      | COMMIT => process_commit (data_start msg)
      | INSERT | UPDATE | DELETE => process_change lib row_msg (data_start msg)
      end
  end.

Definition __call__ (lib : Library) (msg : ReplicationMessage) : M unit :=
  process_msg lib msg.

End MessageConsumer.

(** ** helpers.py: [ItemGenerator] *)

Record TableItems : Type := {
  items_table : string;
  items_schema : option TTableSchema;
  items : list TDataItem
}.

(** What one run of the generator does to the outside, in order. *)
Inductive Event : Type :=
| StartReplication (slot_name : string) (start_lsn : Z)
| SendFeedbackWrite (write_lsn : Z)
| Yield (table_items : TableItems)
| SendFeedbackFlush (flush_lsn : Z)
| ConnectionClose.

(** [cur.consume_stream(consumer)]: the driver hands the messages to the
    consumer one by one until a call raises.  [stream] is what the server
    delivers before the driver's loop ends; the outcome is the consumer as
    it was left, the exception that ended the loop if the consumer raised
    one, and the number of messages consumed without one. *)
Fixpoint consume_stream (lib : Library) (consumer : MessageConsumer.t)
    (stream : list ReplicationMessage) (consumed : nat)
    : MessageConsumer.t * option exn * nat :=
  match stream with
  | [] => (consumer, None, consumed)
  | msg :: rest =>
      match MessageConsumer.__call__ lib msg consumer with
      | (consumer', Ok _) => consume_stream lib consumer' rest (S consumed)
      | (consumer', Raise e) => (consumer', Some e, consumed)
      end
  end.

Module ItemGenerator.

Record t : Type := {
  slot_name : string;
  table_qnames : str_set;
  upto_lsn : Z;
  start_lsn : Z;
  target_batch_size : Z;
  table_options : option (Dict.t SqlTableOptions.t);
  last_commit_lsn : option Z;
  generated_all : bool
}.

(** One run of [__iter__] to its end: the events in order, the generator
    as it is left, and the exception that leaves the generator, if any.
    [StopReplication] is swallowed; any other exception of the loop is
    raised again after the [finally] block, unless that block raises
    first. *)
Definition __iter__ (lib : Library) (self : t) (stream : list ReplicationMessage)
    : list Event * t * option exn :=
  let started := [StartReplication (slot_name self) (start_lsn self)] in
  let consumer :=
    MessageConsumer.__init__ (upto_lsn self) (table_qnames self)
      (target_batch_size self) (table_options self) in
  let '(consumer, raised, _) := consume_stream lib consumer stream 0 in
  let pending :=
    match raised with
    | Some StopReplication => None
    | other => other
    end in
  match MessageConsumer.last_commit_lsn consumer with
  | None => (started, self, Some (AttributeError "last_commit_lsn"))
  | Some last_commit_lsn =>
      let yields :=
        map (fun '(table, data_items) =>
               Yield {| items_table := table;
                        items_schema :=
                          Dict.get table (MessageConsumer.last_table_schema consumer);
                        items := data_items |})
            (Dict.items (MessageConsumer.data_items consumer)) in
      let self' :=
        {| slot_name := slot_name self;
           table_qnames := table_qnames self;
           upto_lsn := upto_lsn self;
           start_lsn := start_lsn self;
           target_batch_size := target_batch_size self;
           table_options := table_options self;
           last_commit_lsn := Some last_commit_lsn;
           generated_all := MessageConsumer.consumed_all consumer |} in
      ((started ++ [SendFeedbackWrite last_commit_lsn] ++ yields
          ++ [SendFeedbackFlush last_commit_lsn; ConnectionClose])%list,
       self', pending)
  end.

End ItemGenerator.

(** ** The vocabulary of the statements *)

(** What [s1.get(k, s2.get(k))] is when one of the two has the key. *)
Definition preferred (k : string) (s1 s2 : TColumnSchema) : option PyVal :=
  match Dict.get k s1 with
  | Some v => Some v
  | None => Dict.get k s2
  end.

(** A column of [last] that [new] has with an equal [data_type] and with
    allowed fields only. *)
Definition column_compatible (new_columns : TTableSchemaColumns)
    (col_name : string) (s1 : TColumnSchema) : Prop :=
  exists s2 t1 t2,
    Dict.get col_name new_columns = Some s2
    /\ Dict.get "data_type" s1 = Some t1
    /\ Dict.get "data_type" s2 = Some t2
    /\ py_eqb t1 t2 = true
    /\ extra_fields s2 = [].

(** What the merged column holds. *)
Definition merged_column (col_name : string) (s1 s2 m : TColumnSchema) : Prop :=
  Dict.get "name" m = Some (VStr col_name)
  /\ Dict.get "data_type" m = Dict.get "data_type" s1
  /\ Dict.get "nullable" m = preferred "nullable" s1 s2
  /\ Dict.get "precision" m = preferred "precision" s1 s2
  /\ Dict.get "scale" m = preferred "scale" s1 s2.

(** The two kinds of exception [compare_schemas] raises. *)
Definition assertion_or_key_error (e : exn) : Prop :=
  (exists msg, e = AssertionError msg) \/ (exists key, e = KeyError key).

(** What a method leaves alone when it only touches the schema cache and
    the row buffer. *)
Definition same_progress (self self' : MessageConsumer.t) : Prop :=
  MessageConsumer.upto_lsn self' = MessageConsumer.upto_lsn self
  /\ MessageConsumer.table_qnames self' = MessageConsumer.table_qnames self
  /\ MessageConsumer.target_batch_size self' = MessageConsumer.target_batch_size self
  /\ MessageConsumer.included_columns self' = MessageConsumer.included_columns self
  /\ MessageConsumer.consumed_all self' = MessageConsumer.consumed_all self
  /\ MessageConsumer.last_commit_ts self' = MessageConsumer.last_commit_ts self
  /\ MessageConsumer.last_commit_lsn self' = MessageConsumer.last_commit_lsn self.

(** The cached schema of [table_name] rejects the schema inferred from
    [msg]: the one way a change message ends in [StopReplication]. *)
Definition schema_rejected (self : MessageConsumer.t) (msg : RowMessage) : Prop :=
  exists table_name last new reason,
    nth_error (split_dot (table msg)) 1 = Some table_name
    /\ Dict.get table_name (MessageConsumer.last_table_schema self) = Some last
    /\ infer_table_schema msg
         (Dict.get table_name (MessageConsumer.included_columns self)) = Ok new
    /\ compare_schemas last new = Raise (AssertionError reason).

Definition is_change (o : Op) : Prop := o = INSERT \/ o = UPDATE \/ o = DELETE.

(** The rows buffered for a table: [self.data_items[table_name]] on the
    [defaultdict]. *)
Definition buffered (table_name : string) (self : MessageConsumer.t)
    : list TDataItem :=
  match Dict.get table_name (MessageConsumer.data_items self) with
  | Some l => l
  | None => []
  end.

(** The names of the columns of a tuple that the allow-list admits, in
    the order of the tuple. *)
Definition included_names (included_columns : option str_set)
    (tuples : list DatumMessage) : list string :=
  filter (column_included included_columns) (map column_name tuples).

(** The schema cache covers the fingerprint cache: a table with a cached
    fingerprint has a cached schema. *)
Definition caches_consistent (self : MessageConsumer.t) : Prop :=
  forall t h,
    Dict.get t (MessageConsumer.last_table_hashes self) = Some h ->
    Dict.contains t (MessageConsumer.last_table_schema self) = true.

(** What holds of every entry of the row buffer: it has a row, its table
    has a cached schema, and its key is the second dotted component of a
    name of the allow-set. *)
Definition buffer_ok (self : MessageConsumer.t) : Prop :=
  forall t l,
    In (t, l) (MessageConsumer.data_items self) ->
    l <> []
    /\ Dict.contains t (MessageConsumer.last_table_schema self) = true
    /\ exists q, In q (MessageConsumer.table_qnames self)
                 /\ nth_error (split_dot q) 1 = Some t.

(** A COMMIT message of the stream at the position [lsn]. *)
Definition commit_at (stream : list ReplicationMessage) (lsn : Z) : Prop :=
  exists msg row_msg,
    In msg stream /\ payload msg = Some row_msg
    /\ op row_msg = COMMIT /\ data_start msg = lsn.

(** A message of the stream that is an INSERT, UPDATE or DELETE of an
    allowed table, at the position [lsn]. *)
Definition change_at (stream : list ReplicationMessage) (qnames : str_set)
    (lsn : Z) : Prop :=
  exists msg row_msg,
    In msg stream /\ payload msg = Some row_msg
    /\ is_change (op row_msg)
    /\ set_contains (table row_msg) qnames = true
    /\ data_start msg = lsn.

(** Every buffered row carries the position of a change message of
    [stream]. *)
Definition rows_traced (stream : list ReplicationMessage)
    (self : MessageConsumer.t) : Prop :=
  forall t l data_item,
    In (t, l) (MessageConsumer.data_items self) ->
    In data_item l ->
    exists lsn,
      Dict.get "lsn" data_item = Some (VInt lsn)
      /\ change_at stream (MessageConsumer.table_qnames self) lsn.

(** A replication column inside a schema: its name, its data type, and
    [nullable] set. *)
Definition replication_column (col_name data_type : string)
    (col : TColumnSchema) : Prop :=
  Dict.get "name" col = Some (VStr col_name)
  /\ Dict.get "data_type" col = Some (VStr data_type)
  /\ Dict.get "nullable" col = Some (VBool true).

(** A schema that holds [lsn] (bigint, nullable) and [deleted_ts]
    (timestamp, nullable) under these keys. *)
Definition has_replication_columns (schema : TTableSchema) : Prop :=
  (exists col, Dict.get "lsn" (columns schema) = Some col
               /\ replication_column "lsn" "bigint" col)
  /\ (exists col, Dict.get "deleted_ts" (columns schema) = Some col
                  /\ replication_column "deleted_ts" "timestamp" col).

(** What holds of every schema of the cache: no column key twice, and the
    two replication columns. *)
Definition schemas_ok (self : MessageConsumer.t) : Prop :=
  forall t schema,
    Dict.get t (MessageConsumer.last_table_schema self) = Some schema ->
    Dict.wf (columns schema) /\ has_replication_columns schema.

(** ** Worked examples *)

Module Examples.

Definition double_quote : string := String (ascii_of_nat 34) "".

(** A column as the wire carries it, with a null datum. *)
Definition null_column (column_name : string) (column_type atttypmod : Z)
    (part_of_pkey : bool) : DatumMessage :=
  {| column_name := column_name; column_type := column_type;
     atttypmod := atttypmod; part_of_pkey := part_of_pkey;
     datum := datum_null |}.

(** Cached and newly inferred schemas of a table [t]: the new one gives
    [id] another precision and knows more about [amount]; it also has a
    column the cached one lacks. *)
Definition last_schema : TTableSchema :=
  {| name := "t";
     columns :=
       [ ("id", [ ("data_type", VStr "bigint"); ("name", VStr "id");
                  ("precision", VInt 32) ]);
         ("amount", [ ("data_type", VStr "decimal"); ("name", VStr "amount") ]) ] |}.

Definition new_schema : TTableSchema :=
  {| name := "t";
     columns :=
       [ ("id", [ ("data_type", VStr "bigint"); ("name", VStr "id");
                  ("nullable", VBool false); ("precision", VInt 64) ]);
         ("amount", [ ("data_type", VStr "decimal"); ("name", VStr "amount");
                      ("precision", VInt 10); ("scale", VInt 2) ]);
         ("note", [ ("data_type", VStr "text"); ("name", VStr "note") ]) ] |}.

(** An INSERT into [public.t] of a row with the columns [id] and [note]. *)
Definition insert_t : RowMessage :=
  {| op := INSERT; table := "public.t"; commit_time := 1700000000000000;
     new_tuple := [ null_column "id" 23 (-1) true; null_column "note" 1043 (-1) false ];
     old_tuple := [];
     new_typeinfo := [ {| modifier := "integer"; value_optional := false |};
                       {| modifier := "character varying"; value_optional := true |} ] |}.

(** The same table after [id] became a text column. *)
Definition insert_t_changed : RowMessage :=
  {| op := INSERT; table := "public.t"; commit_time := 1700000000000000;
     new_tuple := [ null_column "id" 1043 (-1) true; null_column "note" 1043 (-1) false ];
     old_tuple := [];
     new_typeinfo := [ {| modifier := "character varying"; value_optional := false |};
                       {| modifier := "character varying"; value_optional := true |} ] |}.

(** A DELETE from [public.t] that carries the key column only, and a
    commit time of its own. *)
Definition delete_t : RowMessage :=
  {| op := DELETE; table := "public.t"; commit_time := 1700000000000002;
     new_tuple := [];
     old_tuple := [ null_column "id" 23 (-1) true ];
     new_typeinfo := [] |}.

(** An INSERT whose table is written with quotes, as section 3 of the
    specification gives the field. *)
Definition insert_quoted : RowMessage :=
  {| op := INSERT;
     table := "public." ++ double_quote ++ "t" ++ double_quote;
     commit_time := 0;
     new_tuple := []; old_tuple := []; new_typeinfo := [] |}.

(** An INSERT into a table that has a column named [deleted_ts] itself. *)
Definition insert_own_deleted_ts : RowMessage :=
  {| op := INSERT; table := "public.t"; commit_time := 0;
     new_tuple := [ null_column "deleted_ts" 1184 (-1) false;
                    null_column "id" 23 (-1) true ];
     old_tuple := [];
     new_typeinfo := [ {| modifier := "timestamp with time zone"; value_optional := true |};
                       {| modifier := "integer"; value_optional := false |} ] |}.

(** An INSERT whose table has no schema part. *)
Definition insert_no_dot : RowMessage :=
  {| op := INSERT; table := "t"; commit_time := 0;
     new_tuple := []; old_tuple := []; new_typeinfo := [] |}.

Definition begin_msg (commit_time : Z) : RowMessage :=
  {| op := BEGIN; table := ""; commit_time := commit_time;
     new_tuple := []; old_tuple := []; new_typeinfo := [] |}.

(** An INSERT into a table outside the allow-set of [consumer]. *)
Definition insert_other : RowMessage :=
  {| op := INSERT; table := "public.other"; commit_time := 1700000000000000;
     new_tuple := [ null_column "id" 23 (-1) true ];
     old_tuple := [];
     new_typeinfo := [ {| modifier := "integer"; value_optional := false |} ] |}.

(** A DELETE from a table whose key column is named [deleted_ts]. *)
Definition delete_own_deleted_ts : RowMessage :=
  {| op := DELETE; table := "public.t"; commit_time := 1700000000000002;
     new_tuple := [];
     old_tuple := [ null_column "deleted_ts" 1184 (-1) true ];
     new_typeinfo := [] |}.

Definition commit_msg (commit_time : Z) : RowMessage :=
  {| op := COMMIT; table := ""; commit_time := commit_time;
     new_tuple := []; old_tuple := []; new_typeinfo := [] |}.

(** An UPDATE of [public.t] that carries type info for [id] only. *)
Definition update_short_typeinfo : RowMessage :=
  {| op := UPDATE; table := "public.t"; commit_time := 1700000000000000;
     new_tuple := [ null_column "id" 23 (-1) true; null_column "note" 1043 (-1) false ];
     old_tuple := [];
     new_typeinfo := [ {| modifier := "integer"; value_optional := false |} ] |}.

Definition on_wire (row_msg : RowMessage) (data_start : Z) : ReplicationMessage :=
  {| payload := Some row_msg; data_start := data_start |}.

(** A consumer for [public.t] with the default batch size. *)
Definition consumer : MessageConsumer.t :=
  MessageConsumer.__init__ 1000000 ["public.t"] 1000 None.

(** A generator for [public.t], on a slot without pending changes. *)
Definition generator : ItemGenerator.t :=
  {| ItemGenerator.slot_name := "slot";
     ItemGenerator.table_qnames := ["public.t"];
     ItemGenerator.upto_lsn := 0;
     ItemGenerator.start_lsn := 0;
     ItemGenerator.target_batch_size := 1000;
     ItemGenerator.table_options := None;
     ItemGenerator.last_commit_lsn := None;
     ItemGenerator.generated_all := false |}.

(** The consumer after the INSERT into [public.t]: one row is buffered,
    and the schema and the fingerprint of [t] are cached. *)
Definition consumer_after_insert : MessageConsumer.t :=
  fst (MessageConsumer.process_msg unused_library (on_wire insert_t 272) consumer).

(** One transaction that ends below [upto_lsn] and one that ends on it,
    and a third after them. *)
Definition three_transactions : list ReplicationMessage :=
  [ on_wire (begin_msg 1700000000000000) 256;
    on_wire insert_t 272;
    on_wire (commit_msg 1700000000000000) 288;
    on_wire (begin_msg 1700000000000001) 999968;
    on_wire delete_t 999984;
    on_wire (commit_msg 1700000000000001) 1000000;
    on_wire (begin_msg 1700000000000002) 1000016;
    on_wire insert_t 1000032;
    on_wire (commit_msg 1700000000000002) 1000048 ].

(** A generator that reads up to the second COMMIT. *)
Definition generator_upto : ItemGenerator.t :=
  {| ItemGenerator.slot_name := "slot";
     ItemGenerator.table_qnames := ["public.t"];
     ItemGenerator.upto_lsn := 1000000;
     ItemGenerator.start_lsn := 0;
     ItemGenerator.target_batch_size := 1000;
     ItemGenerator.table_options := None;
     ItemGenerator.last_commit_lsn := None;
     ItemGenerator.generated_all := false |}.

(** The INSERT into [public.t] again, from a server that now reports [id]
    as optional: the type info, and so its fingerprint, differ. *)
Definition insert_t_relaxed : RowMessage :=
  {| op := INSERT; table := "public.t"; commit_time := 1700000000000000;
     new_tuple := [ null_column "id" 23 (-1) true; null_column "note" 1043 (-1) false ];
     old_tuple := [];
     new_typeinfo := [ {| modifier := "integer"; value_optional := true |};
                       {| modifier := "character varying"; value_optional := true |} ] |}.

(** A generator for [public.t] whose allow-list names a column that the
    messages do not carry, so that the schemas hold the replication
    columns only. *)
Definition generator_archived : ItemGenerator.t :=
  {| ItemGenerator.slot_name := "slot";
     ItemGenerator.table_qnames := ["public.t"];
     ItemGenerator.upto_lsn := 1000000;
     ItemGenerator.start_lsn := 0;
     ItemGenerator.target_batch_size := 1000;
     ItemGenerator.table_options :=
       Some [("t", {| SqlTableOptions.included_columns := Some ["archived"] |})];
     ItemGenerator.last_commit_lsn := None;
     ItemGenerator.generated_all := false |}.

(** One transaction with two rows of [public.t] whose type info differs:
    the second makes the consumer reconcile the cached schema. *)
Definition reconciled_transaction : list ReplicationMessage :=
  [ on_wire (begin_msg 1700000000000000) 256;
    on_wire insert_t 272;
    on_wire insert_t_relaxed 280;
    on_wire (commit_msg 1700000000000000) 1000000 ].

End Examples.

(** * Properties *)

(** ** Strings *)

Lemma length_append (a b : string) :
  String.length (a ++ b) = (String.length a + String.length b)%nat.
Proof.
  induction a as [|c a IH]; simpl; [reflexivity | now rewrite IH].
Qed.

Lemma append_assoc (a b c : string) : ((a ++ b) ++ c)%string = (a ++ (b ++ c))%string.
Proof.
  induction a as [|x a IH]; simpl; [reflexivity | now rewrite IH].
Qed.

(** ** The LSN text form *)

Module HexFacts.
Import Hex.

Lemma digit_val_digit (d : Z) : 0 <= d < 16 -> digit_val (digit d) = Some d.
Proof.
  intros H.
  assert (E : d = 0 \/ d = 1 \/ d = 2 \/ d = 3 \/ d = 4 \/ d = 5 \/ d = 6
              \/ d = 7 \/ d = 8 \/ d = 9 \/ d = 10 \/ d = 11 \/ d = 12
              \/ d = 13 \/ d = 14 \/ d = 15) by lia.
  repeat (destruct E as [E | E]; [subst d; reflexivity | ]).
  subst d; reflexivity.
Qed.

Lemma parse_from_app (s t : string) (acc : Z) :
  parse_from acc (s ++ t) =
  match parse_from acc s with
  | Some v => parse_from v t
  | None => None
  end.
Proof.
  revert acc; induction s as [|c s IH]; intros acc; simpl.
  - reflexivity.
  - destruct (digit_val c); [apply IH | reflexivity].
Qed.

Lemma all_upper_hex_app (s t : string) :
  all_upper_hex (s ++ t) = all_upper_hex s && all_upper_hex t.
Proof.
  induction s as [|c s IH]; simpl; [reflexivity | ].
  now rewrite IH, andb_assoc.
Qed.

Lemma div16_lt_pow2 (fuel : nat) (n : Z) :
  0 < n < 2 ^ Z.of_nat (S fuel) -> 0 <= n / 16 < 2 ^ Z.of_nat fuel.
Proof.
  intros [Hpos Hlt].
  rewrite Nat2Z.inj_succ, Z.pow_succ_r in Hlt by lia.
  split; [apply Z.div_pos; lia | ].
  apply Z.div_lt_upper_bound; lia.
Qed.

(** With enough fuel the digits read back as the number. *)
Lemma parse_digits (fuel : nat) :
  forall n, 0 <= n < 2 ^ Z.of_nat fuel -> parse_from 0 (digits fuel n) = Some n.
Proof.
  induction fuel as [|fuel IH]; intros n Hn.
  - simpl in *. f_equal; lia.
  - cbn [digits]. destruct (Z.leb_spec n 0) as [Hle | Hgt].
    + simpl. f_equal; lia.
    + rewrite parse_from_app, IH by (apply div16_lt_pow2; lia).
      cbn [parse_from].
      rewrite digit_val_digit by (apply Z.mod_pos_bound; lia).
      f_equal. pose proof (Z.div_mod n 16). lia.
Qed.

Lemma digits_upper_hex (fuel : nat) :
  forall n, all_upper_hex (digits fuel n) = true.
Proof.
  induction fuel as [|fuel IH]; intros n; cbn [digits]; [reflexivity | ].
  destruct (n <=? 0); [reflexivity | ].
  rewrite all_upper_hex_app, IH. cbn [all_upper_hex andb].
  unfold is_upper_hex.
  rewrite digit_val_digit by (apply Z.mod_pos_bound; lia).
  reflexivity.
Qed.

Lemma digits_nonempty (fuel : nat) (n : Z) :
  0 < n -> (1 <= String.length (digits (S fuel) n))%nat.
Proof.
  intros Hn. cbn [digits].
  destruct (Z.leb_spec n 0); [lia | ].
  rewrite length_append. simpl. lia.
Qed.

(** A number below [16^k] has at most [k] digits. *)
Lemma digits_length (fuel : nat) :
  forall (k : nat) n, 0 <= n < 16 ^ Z.of_nat k ->
                      (String.length (digits fuel n) <= k)%nat.
Proof.
  induction fuel as [|fuel IH]; intros k n Hn; cbn [digits]; [simpl; lia | ].
  destruct (Z.leb_spec n 0) as [Hle | Hgt]; [simpl; lia | ].
  destruct k as [|k]; [simpl in Hn; lia | ].
  rewrite length_append. simpl.
  assert (String.length (digits fuel (n / 16)) <= k)%nat; [ | lia].
  apply IH.
  rewrite Nat2Z.inj_succ, Z.pow_succ_r in Hn by lia.
  split; [apply Z.div_pos; lia | apply Z.div_lt_upper_bound; lia].
Qed.

Lemma log2_fuel (n : Z) : 0 < n -> 0 <= n < 2 ^ Z.of_nat (S (Z.to_nat (Z.log2 n))).
Proof.
  intros Hn.
  pose proof (Z.log2_spec n Hn) as [_ Hlt].
  pose proof (Z.log2_nonneg n).
  rewrite Nat2Z.inj_succ, Z2Nat.id by lia.
  lia.
Qed.

Lemma parse_format_X (n : Z) : 0 <= n -> Hex.parse (format_X n) = Some n.
Proof.
  intros Hn. unfold format_X.
  destruct (Z.eqb_spec n 0) as [-> | Hne]; [reflexivity | ].
  destruct (Z.ltb_spec n 0); [lia | ].
  pose proof (@digits_nonempty (Z.to_nat (Z.log2 n)) n ltac:(lia)) as Hlen.
  pose proof (@parse_digits _ n (@log2_fuel n ltac:(lia))) as Hparse.
  unfold Hex.parse.
  destruct (digits (S (Z.to_nat (Z.log2 n))) n); [simpl in Hlen; lia | exact Hparse].
Qed.

Lemma format_X_upper_hex (n : Z) : 0 <= n -> all_upper_hex (format_X n) = true.
Proof.
  intros Hn. unfold format_X.
  destruct (n =? 0); [reflexivity | ].
  destruct (Z.ltb_spec n 0); [lia | apply digits_upper_hex].
Qed.

Lemma format_X_nonempty (n : Z) : 0 <= n -> (1 <= String.length (format_X n))%nat.
Proof.
  intros Hn. unfold format_X.
  destruct (Z.eqb_spec n 0); [simpl; lia | ].
  destruct (Z.ltb_spec n 0); [lia | apply digits_nonempty; lia].
Qed.

Lemma format_X_length (k : nat) (n : Z) :
  (1 <= k)%nat -> 0 <= n < 16 ^ Z.of_nat k -> (String.length (format_X n) <= k)%nat.
Proof.
  intros Hk Hn. unfold format_X.
  destruct (n =? 0); [simpl; lia | ].
  destruct (Z.ltb_spec n 0); [lia | now apply digits_length].
Qed.

Lemma zeros_length (k : nat) : String.length (zeros k) = k.
Proof. induction k; simpl; congruence. Qed.

Lemma zeros_upper_hex (k : nat) : all_upper_hex (zeros k) = true.
Proof. induction k; simpl; auto. Qed.

Lemma parse_from_zeros (k : nat) (s : string) :
  parse_from 0 (zeros k ++ s) = parse_from 0 s.
Proof. induction k; simpl; auto. Qed.

(** The padded form of a number that fits the width: exactly [w] digits,
    which read back as the number. *)
Lemma format_0wX_spec (w : nat) (n : Z) :
  (1 <= w)%nat -> 0 <= n < 16 ^ Z.of_nat w ->
  String.length (format_0wX w n) = w
  /\ all_upper_hex (format_0wX w n) = true
  /\ Hex.parse (format_0wX w n) = Some n.
Proof.
  intros Hw Hn. unfold format_0wX.
  pose proof (format_X_length Hw Hn) as Hlen.
  pose proof (@format_X_nonempty n ltac:(lia)) as Hne.
  pose proof (@parse_format_X n ltac:(lia)) as Hparse.
  repeat split.
  - rewrite length_append, zeros_length. lia.
  - rewrite all_upper_hex_app, zeros_upper_hex, format_X_upper_hex by lia.
    reflexivity.
  - assert (Hp : parse_from 0 (zeros (w - String.length (format_X n)) ++ format_X n)
                 = Some n).
    { rewrite parse_from_zeros. unfold Hex.parse in Hparse.
      destruct (format_X n); [simpl in Hne; lia | exact Hparse]. }
    unfold Hex.parse.
    destruct (zeros (w - String.length (format_X n)) ++ format_X n)%string eqn:E;
      [ | exact Hp].
    apply (f_equal String.length) in E.
    rewrite length_append in E. simpl in E. lia.
Qed.

End HexFacts.

Lemma split_slash_app (h l : string) :
  Hex.all_upper_hex h = true ->
  LsnText.split_slash (h ++ String "/" l) = Some (h, l).
Proof.
  induction h as [|c h IH]; intros Hh; simpl.
  - reflexivity.
  - simpl in Hh. apply andb_prop in Hh as [Hc Hh].
    destruct (Ascii.eqb_spec c "/") as [-> | _]; [discriminate Hc | ].
    now rewrite IH.
Qed.

Lemma land_shiftr_high (n : Z) :
  0 <= n < 2 ^ 64 -> Z.land (Z.shiftr n 32) 4294967295 = n / 2 ^ 32.
Proof.
  intros Hn.
  change 4294967295 with (Z.ones 32).
  rewrite Z.land_ones, Z.shiftr_div_pow2 by lia.
  apply Z.mod_small.
  split; [apply Z.div_pos; lia | apply Z.div_lt_upper_bound; lia].
Qed.

Lemma land_low (n : Z) : Z.land n 4294967295 = n mod 2 ^ 32.
Proof. change 4294967295 with (Z.ones 32). now rewrite Z.land_ones by lia. Qed.

(** C8: for every 64-bit non-negative [n], [lsn_int_to_hex n] has the form
    H/LL, with H one or more upper-case hexadecimal digits and LL exactly
    eight of them, and reading the halves back as
    [int(H,16) * 2^32 + int(LL,16)] gives [n]; [n = 1] gives
    ["0/00000001"]. *)
Theorem lsn_int_to_hex_round_trip (n : Z) :
  0 <= n < 2 ^ 64 ->
  LsnText.matches_pattern (lsn_int_to_hex n) = true
  /\ LsnText.parse (lsn_int_to_hex n) = Some n
  /\ lsn_int_to_hex 1 = "0/00000001".
Proof.
  intros Hn.
  unfold lsn_int_to_hex.
  rewrite (land_shiftr_high Hn), land_low.
  set (hi := n / 2 ^ 32). set (lo := n mod 2 ^ 32).
  assert (Hhi : 0 <= hi) by (apply Z.div_pos; lia).
  assert (Hlo : 0 <= lo < 16 ^ Z.of_nat 8)
    by (change (16 ^ Z.of_nat 8) with (2 ^ 32); apply Z.mod_pos_bound; lia).
  destruct (@HexFacts.format_0wX_spec 8 lo ltac:(lia) Hlo) as (Hlen & Hhex & Hparse).
  pose proof (HexFacts.format_X_upper_hex Hhi) as Hhhex.
  pose proof (HexFacts.format_X_nonempty Hhi) as Hhne.
  unfold LsnText.matches_pattern, LsnText.parse.
  change ("/" ++ Hex.format_0wX 8 lo)%string with (String "/" (Hex.format_0wX 8 lo)).
  rewrite (@split_slash_app _ _ Hhhex).
  rewrite Hhhex, Hhex, Hlen, (HexFacts.parse_format_X Hhi), Hparse.
  repeat split.
  - destruct (String.length (Hex.format_X hi)); [lia | reflexivity].
  - f_equal. subst hi lo. pose proof (Z.div_mod n (2 ^ 32)). lia.
Qed.

Lemma lsn_int_to_hex_round_trip_witness :
  0 <= 1560002038944 < 2 ^ 64
  /\ lsn_int_to_hex 1560002038944 = "16B/375E0CA0"
  /\ LsnText.matches_pattern (lsn_int_to_hex 1560002038944) = true
  /\ LsnText.parse (lsn_int_to_hex 1560002038944) = Some 1560002038944.
Proof.
  assert (H : 0 <= 1560002038944 < 2 ^ 64) by (split; [lia | reflexivity]).
  split; [exact H | ].
  split; [vm_compute; reflexivity | ].
  destruct (lsn_int_to_hex_round_trip H) as (Hm & Hp & _).
  split; [exact Hm | exact Hp].
Defined.

(** ** The type mapper's scale *)

Lemma get_scale_unset (type_id : Z) : _get_scale type_id (-1) = None.
Proof. reflexivity. Qed.

(** C7, as the code has it: the scale is read only when [atttypmod] is not
    -1.  Then it is 0 for smallint, integer and bigint (OIDs 21, 23, 20)
    and [(atttypmod - 4) & 0xFFFF] for numeric (OID 1700); when
    [atttypmod] is -1 there is no scale, whatever the type. *)
Theorem get_scale_when_atttypmod_set (atttypmod : Z) :
  atttypmod <> -1 ->
  _get_scale 21 atttypmod = Some 0
  /\ _get_scale 23 atttypmod = Some 0
  /\ _get_scale 20 atttypmod = Some 0
  /\ _get_scale 1700 atttypmod = Some (Z.land (atttypmod - 4) 65535)
  /\ (forall type_id, _get_scale type_id (-1) = None).
Proof.
  intros H. unfold _get_scale.
  destruct (Z.eqb_spec atttypmod (-1)) as [E | _]; [contradiction | ].
  simpl. repeat split.
Qed.

(** [numeric(10, 2)] has [atttypmod = ((10 << 16) | 2) + 4]. *)
Lemma get_scale_when_atttypmod_set_witness :
  655366 <> -1
  /\ _get_scale 23 655366 = Some 0
  /\ _get_scale 1700 655366 = Some 2.
Proof.
  assert (H : 655366 <> -1) by discriminate.
  destruct (get_scale_when_atttypmod_set H) as (_ & H23 & _ & H1700 & _).
  split; [exact H | ]. split; [exact H23 | exact H1700].
Defined.

(** An integer column as the server reports it, with no type modifier:
    the scale is [None], not 0. *)
Lemma get_scale_integer_counterexample :
  _get_scale 23 (-1) = None /\ _get_scale 23 (-1) <> Some 0.
Proof. split; [reflexivity | discriminate]. Qed.

(** ** The value decoder on a null datum *)

(** C5: on a null datum ([byte1 = "n"]) with [for_delete] the decoder
    returns the dummy value of the target type, for every member of
    [TDataType], and these are 0 for bigint, the empty string for text,
    [True] for bool, one space byte for binary, [Decimal(0)] for decimal,
    and fixed texts for date, time and timestamp; without [for_delete] it
    returns [None], whatever the target type. *)
Theorem to_dlt_val_null (lib : Library) (val : string) :
  Forall (fun data_type =>
            exists dummy,
              Dict.get data_type _DUMMY_VALS = Some dummy
              /\ _to_dlt_val lib val (VStr data_type) "n" true = Ok dummy)
         TDataType_values
  /\ _to_dlt_val lib val (VStr "bigint") "n" true = Ok (VInt 0)
  /\ _to_dlt_val lib val (VStr "text") "n" true = Ok (VStr "")
  /\ _to_dlt_val lib val (VStr "bool") "n" true = Ok (VBool true)
  /\ _to_dlt_val lib val (VStr "binary") "n" true = Ok (VBytes " ")
  /\ _to_dlt_val lib val (VStr "decimal") "n" true = Ok (VDecimal 0 0)
  /\ _to_dlt_val lib val (VStr "date") "n" true = Ok (VStr "2000-01-01")
  /\ _to_dlt_val lib val (VStr "time") "n" true = Ok (VStr "00:00:00")
  /\ _to_dlt_val lib val (VStr "timestamp") "n" true
     = Ok (VStr "2000-01-01T00:00:00")
  /\ (forall data_type, _to_dlt_val lib val data_type "n" false = Ok VNone).
Proof.
  split.
  - unfold TDataType_values.
    repeat (apply Forall_cons; [eexists; split; reflexivity | ]).
    apply Forall_nil.
  - repeat split.
Qed.

(** The same through the decoder that takes the column: a null datum of a
    DELETE is replaced by the dummy, a null datum otherwise stays
    [None]. *)
Lemma to_dlt_val_datum_null (lib : Library) (data : DatumMessage)
    (data_type : string) (for_delete : bool) :
  datum data = datum_null ->
  _to_dlt_val_datum lib data (VStr data_type) for_delete =
  if for_delete then Dict.getitem data_type _DUMMY_VALS else Ok VNone.
Proof. intros H. unfold _to_dlt_val_datum. rewrite H. reflexivity. Qed.

(** ** Dictionaries *)

Module DictFacts.
Section Facts.
Variable V : Type.
Implicit Types (d : Dict.t V) (k : string) (v : V).

Lemma get_setitem_same d k v : Dict.get k (Dict.setitem k v d) = Some v.
Proof.
  induction d as [|[k' v'] d IH]; simpl.
  - now rewrite String.eqb_refl.
  - destruct (String.eqb k k') eqn:E; simpl; rewrite E; auto.
Qed.

Lemma get_setitem_other d k k' v :
  k <> k' -> Dict.get k' (Dict.setitem k v d) = Dict.get k' d.
Proof.
  intros Hne. induction d as [|[k0 v0] d IH]; simpl.
  - destruct (String.eqb_spec k' k); [congruence | reflexivity].
  - destruct (String.eqb_spec k k0) as [-> | Hk]; simpl.
    + destruct (String.eqb_spec k' k0); [congruence | reflexivity].
    + destruct (String.eqb k' k0); [reflexivity | exact IH].
Qed.

Lemma get_none_not_in d k : Dict.get k d = None <-> ~ In k (Dict.keys d).
Proof.
  induction d as [|[k' v'] d IH]; simpl.
  - tauto.
  - destruct (String.eqb_spec k k') as [-> | Hne].
    + split; [discriminate | intros H; exfalso; apply H; now left].
    + rewrite IH. split; [intros H [E | HIn]; [congruence | tauto] | tauto].
Qed.

Lemma get_in d k v : Dict.get k d = Some v -> In (k, v) d.
Proof.
  induction d as [|[k' v'] d IH]; simpl; [discriminate | ].
  destruct (String.eqb_spec k k') as [-> | Hne].
  - intros [= ->]. now left.
  - intros H. right. now apply IH.
Qed.

Lemma in_get d k v : Dict.wf d -> In (k, v) d -> Dict.get k d = Some v.
Proof.
  unfold Dict.wf.
  induction d as [|[k' v'] d IH]; simpl; [tauto | ].
  intros Hnd [[= -> ->] | HIn].
  - now rewrite String.eqb_refl.
  - inversion Hnd as [|? ? Hnotin Hnd']; subst.
    destruct (String.eqb_spec k k') as [-> | Hne].
    + exfalso. apply Hnotin. change k' with (fst (k', v)). now apply in_map.
    + now apply IH.
Qed.

(** A new key goes to the end. *)
Lemma setitem_fresh d k v :
  Dict.get k d = None -> Dict.setitem k v d = (d ++ [(k, v)])%list.
Proof.
  induction d as [|[k' v'] d IH]; simpl; [reflexivity | ].
  destruct (String.eqb k k'); [discriminate | ].
  intros H. now rewrite IH.
Qed.

(** A key that is present keeps its place. *)
Lemma keys_setitem_present d k v :
  In k (Dict.keys d) -> Dict.keys (Dict.setitem k v d) = Dict.keys d.
Proof.
  induction d as [|[k' v'] d IH]; simpl; [tauto | ].
  destruct (String.eqb_spec k k') as [-> | Hne]; simpl; [reflexivity | ].
  intros [E | HIn]; [congruence | ]. now rewrite IH.
Qed.

Lemma keys_setitem_fresh d k v :
  Dict.get k d = None -> Dict.keys (Dict.setitem k v d) = (Dict.keys d ++ [k])%list.
Proof.
  intros H. rewrite (@setitem_fresh d k v H). unfold Dict.keys.
  now rewrite map_app.
Qed.

Lemma contains_setitem d k k' v :
  Dict.contains k' d = true -> Dict.contains k' (Dict.setitem k v d) = true.
Proof.
  unfold Dict.contains.
  destruct (String.eqb_spec k k') as [-> | Hne].
  - now rewrite get_setitem_same.
  - now rewrite get_setitem_other.
Qed.

Lemma contains_setitem_same d k v :
  Dict.contains k (Dict.setitem k v d) = true.
Proof. unfold Dict.contains. now rewrite get_setitem_same. Qed.

Lemma wf_setitem d k v : Dict.wf d -> Dict.wf (Dict.setitem k v d).
Proof.
  unfold Dict.wf. intros Hwf.
  destruct (Dict.get k d) eqn:E.
  - rewrite keys_setitem_present; [exact Hwf | ].
    apply get_in in E. change k with (fst (k, v0)). now apply in_map.
  - rewrite (@keys_setitem_fresh d k v E).
    apply NoDup_app; [exact Hwf | repeat constructor; simpl; tauto | ].
    intros x Hx [<- | []]. now apply get_none_not_in in E.
Qed.
End Facts.
End DictFacts.

(** ** Schema reconciliation *)

Lemma get_retain_field_same (k : string) (s1 s2 col : TColumnSchema) :
  Dict.get k col = None ->
  Dict.get k (retain_field k s1 s2 col) = preferred k s1 s2.
Proof.
  intros Hcol. unfold retain_field, preferred, Dict.contains.
  destruct (Dict.get k s1) as [v1|]; simpl.
  - apply DictFacts.get_setitem_same.
  - destruct (Dict.get k s2) as [v2|]; simpl.
    + apply DictFacts.get_setitem_same.
    + exact Hcol.
Qed.

Lemma get_retain_field_other (k k' : string) (s1 s2 col : TColumnSchema) :
  k <> k' -> Dict.get k' (retain_field k s1 s2 col) = Dict.get k' col.
Proof.
  intros Hne. unfold retain_field.
  destruct (Dict.contains k s1 || Dict.contains k s2); [ | reflexivity].
  now apply DictFacts.get_setitem_other.
Qed.

Lemma extra_fields_nil (s2 : TColumnSchema) :
  (forall k, In k (Dict.keys s2) -> In k ALLOWED_COL_SCHEMA_FIELDS) ->
  extra_fields s2 = [].
Proof.
  unfold extra_fields.
  generalize (Dict.keys s2) as ks.
  induction ks as [|k ks IH]; intros H; cbn [filter]; [reflexivity | ].
  assert (Hk : set_contains k ALLOWED_COL_SCHEMA_FIELDS = true).
  { unfold set_contains. apply existsb_exists. exists k.
    split; [apply H; now left | apply String.eqb_refl]. }
  rewrite Hk. cbn [negb]. apply IH. intros k' Hk'. apply H. now right.
Qed.

Lemma compare_column_ok (new_columns : TTableSchemaColumns)
    (col_name : string) (s1 : TColumnSchema) :
  column_compatible new_columns col_name s1 ->
  exists s2 m,
    Dict.get col_name new_columns = Some s2
    /\ compare_column new_columns col_name s1 = Ok m
    /\ merged_column col_name s1 s2 m.
Proof.
  intros (s2 & t1 & t2 & Hs2 & Ht1 & Ht2 & Heq & Hextra).
  exists s2. unfold compare_column, Dict.getitem.
  rewrite Hs2, Ht1, Ht2. cbn [bind]. rewrite Heq, Hextra. cbn [negb].
  eexists. split; [reflexivity | ]. split; [reflexivity | ].
  unfold merged_column.
  repeat split.
  - now rewrite !get_retain_field_other by discriminate.
  - rewrite !get_retain_field_other by discriminate. now rewrite Ht1.
  - rewrite !get_retain_field_other by discriminate.
    now apply get_retain_field_same.
  - rewrite get_retain_field_other by discriminate.
    apply get_retain_field_same.
    now rewrite get_retain_field_other by discriminate.
  - apply get_retain_field_same.
    now rewrite !get_retain_field_other by discriminate.
Qed.

(** The loop of [compare_schemas] over the columns of [last]: each one is
    appended to the result in turn. *)
Lemma compare_columns_ok (new_columns : TTableSchemaColumns) :
  forall (last_items : list (string * TColumnSchema)) (acc : TTableSchemaColumns),
    NoDup (map fst last_items) ->
    (forall k, In k (map fst last_items) -> Dict.get k acc = None) ->
    (forall c s1, In (c, s1) last_items -> column_compatible new_columns c s1) ->
    exists merged,
      compare_columns new_columns last_items acc = Ok merged
      /\ Dict.keys merged = (Dict.keys acc ++ map fst last_items)%list
      /\ (forall k, ~ In k (map fst last_items) ->
                    Dict.get k merged = Dict.get k acc)
      /\ (forall c s1, In (c, s1) last_items ->
            exists m, compare_column new_columns c s1 = Ok m
                      /\ Dict.get c merged = Some m).
Proof.
  induction last_items as [|[c s1] rest IH]; intros acc Hnd Hfresh Hok.
  - exists acc. simpl. rewrite app_nil_r. repeat split; auto. intros ? ? [].
  - simpl in Hnd. inversion Hnd as [|? ? Hc Hnd']; subst.
    destruct (@compare_column_ok new_columns c s1 (Hok c s1 (or_introl eq_refl)))
      as (s2 & m & _ & Hm & _).
    destruct (IH (Dict.setitem c m acc) Hnd') as (merged & Hrun & Hkeys & Hout & Hin).
    + intros k Hk. rewrite DictFacts.get_setitem_other.
      * apply Hfresh. now right.
      * intros ->. contradiction.
    + intros c' s1' HIn. apply Hok. now right.
    + exists merged. cbn [compare_columns]. rewrite Hm. cbn [bind].
      split; [exact Hrun | ].
      split.
      { rewrite Hkeys, DictFacts.keys_setitem_fresh by (apply Hfresh; now left).
        now rewrite <- app_assoc. }
      split.
      { intros k Hk. simpl in Hk. rewrite Hout by tauto.
        apply DictFacts.get_setitem_other. intros ->. apply Hk. now left. }
      intros c' s1' [[= -> ->] | HIn].
      * exists m. split; [exact Hm | ].
        rewrite Hout by exact Hc. apply DictFacts.get_setitem_same.
      * now apply Hin.
Qed.

(** C4: for schemas [last] and [new] of the same name, where every column
    of [last] is in [new] with an equal [data_type] and no column of
    [new] has a field outside name, data_type, nullable, precision and
    scale, [compare_schemas] returns a schema with the name and exactly
    the columns of [last], in their order; each column keeps the
    [data_type] of [last], and each of nullable, precision and scale is
    the value of [last] when [last] has the field and the value of [new]
    otherwise. *)
Theorem compare_schemas_merges (last new : TTableSchema) :
  name last = name new ->
  Dict.wf (columns last) ->
  (forall c s1, In (c, s1) (columns last) ->
     exists s2 t1 t2,
       Dict.get c (columns new) = Some s2
       /\ Dict.get "data_type" s1 = Some t1
       /\ Dict.get "data_type" s2 = Some t2
       /\ py_eqb t1 t2 = true) ->
  (forall c s2, In (c, s2) (columns new) ->
     forall k, In k (Dict.keys s2) -> In k ALLOWED_COL_SCHEMA_FIELDS) ->
  exists merged,
    compare_schemas last new = Ok merged
    /\ name merged = name last
    /\ Dict.keys (columns merged) = Dict.keys (columns last)
    /\ (forall c s1, In (c, s1) (columns last) ->
          exists s2 m,
            Dict.get c (columns new) = Some s2
            /\ Dict.get c (columns merged) = Some m
            /\ Dict.get "data_type" m = Dict.get "data_type" s1
            /\ Dict.get "nullable" m = preferred "nullable" s1 s2
            /\ Dict.get "precision" m = preferred "precision" s1 s2
            /\ Dict.get "scale" m = preferred "scale" s1 s2).
Proof.
  intros Hname Hwf Hcols Hfields.
  assert (Hok : forall c s1, In (c, s1) (Dict.items (columns last)) ->
                             column_compatible (columns new) c s1).
  { intros c s1 HIn. destruct (Hcols c s1 HIn) as (s2 & t1 & t2 & Hs2 & Ht1 & Ht2 & Heq).
    exists s2, t1, t2. repeat split; auto.
    apply extra_fields_nil. apply (Hfields c). now apply DictFacts.get_in. }
  destruct (@compare_columns_ok (columns new) (Dict.items (columns last)) Dict.empty
              Hwf (fun _ _ => eq_refl) Hok)
    as (merged & Hrun & Hkeys & _ & Hin).
  exists {| name := name last; columns := merged |}.
  unfold compare_schemas. cbv zeta. rewrite <- Hname, String.eqb_refl. cbn [negb].
  rewrite Hrun. cbn [bind].
  split; [reflexivity | ]. split; [reflexivity | ]. split; [exact Hkeys | ].
  intros c s1 HIn. cbn [columns].
  destruct (Hin c s1 HIn) as (m & Hm & Hget).
  destruct (@compare_column_ok (columns new) c s1 (Hok c s1 HIn))
    as (s2 & m' & Hs2 & Hm' & (_ & Hdt & Hn & Hp & Hs)).
  rewrite Hm in Hm'. injection Hm' as <-.
  exists s2, m. repeat split; assumption.
Qed.

(** The cached precision of [id] wins, and [amount] takes the precision
    and scale that only the new schema has. *)
Example compare_schemas_example :
  compare_schemas Examples.last_schema Examples.new_schema =
  Ok {| name := "t";
        columns :=
          [ ("id", [ ("name", VStr "id"); ("data_type", VStr "bigint");
                     ("nullable", VBool false); ("precision", VInt 32) ]);
            ("amount", [ ("name", VStr "amount"); ("data_type", VStr "decimal");
                         ("precision", VInt 10); ("scale", VInt 2) ]) ] |}.
Proof. reflexivity. Qed.

Lemma compare_schemas_merges_witness :
  exists merged,
    compare_schemas Examples.last_schema Examples.new_schema = Ok merged
    /\ name merged = "t"
    /\ Dict.keys (columns merged) = ["id"; "amount"]
    /\ (forall c s1, In (c, s1) (columns Examples.last_schema) ->
          exists s2 m,
            Dict.get c (columns Examples.new_schema) = Some s2
            /\ Dict.get c (columns merged) = Some m
            /\ Dict.get "data_type" m = Dict.get "data_type" s1
            /\ Dict.get "nullable" m = preferred "nullable" s1 s2
            /\ Dict.get "precision" m = preferred "precision" s1 s2
            /\ Dict.get "scale" m = preferred "scale" s1 s2).
Proof.
  apply (@compare_schemas_merges Examples.last_schema Examples.new_schema).
  - reflexivity.
  - unfold Dict.wf. simpl.
    repeat constructor; simpl; intuition discriminate.
  - intros c s1 HIn. simpl in HIn.
    destruct HIn as [[= <- <-] | [[= <- <-] | []]];
      do 3 eexists; repeat split; reflexivity.
  - intros c s2 HIn k Hk. simpl in HIn.
    destruct HIn as [[= <- <-] | [[= <- <-] | [[= <- <-] | []]]];
      simpl in Hk |- *; intuition.
Defined.

(** ** Schema inference and row items *)

Lemma column_included_unfiltered (included_columns : option str_set)
    (column : string) :
  included_columns = None \/ included_columns = Some [] ->
  column_included included_columns column = true.
Proof. intros [-> | ->]; reflexivity. Qed.

Lemma infer_columns_ok (is_change : bool) (typeinfo : list TypeInfo)
    (included_columns : option str_set) :
  forall tuples i acc cols,
    infer_columns is_change typeinfo included_columns i tuples acc = Ok cols ->
    (forall k, Dict.contains k acc = true -> Dict.contains k cols = true)
    /\ (forall col, In col tuples ->
                    column_included included_columns (column_name col) = true ->
                    Dict.contains (column_name col) cols = true)
    /\ (forall k, (forall col, In col tuples ->
                     column_included included_columns (column_name col) = true ->
                     column_name col <> k) ->
                  Dict.get k cols = Dict.get k acc).
Proof.
  induction tuples as [|col rest IH]; intros i acc cols Hrun; cbn [infer_columns] in Hrun.
  - injection Hrun as <-. repeat split; auto; intros ? [].
  - destruct (column_included included_columns (column_name col)) eqn:Hinc.
    + destruct (if is_change
                then t <- list_getitem typeinfo i;; Ok (Some t)
                else Ok None) as [ti | e]; cbn [bind] in Hrun; [ | discriminate].
      destruct (IH _ _ _ Hrun) as (Hacc & Hcols & Hother).
      repeat split.
      * intros k Hk. apply Hacc. now apply DictFacts.contains_setitem.
      * intros col' [<- | HIn] Hinc'.
        -- apply Hacc. apply DictFacts.contains_setitem_same.
        -- now apply Hcols.
      * intros k Hk. rewrite Hother.
        -- apply DictFacts.get_setitem_other. apply Hk; [now left | exact Hinc].
        -- intros col' HIn. apply Hk. now right.
    + destruct (IH _ _ _ Hrun) as (Hacc & Hcols & Hother).
      repeat split.
      * exact Hacc.
      * intros col' [<- | HIn] Hinc'; [congruence | now apply Hcols].
      * intros k Hk. apply Hother. intros col' HIn. apply Hk. now right.
Qed.

(** Inference does not fail when every column has its type info. *)
Lemma infer_columns_returns (is_change : bool) (typeinfo : list TypeInfo)
    (included_columns : option str_set) :
  forall tuples i acc,
    is_change = false \/ (i + List.length tuples <= List.length typeinfo)%nat ->
    exists cols,
      infer_columns is_change typeinfo included_columns i tuples acc = Ok cols.
Proof.
  induction tuples as [|col rest IH]; intros i acc Hlen; cbn [infer_columns].
  - now exists acc.
  - assert (Hrest : is_change = false
                    \/ (S i + List.length rest <= List.length typeinfo)%nat)
      by (destruct Hlen as [? | Hlen]; [now left | right; simpl in Hlen; lia]).
    destruct (column_included included_columns (column_name col)); [ | now apply IH].
    destruct is_change.
    + destruct Hlen as [? | Hlen]; [discriminate | ].
      unfold list_getitem.
      destruct (nth_error typeinfo i) eqn:E.
      * cbn [bind]. now apply IH.
      * apply nth_error_None in E. simpl in Hlen. lia.
    + cbn [bind]. now apply IH.
Qed.

Lemma setitem_replication_columns (cols : TTableSchemaColumns) :
  Dict.get "lsn" cols = None -> Dict.get "deleted_ts" cols = None ->
  Dict.setitem "deleted_ts" deleted_ts_column (Dict.setitem "lsn" lsn_column cols)
  = (cols ++ [("lsn", lsn_column); ("deleted_ts", deleted_ts_column)])%list.
Proof.
  intros Hl Hd.
  rewrite (@DictFacts.setitem_fresh _ cols "lsn" lsn_column Hl).
  rewrite DictFacts.setitem_fresh.
  - now rewrite <- app_assoc.
  - rewrite <- (@DictFacts.setitem_fresh _ cols "lsn" lsn_column Hl).
    rewrite DictFacts.get_setitem_other by discriminate. exact Hd.
Qed.

(** What [infer_table_schema] returns on a message whose table has a
    second dotted component, and (unless it is a DELETE) type info for
    every column: the name, the two replication columns, and their place
    at the end. *)
Lemma infer_table_schema_returns (msg : RowMessage)
    (included_columns : option str_set) (table_name : string) :
  nth_error (split_dot (table msg)) 1 = Some table_name ->
  op msg = DELETE \/ (List.length (new_tuple msg) <= List.length (new_typeinfo msg))%nat ->
  exists cols,
    infer_table_schema msg included_columns
    = Ok {| name := table_name; columns := cols |}
    /\ Dict.get "lsn" cols = Some lsn_column
    /\ Dict.get "deleted_ts" cols = Some deleted_ts_column
    /\ ((forall col, In col (source_tuple msg) ->
           column_included included_columns (column_name col) = true ->
           column_name col <> "lsn" /\ column_name col <> "deleted_ts") ->
        exists source_cols,
          cols = (source_cols ++ [("lsn", lsn_column);
                                  ("deleted_ts", deleted_ts_column)])%list).
Proof.
  intros Hname Htypeinfo.
  unfold infer_table_schema. cbv zeta.
  destruct (@infer_columns_returns (negb (Op_eqb (op msg) DELETE)) (new_typeinfo msg)
              included_columns (source_tuple msg) 0 Dict.empty) as (cols & Hcols).
  { unfold source_tuple. destruct Htypeinfo as [-> | Hlen]; [now left | ].
    destruct (Op_eqb (op msg) DELETE); [now left | right; simpl; lia]. }
  rewrite Hcols. cbn [bind]. unfold list_getitem. rewrite Hname. cbn [bind].
  eexists. split; [reflexivity | ].
  split; [ | split].
  - rewrite DictFacts.get_setitem_other by discriminate.
    apply DictFacts.get_setitem_same.
  - apply DictFacts.get_setitem_same.
  - intros Hfree. exists cols.
    destruct (infer_columns_ok _ _ _ _ _ _ Hcols) as (_ & _ & Hother).
    apply setitem_replication_columns.
    + rewrite Hother; [reflexivity | ]. intros col HIn Hinc. now apply Hfree.
    + rewrite Hother; [reflexivity | ]. intros col HIn Hinc. now apply Hfree.
Qed.

(** Where the claim as written fails: the name keeps the quotes of the
    table field; a source column named [deleted_ts] keeps its place, so
    the mapping ends with [lsn]; a table field without a dot has no
    second component. *)
Lemma infer_table_schema_counterexample :
  (exists cols,
     infer_table_schema Examples.insert_quoted None
     = Ok {| name := Examples.double_quote ++ "t" ++ Examples.double_quote;
             columns := cols |}
     /\ Examples.double_quote ++ "t" ++ Examples.double_quote <> "t")
  /\ (exists schema,
        infer_table_schema Examples.insert_own_deleted_ts None = Ok schema
        /\ Dict.keys (columns schema) = ["deleted_ts"; "id"; "lsn"])
  /\ infer_table_schema Examples.insert_no_dot None = Raise IndexError.
Proof.
  split; [ | split].
  - eexists. split; [reflexivity | discriminate].
  - eexists. split; reflexivity.
  - reflexivity.
Qed.

Lemma gen_data_item_loop_ok (lib : Library) (for_delete : bool)
    (column_schema : TTableSchemaColumns) (included_columns : option str_set) :
  forall row acc data_item,
    gen_data_item_loop lib for_delete column_schema included_columns row acc
    = Ok data_item ->
    (forall k, Dict.contains k acc = true -> Dict.contains k data_item = true)
    /\ (forall data, In data row ->
                     column_included included_columns (column_name data) = true ->
                     Dict.contains (column_name data) data_item = true)
    /\ (forall k, (forall data, In data row ->
                     column_included included_columns (column_name data) = true ->
                     column_name data <> k) ->
                  Dict.get k data_item = Dict.get k acc).
Proof.
  induction row as [|data rest IH]; intros acc data_item Hrun;
    cbn [gen_data_item_loop] in Hrun.
  - injection Hrun as <-. repeat split; auto; intros ? [].
  - cbv zeta in Hrun.
    destruct (column_included included_columns (column_name data)) eqn:Hinc.
    + destruct (Dict.getitem (column_name data) column_schema) as [col | e];
        cbn [bind] in Hrun; [ | discriminate].
      destruct (Dict.getitem "data_type" col) as [data_type | e];
        cbn [bind] in Hrun; [ | discriminate].
      destruct (_to_dlt_val_datum lib data data_type for_delete) as [v | e];
        cbn [bind] in Hrun; [ | discriminate].
      destruct (IH _ _ Hrun) as (Hacc & Hrow & Hother).
      repeat split.
      * intros k Hk. apply Hacc. now apply DictFacts.contains_setitem.
      * intros data' [<- | HIn] Hinc'.
        -- apply Hacc. apply DictFacts.contains_setitem_same.
        -- now apply Hrow.
      * intros k Hk. rewrite Hother.
        -- apply DictFacts.get_setitem_other. apply Hk; [now left | exact Hinc].
        -- intros data' HIn. apply Hk. now right.
    + destruct (IH _ _ Hrun) as (Hacc & Hrow & Hother).
      repeat split.
      * exact Hacc.
      * intros data' [<- | HIn] Hinc'; [congruence | now apply Hrow].
      * intros k Hk. apply Hother. intros data' HIn. apply Hk. now right.
Qed.

(** In [__init__], a table whose [included_columns] option is missing,
    [None] or empty gets no entry. *)
Lemma init_included_columns_falsy (table : string) :
  forall (table_options : list (string * SqlTableOptions.t)) (acc : Dict.t str_set),
    (forall options, In (table, options) table_options ->
       SqlTableOptions.included_columns options = None
       \/ SqlTableOptions.included_columns options = Some []) ->
    Dict.get table (MessageConsumer.init_included_columns table_options acc)
    = Dict.get table acc.
Proof.
  induction table_options as [|[table' options] rest IH]; intros acc Hfalsy;
    cbn [MessageConsumer.init_included_columns]; [reflexivity | ].
  assert (Hrest : forall options, In (table, options) rest ->
            SqlTableOptions.included_columns options = None
            \/ SqlTableOptions.included_columns options = Some [])
    by (intros o HIn; apply Hfalsy; now right).
  destruct (SqlTableOptions.included_columns options) as [[|c cs]|] eqn:E;
    try (now apply IH).
  rewrite IH by exact Hrest.
  apply DictFacts.get_setitem_other. intros ->.
  destruct (Hfalsy options (or_introl eq_refl)) as [H | H]; congruence.
Qed.

(** C10: with an allow-list that is absent or empty, [infer_table_schema]
    and [gen_data_item] leave no column of the source tuple out: every
    column name is a key of the inferred schema's columns and of the row
    item.  An empty sequence given in [table_options] comes to the same:
    the consumer then has no allow-list for the table. *)
Theorem no_filter_without_included_columns (lib : Library) (msg : RowMessage)
    (column_schema : TTableSchemaColumns) (included_columns : option str_set) :
  included_columns = None \/ included_columns = Some [] ->
  (forall schema,
     infer_table_schema msg included_columns = Ok schema ->
     Forall (fun col => Dict.contains (column_name col) (columns schema) = true)
            (source_tuple msg))
  /\ (forall data_item,
        gen_data_item lib msg column_schema included_columns = Ok data_item ->
        Forall (fun col => Dict.contains (column_name col) data_item = true)
               (source_tuple msg))
  /\ (forall upto_lsn table_qnames target_batch_size table_options table,
        (forall options, In (table, options) table_options ->
           SqlTableOptions.included_columns options = None
           \/ SqlTableOptions.included_columns options = Some []) ->
        Dict.get table
          (MessageConsumer.included_columns
             (MessageConsumer.__init__ upto_lsn table_qnames target_batch_size
                (Some table_options)))
        = None).
Proof.
  intros Hfalsy. split; [ | split].
  - intros schema Hrun. unfold infer_table_schema in Hrun. cbv zeta in Hrun.
    destruct (infer_columns _ _ _ _ _ _) as [cols | e] eqn:Hcols;
      cbn [bind] in Hrun; [ | discriminate].
    destruct (list_getitem _ _) as [table_name | e]; cbn [bind] in Hrun;
      [ | discriminate].
    injection Hrun as <-. cbn [columns].
    destruct (infer_columns_ok _ _ _ _ _ _ Hcols) as (_ & Hin & _).
    apply Forall_forall. intros col HIn.
    do 2 apply DictFacts.contains_setitem.
    apply Hin; [exact HIn | now apply column_included_unfiltered].
  - intros data_item Hrun. unfold gen_data_item in Hrun. cbv zeta in Hrun.
    destruct (gen_data_item_loop_ok _ _ _ _ _ _ Hrun) as (_ & Hin & _).
    apply Forall_forall. intros col HIn.
    apply Hin; [exact HIn | now apply column_included_unfiltered].
  - intros upto_lsn table_qnames target_batch_size table_options table Hopts.
    unfold MessageConsumer.__init__. cbn [MessageConsumer.included_columns].
    now rewrite init_included_columns_falsy.
Qed.

(** With an empty allow-list both columns of the INSERT are in the schema
    and in the row item. *)
Lemma no_filter_without_included_columns_witness :
  (exists schema data_item,
     infer_table_schema Examples.insert_t (Some []) = Ok schema
     /\ gen_data_item unused_library Examples.insert_t (columns schema) (Some [])
        = Ok data_item
     /\ Forall (fun col => Dict.contains (column_name col) (columns schema) = true)
               (source_tuple Examples.insert_t)
     /\ Forall (fun col => Dict.contains (column_name col) data_item = true)
               (source_tuple Examples.insert_t)
     /\ Dict.keys data_item = ["id"; "note"])
  /\ Dict.get "t"
       (MessageConsumer.included_columns
          (MessageConsumer.__init__ 0 ["public.t"] 1000
             (Some [("t", {| SqlTableOptions.included_columns := Some [] |})])))
     = None.
Proof.
  destruct (infer_table_schema Examples.insert_t (Some [])) as [schema | e] eqn:Hschema;
    [ | discriminate Hschema].
  destruct (gen_data_item unused_library Examples.insert_t (columns schema) (Some []))
    as [data_item | e] eqn:Hitem;
    [ | vm_compute in Hschema; injection Hschema as <-; discriminate Hitem].
  destruct (@no_filter_without_included_columns unused_library Examples.insert_t
              (columns schema) (Some []) (or_intror eq_refl))
    as (Hinfer & Hgen & Hinit).
  split.
  - exists schema, data_item.
    split; [reflexivity | ]. split; [exact Hitem | ].
    split; [exact (Hinfer schema Hschema) | ].
    split; [exact (Hgen data_item Hitem) | ].
    vm_compute in Hschema. injection Hschema as <-.
    vm_compute in Hitem. injection Hitem as <-. reflexivity.
  - apply Hinit. intros options [[= <-] | []]. now right.
Defined.

(** ** Which exceptions the pure parts raise *)

Lemma infer_columns_raises (is_change : bool) (typeinfo : list TypeInfo)
    (included_columns : option str_set) :
  forall tuples i acc e,
    infer_columns is_change typeinfo included_columns i tuples acc = Raise e ->
    e = IndexError.
Proof.
  induction tuples as [|col rest IH]; intros i acc e Hrun; cbn [infer_columns] in Hrun;
    [discriminate | ].
  destruct (column_included included_columns (column_name col)); [ | now apply IH in Hrun].
  destruct is_change.
  - unfold list_getitem in Hrun.
    destruct (nth_error typeinfo i); cbn [bind] in Hrun;
      [now apply IH in Hrun | congruence].
  - cbn [bind] in Hrun. now apply IH in Hrun.
Qed.

Lemma infer_table_schema_raises (msg : RowMessage)
    (included_columns : option str_set) (e : exn) :
  infer_table_schema msg included_columns = Raise e -> e = IndexError.
Proof.
  unfold infer_table_schema. cbv zeta. intros Hrun.
  destruct (infer_columns _ _ _ _ _ _) as [cols | e'] eqn:Hcols; cbn [bind] in Hrun.
  - unfold list_getitem in Hrun.
    destruct (nth_error _ _); cbn [bind] in Hrun; congruence.
  - apply infer_columns_raises in Hcols. congruence.
Qed.

Lemma compare_column_raises (new_columns : TTableSchemaColumns)
    (col_name : string) (s1 : TColumnSchema) (e : exn) :
  compare_column new_columns col_name s1 = Raise e -> assertion_or_key_error e.
Proof.
  unfold compare_column, Dict.getitem, assertion_or_key_error. intros Hrun.
  destruct (Dict.get col_name new_columns) as [s2|]; [ | injection Hrun as <-; eauto].
  destruct (Dict.get "data_type" s1) as [t1|]; cbn [bind] in Hrun;
    [ | injection Hrun as <-; eauto].
  destruct (Dict.get "data_type" s2) as [t2|]; cbn [bind] in Hrun;
    [ | injection Hrun as <-; eauto].
  destruct (negb (py_eqb t1 t2)); [injection Hrun as <-; eauto | ].
  destruct (extra_fields s2); [discriminate | injection Hrun as <-; eauto].
Qed.

Lemma compare_schemas_raises (last new : TTableSchema) (e : exn) :
  compare_schemas last new = Raise e -> assertion_or_key_error e.
Proof.
  unfold compare_schemas. cbv zeta.
  destruct (negb (String.eqb (name last) (name new))).
  - intros [= <-]. left. eauto.
  - generalize (@Dict.empty TColumnSchema) as acc.
    unfold Dict.items.
    induction (columns last) as [|[c s1] rest IH]; intros acc Hrun;
      cbn [compare_columns bind] in Hrun; [discriminate | ].
    destruct (compare_column (columns new) c s1) as [m | e'] eqn:Hcol;
      cbn [bind] in Hrun.
    + now apply IH in Hrun.
    + injection Hrun as <-. now apply compare_column_raises in Hcol.
Qed.

Lemma to_dlt_val_datum_raises (lib : Library) (data : DatumMessage)
    (data_type : PyVal) (for_delete : bool) (e : exn) :
  _to_dlt_val_datum lib data data_type for_delete = Raise e -> e <> StopReplication.
Proof.
  unfold _to_dlt_val_datum, _to_dlt_val, getitem_val, Dict.getitem, from_library.
  intros Hrun Hstop. subst e.
  destruct (datum data); cbn in Hrun;
    repeat match type of Hrun with
           | context [if ?b then _ else _] => destruct b
           | context [match ?x with _ => _ end] => destruct x
           end; discriminate.
Qed.

Lemma gen_data_item_raises (lib : Library) (msg : RowMessage)
    (column_schema : TTableSchemaColumns) (included_columns : option str_set)
    (e : exn) :
  gen_data_item lib msg column_schema included_columns = Raise e ->
  e <> StopReplication.
Proof.
  unfold gen_data_item. cbv zeta.
  generalize (if Op_eqb (op msg) DELETE
              then Dict.setitem "deleted_ts"
                     (_epoch_micros_to_datetime (commit_time msg)) Dict.empty
              else Dict.empty) as acc.
  induction (source_tuple msg) as [|data rest IH]; intros acc Hrun;
    cbn [gen_data_item_loop] in Hrun; [discriminate | ].
  cbv zeta in Hrun.
  destruct (column_included included_columns (column_name data)); [ | now apply IH in Hrun].
  unfold Dict.getitem in Hrun at 1.
  destruct (Dict.get (column_name data) column_schema) as [col|]; cbn [bind] in Hrun;
    [ | congruence].
  unfold Dict.getitem in Hrun at 1.
  destruct (Dict.get "data_type" col) as [data_type|]; cbn [bind] in Hrun;
    [ | congruence].
  destruct (_to_dlt_val_datum lib data data_type (Op_eqb (op msg) DELETE))
    as [v | e'] eqn:Hval; cbn [bind] in Hrun.
  - now apply IH in Hrun.
  - injection Hrun as <-. now apply to_dlt_val_datum_raises in Hval.
Qed.

(** ** The consumer *)

Module ConsumerFacts.
Import MessageConsumer.

Ltac run_M :=
  unfold bindM, read, update, ret, raise, lift in *.

Lemma same_progress_refl (self : t) : same_progress self self.
Proof. repeat split. Qed.

Lemma same_progress_trans (a b c : t) :
  same_progress a b -> same_progress b c -> same_progress a c.
Proof.
  unfold same_progress. intros (?&?&?&?&?&?&?) (?&?&?&?&?&?&?).
  repeat split; congruence.
Qed.

(** [get_table_schema] touches the schema cache only, and it ends in
    [StopReplication] exactly through the [except AssertionError] arm. *)
Lemma get_table_schema_spec (msg : RowMessage) (table_name : string)
    (self self' : t) (r : result TTableSchema) :
  get_table_schema msg table_name self = (self', r) ->
  same_progress self self'
  /\ data_items self' = data_items self
  /\ (r = Raise StopReplication ->
      self' = self
      /\ exists last new reason,
           Dict.get table_name (last_table_schema self) = Some last
           /\ infer_table_schema msg (Dict.get table_name (included_columns self))
              = Ok new
           /\ compare_schemas last new = Raise (AssertionError reason)).
Proof.
  unfold get_table_schema. run_M. intros Hrun.
  destruct (Dict.get table_name (last_table_schema self)) as [last|] eqn:Hlast.
  - destruct (Op_eqb (op msg) DELETE).
    + injection Hrun as <- <-. repeat split; discriminate.
    + destruct (option_Z_eqb _ _).
      * unfold Dict.getitem in Hrun. rewrite Hlast in Hrun.
        injection Hrun as <- <-. repeat split; discriminate.
      * destruct (infer_table_schema msg (Dict.get table_name (included_columns self)))
          as [new | e] eqn:Hinfer.
        -- destruct (compare_schemas last new) as [retained | e] eqn:Hcmp.
           ++ injection Hrun as <- <-. repeat split; discriminate.
           ++ destruct (@compare_schemas_raises _ _ _ Hcmp) as [[reason ->] | [key ->]];
                injection Hrun as <- <-.
              ** split; [apply same_progress_refl | ]. split; [reflexivity | ].
                 intros _. split; [reflexivity | ].
                 exists last, new, reason. auto.
              ** repeat split; discriminate.
        -- injection Hrun as <- <-.
           split; [apply same_progress_refl | split; [reflexivity | ]].
           intros [= ->]. apply infer_table_schema_raises in Hinfer; discriminate.
  - destruct (Op_eqb (op msg) DELETE);
      (destruct (option_Z_eqb _ _);
       [ unfold Dict.getitem in Hrun; rewrite Hlast in Hrun;
         injection Hrun as <- <-; repeat split; discriminate
       | destruct (infer_table_schema msg
                     (Dict.get table_name (included_columns self)))
           as [new | e] eqn:Hinfer;
         [ injection Hrun as <- <-; repeat split; discriminate
         | injection Hrun as <- <-;
           (split; [apply same_progress_refl | split; [reflexivity | ]]);
           intros [= ->]; apply infer_table_schema_raises in Hinfer; discriminate ] ]).
Qed.

(** The three outcomes of [process_change] on a table of the allow-set:
    it raises before the row is built, it raises while the row is built,
    or it appends the row, with its [lsn], to the table's buffer. *)
Lemma process_change_spec (lib : Library) (msg : RowMessage) (lsn : Z)
    (self self' : t) (r : result unit) :
  process_change lib msg lsn self = (self', r) ->
  set_contains (table msg) (table_qnames self) = true ->
  same_progress self self'
  /\ (r = Raise StopReplication -> self' = self /\ schema_rejected self msg)
  /\ (r = Ok tt ->
      exists table_name table_schema data_item,
        nth_error (split_dot (table msg)) 1 = Some table_name
        /\ gen_data_item lib msg (columns table_schema)
             (Dict.get table_name (included_columns self)) = Ok data_item
        /\ data_items self'
           = append_item table_name (Dict.setitem "lsn" (VInt lsn) data_item)
               (data_items self)).
Proof.
  unfold process_change. run_M. intros Hrun Hallowed. rewrite Hallowed in Hrun.
  cbn [negb] in Hrun. unfold list_getitem in Hrun.
  destruct (nth_error (split_dot (table msg)) 1) as [table_name|] eqn:Hname.
  2: { injection Hrun as <- <-. repeat split; discriminate. }
  destruct (get_table_schema msg table_name self) as [self1 [table_schema | e]] eqn:Hschema;
    destruct (@get_table_schema_spec _ _ _ _ _ Hschema) as (Hsame & Hitems & Hstop).
  - assert (Hinc : included_columns self1 = included_columns self) by apply Hsame.
    rewrite Hinc in Hrun.
    destruct (gen_data_item lib msg (columns table_schema)
                (Dict.get table_name (included_columns self)))
      as [data_item | e] eqn:Hitem.
    + injection Hrun as <- <-. split; [ | split].
      * destruct Hsame as (?&?&?&?&?&?&?). repeat split; assumption.
      * discriminate.
      * intros _. exists table_name, table_schema, data_item.
        repeat split; auto. cbn. now rewrite Hitems.
    + injection Hrun as <- <-. split; [exact Hsame | split]; [ | discriminate].
      intros [= ->]. now apply gen_data_item_raises in Hitem.
  - injection Hrun as <- <-. split; [exact Hsame | split]; [ | discriminate].
    intros [= ->]. destruct (Hstop eq_refl) as (-> & last & new & reason & ? & ? & ?).
    split; [reflexivity | ].
    exists table_name, last, new, reason. auto.
Qed.

Lemma process_commit_spec (lsn : Z) (self self' : t) (r : result unit) :
  process_commit lsn self = (self', r) ->
  upto_lsn self' = upto_lsn self
  /\ table_qnames self' = table_qnames self
  /\ target_batch_size self' = target_batch_size self
  /\ data_items self' = data_items self
  /\ last_table_schema self' = last_table_schema self
  /\ included_columns self' = included_columns self
  /\ last_commit_lsn self' = Some lsn
  /\ consumed_all self' = (consumed_all self || (lsn >=? upto_lsn self))
  /\ r = (if consumed_all self' || (n_items self' >=? target_batch_size self')
          then Raise StopReplication else Ok tt).
Proof.
  unfold process_commit. run_M. cbn. unfold n_items, sum_Z, Dict.values. cbn.
  destruct (lsn >=? upto_lsn self) eqn:Hupto; cbn;
    destruct (consumed_all self) eqn:Hdone; cbn;
    try match goal with
        | |- context [if ?b then (fun _ => _) else _] => destruct b eqn:Hn
        end;
    intros Hrun; inversion Hrun; subst; cbn;
    rewrite ?Hdone, ?Hn; cbn; repeat split.
Qed.

End ConsumerFacts.

(** C9: an INSERT, UPDATE or DELETE whose table is not in [table_qnames]
    leaves the consumer as it was, every attribute of it: nothing is
    buffered, no schema and no fingerprint is cached, and the commit
    position and the flags stay. *)
Theorem process_change_skips_other_tables (lib : Library) (row_msg : RowMessage)
    (lsn : Z) (self : MessageConsumer.t) :
  is_change (op row_msg) ->
  set_contains (table row_msg) (MessageConsumer.table_qnames self) = false ->
  MessageConsumer.process_change lib row_msg lsn self = (self, Ok tt)
  /\ MessageConsumer.process_msg lib {| payload := Some row_msg; data_start := lsn |} self
     = (self, Ok tt).
Proof.
  intros Hop Hout.
  assert (Hchange : MessageConsumer.process_change lib row_msg lsn self = (self, Ok tt)).
  { unfold MessageConsumer.process_change. ConsumerFacts.run_M. now rewrite Hout. }
  split; [exact Hchange | ].
  unfold MessageConsumer.process_msg. cbn [payload data_start].
  destruct Hop as [-> | [-> | ->]]; exact Hchange.
Qed.

Lemma process_change_skips_other_tables_witness :
  is_change (op Examples.insert_other)
  /\ set_contains (table Examples.insert_other)
       (MessageConsumer.table_qnames Examples.consumer) = false
  /\ MessageConsumer.process_msg unused_library
       (Examples.on_wire Examples.insert_other 256) Examples.consumer
     = (Examples.consumer, Ok tt).
Proof.
  assert (Hop : is_change (op Examples.insert_other)) by (now left).
  assert (Hout : set_contains (table Examples.insert_other)
                   (MessageConsumer.table_qnames Examples.consumer) = false)
    by reflexivity.
  split; [exact Hop | ]. split; [exact Hout | ].
  exact (proj2 (@process_change_skips_other_tables unused_library
                  Examples.insert_other 256 Examples.consumer Hop Hout)).
Defined.

(** ** Row items *)

Lemma gen_data_item_deleted_ts (lib : Library) (msg : RowMessage)
    (column_schema : TTableSchemaColumns) (included_columns : option str_set)
    (data_item : TDataItem) :
  gen_data_item lib msg column_schema included_columns = Ok data_item ->
  op msg = DELETE ->
  (forall data, In data (old_tuple msg) ->
     column_included included_columns (column_name data) = true ->
     column_name data <> "deleted_ts") ->
  Dict.get "deleted_ts" data_item
  = Some (_epoch_micros_to_datetime (commit_time msg)).
Proof.
  unfold gen_data_item, source_tuple. cbv zeta. intros Hrun Hop Hfree.
  rewrite Hop in Hrun. cbn [Op_eqb negb] in Hrun.
  destruct (gen_data_item_loop_ok _ _ _ _ _ _ Hrun) as (_ & _ & Hother).
  now rewrite (Hother "deleted_ts" Hfree).
Qed.

(** C3, as the code has it: a change message of an allowed table that is
    processed without an exception appends one item to the table's buffer,
    and the item's [lsn] is the message's [data_start].  For a DELETE the
    item's [deleted_ts] is the datetime of the DELETE message's own
    [commit_time], provided no included column of [old_tuple] is itself
    named [deleted_ts]. *)
Theorem change_item_lsn_and_deleted_ts (lib : Library) (msg : ReplicationMessage)
    (row_msg : RowMessage) (self self' : MessageConsumer.t) :
  payload msg = Some row_msg ->
  is_change (op row_msg) ->
  set_contains (table row_msg) (MessageConsumer.table_qnames self) = true ->
  MessageConsumer.process_msg lib msg self = (self', Ok tt) ->
  exists table_name data_item,
    nth_error (split_dot (table row_msg)) 1 = Some table_name
    /\ Dict.get table_name (MessageConsumer.data_items self')
       = Some (buffered table_name self ++ [data_item])%list
    /\ Dict.get "lsn" data_item = Some (VInt (data_start msg))
    /\ (op row_msg = DELETE ->
        (forall data, In data (old_tuple row_msg) ->
           column_included
             (Dict.get table_name (MessageConsumer.included_columns self))
             (column_name data) = true ->
           column_name data <> "deleted_ts") ->
        Dict.get "deleted_ts" data_item
        = Some (_epoch_micros_to_datetime (commit_time row_msg))).
Proof.
  intros Hpayload Hop Hallowed Hrun.
  assert (Hchange : MessageConsumer.process_change lib row_msg (data_start msg) self
                    = (self', Ok tt)).
  { unfold MessageConsumer.process_msg in Hrun. rewrite Hpayload in Hrun.
    destruct Hop as [Hop | [Hop | Hop]]; rewrite Hop in Hrun; exact Hrun. }
  destruct (@ConsumerFacts.process_change_spec _ _ _ _ _ _ Hchange Hallowed)
    as (_ & _ & Hok).
  destruct (Hok eq_refl) as (table_name & table_schema & data_item & Hname & Hitem & Hitems).
  exists table_name, (Dict.setitem "lsn" (VInt (data_start msg)) data_item).
  split; [exact Hname | ]. split; [ | split].
  - rewrite Hitems. unfold MessageConsumer.append_item, buffered.
    apply DictFacts.get_setitem_same.
  - apply DictFacts.get_setitem_same.
  - intros Hdelete Hfree.
    rewrite DictFacts.get_setitem_other by discriminate.
    exact (gen_data_item_deleted_ts _ _ _ _ Hitem Hdelete Hfree).
Qed.

Lemma change_item_lsn_and_deleted_ts_witness :
  exists self' data_item,
    MessageConsumer.process_msg unused_library
      (Examples.on_wire Examples.delete_t 272) Examples.consumer = (self', Ok tt)
    /\ Dict.get "t" (MessageConsumer.data_items self') = Some [data_item]
    /\ Dict.get "lsn" data_item = Some (VInt 272)
    /\ Dict.get "deleted_ts" data_item = Some (VDateTime 1700000000000002).
Proof.
  destruct (MessageConsumer.process_msg unused_library
              (Examples.on_wire Examples.delete_t 272) Examples.consumer)
    as [self' r] eqn:Hrun.
  assert (Hr : r = Ok tt) by (vm_compute in Hrun; now injection Hrun as _ <-).
  subst r.
  destruct (@change_item_lsn_and_deleted_ts unused_library
              (Examples.on_wire Examples.delete_t 272) Examples.delete_t
              Examples.consumer self' eq_refl
              (or_intror (or_intror eq_refl)) eq_refl Hrun)
    as (table_name & data_item & Hname & Hitems & Hlsn & Hdeleted).
  injection Hname as <-.
  exists self', data_item.
  split; [reflexivity | ]. split; [exact Hitems | ]. split; [exact Hlsn | ].
  apply Hdeleted; [reflexivity | ].
  intros data [<- | []] _. discriminate.
Defined.

(** Where the claim as written fails.  The BEGIN message records one
    commit time and the DELETE message carries another: the item has the
    DELETE's.  And a key column named [deleted_ts] takes the item's
    [deleted_ts] for itself. *)
Lemma deleted_ts_counterexample :
  (exists consumer data_item,
     consume_stream unused_library Examples.consumer
       [ Examples.on_wire (Examples.begin_msg 1700000000000000) 256;
         Examples.on_wire Examples.delete_t 272 ] 0
     = (consumer, None, 2%nat)
     /\ MessageConsumer.data_items consumer = [ ("t", [ data_item ]) ]
     /\ MessageConsumer.last_commit_ts consumer = Some (VDateTime 1700000000000000)
     /\ Dict.get "deleted_ts" data_item = Some (VDateTime 1700000000000002)
     /\ Dict.get "deleted_ts" data_item <> MessageConsumer.last_commit_ts consumer)
  /\ (exists consumer data_item,
        consume_stream unused_library Examples.consumer
          [ Examples.on_wire (Examples.begin_msg 1700000000000002) 256;
            Examples.on_wire Examples.delete_own_deleted_ts 272 ] 0
        = (consumer, None, 2%nat)
        /\ MessageConsumer.data_items consumer = [ ("t", [ data_item ]) ]
        /\ MessageConsumer.last_commit_ts consumer = Some (VDateTime 1700000000000002)
        /\ Dict.get "deleted_ts" data_item = Some (VStr "2000-01-01T00:00:00")
        /\ Dict.get "deleted_ts" data_item <> MessageConsumer.last_commit_ts consumer).
Proof.
  split; do 2 eexists;
    (split; [vm_compute; reflexivity | ]);
    (split; [reflexivity | ]); (split; [reflexivity | ]);
    (split; [reflexivity | discriminate]).
Qed.

(** ** Where a batch stops *)

Module StreamFacts.
Import MessageConsumer.

(** One message: the limits and the allow-set stay; a call that returns
    leaves [consumed_all] unset; and a call that raises [StopReplication]
    is a COMMIT at a batch boundary or a change whose schema the cached
    one rejects. *)
Lemma process_msg_spec (lib : Library) (msg : ReplicationMessage)
    (self self' : t) (r : result unit) :
  process_msg lib msg self = (self', r) ->
  upto_lsn self' = upto_lsn self
  /\ table_qnames self' = table_qnames self
  /\ target_batch_size self' = target_batch_size self
  /\ (r = Ok tt -> consumed_all self = false -> consumed_all self' = false)
  /\ (r = Raise StopReplication -> consumed_all self = false ->
      exists row_msg,
        payload msg = Some row_msg
        /\ ((op row_msg = COMMIT
             /\ last_commit_lsn self' = Some (data_start msg)
             /\ (n_items self' >= target_batch_size self'
                 \/ data_start msg >= upto_lsn self'))
            \/ (is_change (op row_msg)
                /\ set_contains (table row_msg) (table_qnames self') = true
                /\ schema_rejected self' row_msg))).
Proof.
  unfold process_msg. intros Hrun.
  destruct (payload msg) as [row_msg|] eqn:Hpayload.
  2: { unfold raise in Hrun. injection Hrun as <- <-. repeat split; discriminate. }
  assert (Hchange :
    is_change (op row_msg) ->
    process_change lib row_msg (data_start msg) self = (self', r) ->
    upto_lsn self' = upto_lsn self
    /\ table_qnames self' = table_qnames self
    /\ target_batch_size self' = target_batch_size self
    /\ (r = Ok tt -> consumed_all self = false -> consumed_all self' = false)
    /\ (r = Raise StopReplication -> consumed_all self = false ->
        exists row_msg0,
          Some row_msg = Some row_msg0
          /\ ((op row_msg0 = COMMIT
               /\ last_commit_lsn self' = Some (data_start msg)
               /\ (n_items self' >= target_batch_size self'
                   \/ data_start msg >= upto_lsn self'))
              \/ (is_change (op row_msg0)
                  /\ set_contains (table row_msg0) (table_qnames self') = true
                  /\ schema_rejected self' row_msg0)))).
  { intros Hop Hc.
    destruct (set_contains (table row_msg) (table_qnames self)) eqn:Hallowed.
    - destruct (@ConsumerFacts.process_change_spec _ _ _ _ _ _ Hc Hallowed)
        as ((Hu & Hq & Ht & _ & Hdone & _) & Hstop & _).
      split; [exact Hu | ]. split; [exact Hq | ]. split; [exact Ht | ].
      split; [intros _ H; now rewrite Hdone | ].
      intros Hr _. destruct (Hstop Hr) as (-> & Hrej).
      exists row_msg. split; [reflexivity | ]. right. auto.
    - unfold process_change in Hc. ConsumerFacts.run_M. rewrite Hallowed in Hc.
      injection Hc as <- <-. repeat split; auto; discriminate. }
  destruct (op row_msg) eqn:Hop.
  - unfold raise in Hrun. injection Hrun as <- <-. repeat split; discriminate.
  - apply Hchange; [now left | exact Hrun].
  - apply Hchange; [right; now left | exact Hrun].
  - apply Hchange; [right; now right | exact Hrun].
  - unfold update in Hrun. injection Hrun as <- <-. repeat split; auto; discriminate.
  - destruct (ConsumerFacts.process_commit_spec _ _ Hrun)
      as (Hu & Hq & Ht & _ & _ & _ & Hlsn & Hdone & Hr).
    split; [exact Hu | ]. split; [exact Hq | ]. split; [exact Ht | ].
    split.
    + intros -> _. destruct (consumed_all self'); [discriminate | reflexivity].
    + intros -> Hfresh. exists row_msg. split; [reflexivity | ]. left.
      split; [exact Hop | ]. split; [exact Hlsn | ].
      rewrite Hdone, Hfresh in Hr. cbn [orb] in Hr.
      rewrite Hu.
      destruct (Z.geb_spec (data_start msg) (upto_lsn self)); [right; lia | ].
      destruct (Z.geb_spec (n_items self') (target_batch_size self'));
        [left; lia | discriminate].
Qed.

(** A run that ends in [StopReplication], from a consumer that has not
    consumed all: the message that raised it is the one at the count of
    messages consumed before. *)
Lemma consume_stream_stop (lib : Library) :
  forall (stream : list ReplicationMessage) (consumer consumer' : t) (i k : nat),
    consumed_all consumer = false ->
    consume_stream lib consumer stream i = (consumer', Some StopReplication, k) ->
    exists msg row_msg,
      nth_error stream (k - i) = Some msg
      /\ (i <= k)%nat
      /\ payload msg = Some row_msg
      /\ upto_lsn consumer' = upto_lsn consumer
      /\ table_qnames consumer' = table_qnames consumer
      /\ target_batch_size consumer' = target_batch_size consumer
      /\ ((op row_msg = COMMIT
           /\ last_commit_lsn consumer' = Some (data_start msg)
           /\ (n_items consumer' >= target_batch_size consumer'
               \/ data_start msg >= upto_lsn consumer'))
          \/ (is_change (op row_msg)
              /\ set_contains (table row_msg) (table_qnames consumer') = true
              /\ schema_rejected consumer' row_msg)).
Proof.
  induction stream as [|msg rest IH]; intros consumer consumer' i k Hfresh Hrun;
    cbn [consume_stream] in Hrun; [discriminate | ].
  unfold __call__ in Hrun.
  destruct (process_msg lib msg consumer) as [consumer1 [[] | e]] eqn:Hmsg;
    destruct (process_msg_spec _ _ _ Hmsg) as (Hu & Hq & Ht & Hok & Hstop).
  - destruct (IH _ _ _ _ (Hok eq_refl Hfresh) Hrun)
      as (msg' & row_msg & Hnth & Hle & Hpayload & Hu' & Hq' & Ht' & Hcases).
    exists msg', row_msg.
    replace (k - i)%nat with (S (k - S i)) by lia.
    repeat split; try assumption; try lia; congruence.
  - injection Hrun as <- -> <-.
    destruct (Hstop eq_refl Hfresh) as (row_msg & Hpayload & Hcases).
    exists msg, row_msg. rewrite Nat.sub_diag.
    repeat split; try assumption; try lia.
Qed.

Lemma process_msg_keeps_commit_lsn (lib : Library) (msg : ReplicationMessage)
    (self self' : t) (r : result unit) :
  process_msg lib msg self = (self', r) ->
  (forall row_msg, payload msg = Some row_msg -> op row_msg <> COMMIT) ->
  last_commit_lsn self' = last_commit_lsn self.
Proof.
  unfold process_msg. intros Hrun Hno.
  destruct (payload msg) as [row_msg|];
    [ | unfold raise in Hrun; now injection Hrun as <- _].
  specialize (Hno row_msg eq_refl).
  assert (Hchange : process_change lib row_msg (data_start msg) self = (self', r) ->
                    last_commit_lsn self' = last_commit_lsn self).
  { intros Hc.
    destruct (set_contains (table row_msg) (table_qnames self)) eqn:Hallowed.
    - now destruct (@ConsumerFacts.process_change_spec _ _ _ _ _ _ Hc Hallowed)
        as ((_ & _ & _ & _ & _ & _ & Hlsn) & _).
    - unfold process_change in Hc. ConsumerFacts.run_M. rewrite Hallowed in Hc.
      now injection Hc as <- _. }
  destruct (op row_msg); try (now apply Hchange); try contradiction.
  - unfold raise in Hrun. now injection Hrun as <- _.
  - unfold update in Hrun. now injection Hrun as <- _.
Qed.

(** Without a COMMIT in the stream, [last_commit_lsn] is left as it was. *)
Lemma consume_stream_keeps_commit_lsn (lib : Library) :
  forall (stream : list ReplicationMessage) (consumer consumer' : t)
         (raised : option exn) (i k : nat),
    consume_stream lib consumer stream i = (consumer', raised, k) ->
    (forall msg row_msg, In msg stream -> payload msg = Some row_msg ->
                         op row_msg <> COMMIT) ->
    last_commit_lsn consumer' = last_commit_lsn consumer.
Proof.
  induction stream as [|msg rest IH]; intros consumer consumer' raised i k Hrun Hno;
    cbn [consume_stream] in Hrun.
  - now injection Hrun as <- _ _.
  - unfold __call__ in Hrun.
    destruct (process_msg lib msg consumer) as [consumer1 [[] | e]] eqn:Hmsg;
      pose proof (@process_msg_keeps_commit_lsn _ _ _ _ _ Hmsg
                    (fun row_msg => Hno msg row_msg (or_introl eq_refl))) as Hkeep.
    + rewrite <- Hkeep. apply (IH _ _ _ _ _ Hrun).
      intros msg' row_msg HIn. apply Hno. now right.
    + injection Hrun as <- _ _. exact Hkeep.
Qed.

End StreamFacts.

(** C1, as the code has it: when a run of a new consumer over a stream
    ends in [StopReplication], the message that raised it is either a
    COMMIT -- and then [last_commit_lsn] is its [data_start] and the
    buffered rows number at least [target_batch_size] or that position is
    at least [upto_lsn] -- or an INSERT, UPDATE or DELETE of an allowed
    table whose inferred schema [compare_schemas] rejects against the
    cached one. *)
Theorem stop_replication_points (lib : Library) (upto_lsn : Z)
    (table_qnames : str_set) (target_batch_size : Z)
    (table_options : option (Dict.t SqlTableOptions.t))
    (stream : list ReplicationMessage) (consumer : MessageConsumer.t) (k : nat) :
  consume_stream lib
    (MessageConsumer.__init__ upto_lsn table_qnames target_batch_size table_options)
    stream 0
  = (consumer, Some StopReplication, k) ->
  exists msg row_msg,
    nth_error stream k = Some msg
    /\ payload msg = Some row_msg
    /\ ((op row_msg = COMMIT
         /\ MessageConsumer.last_commit_lsn consumer = Some (data_start msg)
         /\ (MessageConsumer.n_items consumer >= target_batch_size
             \/ data_start msg >= upto_lsn))
        \/ (is_change (op row_msg)
            /\ set_contains (table row_msg) table_qnames = true
            /\ schema_rejected consumer row_msg)).
Proof.
  intros Hrun.
  destruct (@StreamFacts.consume_stream_stop lib stream
              (MessageConsumer.__init__ upto_lsn table_qnames target_batch_size
                 table_options)
              consumer 0%nat k eq_refl Hrun)
    as (msg & row_msg & Hnth & _ & Hpayload & Hu & Hq & Ht & Hcases).
  rewrite Nat.sub_0_r in Hnth. cbn in Hu, Hq, Ht.
  exists msg, row_msg. rewrite Hu, Hq, Ht in Hcases. auto.
Qed.

(** A batch that reaches [upto_lsn]: the COMMIT at that position raises
    [StopReplication], with the one row of the transaction buffered. *)
Lemma stop_replication_points_witness :
  exists consumer msg row_msg,
    consume_stream unused_library Examples.consumer
      [ Examples.on_wire (Examples.begin_msg 1700000000000000) 999968;
        Examples.on_wire Examples.insert_t 999984;
        Examples.on_wire (Examples.commit_msg 1700000000000000) 1000000 ] 0
    = (consumer, Some StopReplication, 2%nat)
    /\ msg = Examples.on_wire (Examples.commit_msg 1700000000000000) 1000000
    /\ payload msg = Some row_msg
    /\ op row_msg = COMMIT
    /\ MessageConsumer.last_commit_lsn consumer = Some 1000000
    /\ MessageConsumer.n_items consumer = 1.
Proof.
  destruct (consume_stream unused_library Examples.consumer
              [ Examples.on_wire (Examples.begin_msg 1700000000000000) 999968;
                Examples.on_wire Examples.insert_t 999984;
                Examples.on_wire (Examples.commit_msg 1700000000000000) 1000000 ] 0)
    as [[consumer raised] k] eqn:Hrun.
  assert (Hend : raised = Some StopReplication /\ k = 2%nat
                 /\ MessageConsumer.n_items consumer = 1).
  { vm_compute in Hrun. injection Hrun as <- <- <-. repeat split. }
  destruct Hend as (-> & -> & Hn).
  destruct (@stop_replication_points unused_library 1000000 ["public.t"] 1000 None
              _ consumer 2%nat Hrun)
    as (msg & row_msg & Hnth & Hpayload & [(Hop & Hlsn & _) | (Hop & _)]).
  - injection Hnth as <-.
    exists consumer, (Examples.on_wire (Examples.commit_msg 1700000000000000) 1000000),
      row_msg.
    repeat split; assumption.
  - injection Hnth as <-. injection Hpayload as <-.
    destruct Hop as [Hop | [Hop | Hop]]; discriminate Hop.
Defined.

(** Where the claim as written fails: the second INSERT finds the cached
    schema of [t] incompatible and raises [StopReplication].  No COMMIT
    has been processed, one row is buffered, and the batch size is 1000. *)
Lemma stop_replication_counterexample :
  exists consumer row_msg,
    consume_stream unused_library Examples.consumer
      [ Examples.on_wire (Examples.begin_msg 1700000000000000) 256;
        Examples.on_wire Examples.insert_t 272;
        Examples.on_wire Examples.insert_t_changed 288 ] 0
    = (consumer, Some StopReplication, 2%nat)
    /\ payload (Examples.on_wire Examples.insert_t_changed 288) = Some row_msg
    /\ op row_msg = INSERT
    /\ MessageConsumer.last_commit_lsn consumer = None
    /\ MessageConsumer.consumed_all consumer = false
    /\ MessageConsumer.n_items consumer = 1
    /\ MessageConsumer.target_batch_size consumer = 1000.
Proof.
  do 2 eexists. split; [vm_compute; reflexivity | ]. repeat split.
Qed.

(** ** A batch without a COMMIT *)

(** Whatever the stream, if it has no COMMIT the [finally] block of
    [__iter__] stops at its first statement: reading
    [consumer.last_commit_lsn] raises [AttributeError].  Nothing is
    acknowledged and nothing is yielded, and the connection is not
    closed. *)
Lemma iter_without_commit (lib : Library) (self : ItemGenerator.t)
    (stream : list ReplicationMessage) :
  (forall msg row_msg, In msg stream -> payload msg = Some row_msg ->
                       op row_msg <> COMMIT) ->
  ItemGenerator.__iter__ lib self stream
  = ([StartReplication (ItemGenerator.slot_name self) (ItemGenerator.start_lsn self)],
     self, Some (AttributeError "last_commit_lsn")).
Proof.
  intros Hno. unfold ItemGenerator.__iter__.
  destruct (consume_stream lib _ stream 0) as [[consumer raised] k] eqn:Hrun.
  pose proof (@StreamFacts.consume_stream_keeps_commit_lsn lib _ _ _ _ _ _ Hrun Hno)
    as Hlsn.
  cbn in Hlsn. now rewrite Hlsn.
Qed.

(** C2 on the code.  On the empty stream with [upto_lsn = 0], and on a
    batch that a schema change ends before its first COMMIT, the
    generator sends no acknowledgement and yields nothing, but it does not
    close the connection either: it is left by an [AttributeError]. *)
Theorem item_generator_without_commit_raises :
  ItemGenerator.__iter__ unused_library Examples.generator []
  = ([StartReplication "slot" 0], Examples.generator,
     Some (AttributeError "last_commit_lsn"))
  /\ ItemGenerator.__iter__ unused_library Examples.generator
       [ Examples.on_wire (Examples.begin_msg 1700000000000000) 256;
         Examples.on_wire Examples.insert_t 272;
         Examples.on_wire Examples.insert_t_changed 288 ]
     = ([StartReplication "slot" 0], Examples.generator,
        Some (AttributeError "last_commit_lsn"))
  /\ ~ In ConnectionClose [StartReplication "slot" 0].
Proof.
  split; [reflexivity | ]. split; [vm_compute; reflexivity | ].
  intros [H | []]. discriminate H.
Qed.

(** With a COMMIT the same generator acknowledges, yields and closes. *)
Example item_generator_with_commit :
  exists schema,
    ItemGenerator.__iter__ unused_library Examples.generator
      [ Examples.on_wire (Examples.begin_msg 1700000000000000) 256;
        Examples.on_wire Examples.insert_t 272;
        Examples.on_wire (Examples.commit_msg 1700000000000000) 288 ]
    = ([ StartReplication "slot" 0;
         SendFeedbackWrite 288;
         Yield {| items_table := "t"; items_schema := Some schema;
                  items := [ [ ("id", VNone); ("note", VNone); ("lsn", VInt 272) ] ] |};
         SendFeedbackFlush 288;
         ConnectionClose ],
       {| ItemGenerator.slot_name := "slot";
          ItemGenerator.table_qnames := ["public.t"];
          ItemGenerator.upto_lsn := 0;
          ItemGenerator.start_lsn := 0;
          ItemGenerator.target_batch_size := 1000;
          ItemGenerator.table_options := None;
          ItemGenerator.last_commit_lsn := Some 288;
          ItemGenerator.generated_all := true |},
       None).
Proof. eexists. vm_compute. reflexivity. Qed.

(** * Further properties of the code *)

(** ** [lsn_int_to_hex] beyond 64 bits *)

Lemma land_shiftr_any (n : Z) :
  Z.land (Z.shiftr n 32) 4294967295 = (n / 2 ^ 32) mod 2 ^ 32.
Proof.
  change 4294967295 with (Z.ones 32).
  now rewrite Z.land_ones, Z.shiftr_div_pow2 by lia.
Qed.

(** The halves of any integer: the text always has the form H/LL, and it
    reads back as the integer modulo [2^64]. *)
Lemma lsn_text_any (n : Z) :
  LsnText.matches_pattern (lsn_int_to_hex n) = true
  /\ LsnText.parse (lsn_int_to_hex n) = Some (n mod 2 ^ 64).
Proof.
  unfold lsn_int_to_hex.
  rewrite land_shiftr_any, land_low.
  set (hi := (n / 2 ^ 32) mod 2 ^ 32). set (lo := n mod 2 ^ 32).
  assert (Hhi : 0 <= hi < 2 ^ 32) by (apply Z.mod_pos_bound; lia).
  assert (Hlo : 0 <= lo < 16 ^ Z.of_nat 8)
    by (change (16 ^ Z.of_nat 8) with (2 ^ 32); apply Z.mod_pos_bound; lia).
  destruct (@HexFacts.format_0wX_spec 8 lo ltac:(lia) Hlo) as (Hlen & Hhex & Hparse).
  pose proof (@HexFacts.format_X_upper_hex hi ltac:(lia)) as Hhhex.
  pose proof (@HexFacts.format_X_nonempty hi ltac:(lia)) as Hhne.
  unfold LsnText.matches_pattern, LsnText.parse.
  change ("/" ++ Hex.format_0wX 8 lo)%string with (String "/" (Hex.format_0wX 8 lo)).
  rewrite (@split_slash_app _ _ Hhhex).
  rewrite Hhhex, Hhex, Hlen, (@HexFacts.parse_format_X hi ltac:(lia)), Hparse.
  split.
  - destruct (String.length (Hex.format_X hi)); [lia | reflexivity].
  - f_equal. subst hi lo.
    change (2 ^ 64) with (2 ^ 32 * 2 ^ 32).
    rewrite Z.rem_mul_r by lia. lia.
Qed.

(** X1: [lsn_int_to_hex] keeps the low 64 bits of any integer, negative
    ones included: the text always matches [^[0-9A-F]+/[0-9A-F]{8}$] and
    reads back as the argument modulo [2^64], so an argument and the
    argument plus [2^64] give the same text. *)
Theorem lsn_int_to_hex_wraps (n : Z) :
  LsnText.matches_pattern (lsn_int_to_hex n) = true
  /\ LsnText.parse (lsn_int_to_hex n) = Some (n mod 2 ^ 64)
  /\ lsn_int_to_hex (n + 2 ^ 64) = lsn_int_to_hex n.
Proof.
  destruct (lsn_text_any n) as (Hm & Hp).
  split; [exact Hm | ]. split; [exact Hp | ].
  unfold lsn_int_to_hex.
  rewrite !land_shiftr_any, !land_low.
  assert (Hlo : (n + 2 ^ 64) mod 2 ^ 32 = n mod 2 ^ 32).
  { change (2 ^ 64) with (2 ^ 32 * 2 ^ 32).
    now rewrite Z.add_mod, Z.mod_mul, Z.add_0_r, Z.mod_mod by lia. }
  assert (Hhi : ((n + 2 ^ 64) / 2 ^ 32) mod 2 ^ 32 = (n / 2 ^ 32) mod 2 ^ 32).
  { change (2 ^ 64) with (2 ^ 32 * 2 ^ 32).
    rewrite Z.div_add by lia.
    now rewrite Z.add_mod, Z.mod_same, Z.add_0_r, Z.mod_mod by lia. }
  now rewrite Hlo, Hhi.
Qed.

(** X2: two different positions of the 64-bit range never share a text
    form. *)
Theorem lsn_int_to_hex_injective (a b : Z) :
  0 <= a < 2 ^ 64 -> 0 <= b < 2 ^ 64 ->
  lsn_int_to_hex a = lsn_int_to_hex b -> a = b.
Proof.
  intros Ha Hb Heq.
  destruct (lsn_text_any a) as (_ & Hpa).
  destruct (lsn_text_any b) as (_ & Hpb).
  rewrite Heq, Hpb in Hpa. injection Hpa as Hmod.
  rewrite !Z.mod_small in Hmod by lia. congruence.
Qed.

Lemma lsn_int_to_hex_injective_witness :
  0 <= 1 < 2 ^ 64
  /\ 0 <= 4294967296 < 2 ^ 64
  /\ lsn_int_to_hex 1 = "0/00000001"
  /\ lsn_int_to_hex 4294967296 = "1/00000000"
  /\ lsn_int_to_hex 1 <> lsn_int_to_hex 4294967296.
Proof.
  assert (Ha : 0 <= 1 < 2 ^ 64) by (split; [lia | reflexivity]).
  assert (Hb : 0 <= 4294967296 < 2 ^ 64) by (split; [lia | reflexivity]).
  split; [exact Ha | ]. split; [exact Hb | ].
  split; [reflexivity | ]. split; [reflexivity | ].
  intros Heq.
  pose proof (@lsn_int_to_hex_injective 1 4294967296 Ha Hb Heq) as Hsame.
  discriminate Hsame.
Defined.

(** ** The type modifier of [numeric] *)

Lemma land_shiftl_16 (p s : Z) :
  0 <= s < 2 ^ 16 -> Z.land (Z.shiftl p 16) s = 0.
Proof.
  intros Hs. apply Z.bits_inj'. intros k Hk.
  rewrite Z.land_spec, Z.bits_0.
  destruct (Z.ltb_spec k 16) as [Hlt | Hge].
  - now rewrite Z.shiftl_spec_low.
  - destruct (Z.eq_dec s 0) as [-> | Hne].
    + now rewrite Z.bits_0, andb_false_r.
    + rewrite (Z.bits_above_log2 s k), andb_false_r; [reflexivity | lia | ].
      assert (Z.log2 s < 16) by (apply Z.log2_lt_pow2; lia). lia.
Qed.

Lemma lor_shiftl_16 (p s : Z) :
  0 <= s < 2 ^ 16 -> Z.lor (Z.shiftl p 16) s = p * 2 ^ 16 + s.
Proof.
  intros Hs.
  rewrite <- Z.lxor_lor, <- Z.add_nocarry_lxor by (now apply land_shiftl_16).
  now rewrite Z.shiftl_mul_pow2 by lia.
Qed.

Lemma numeric_precision_scale (atttypmod : Z) :
  atttypmod <> -1 ->
  _get_precision 1700 atttypmod = Some (((atttypmod - 4) / 2 ^ 16) mod 2 ^ 16)
  /\ _get_scale 1700 atttypmod = Some ((atttypmod - 4) mod 2 ^ 16).
Proof.
  intros H. unfold _get_precision, _get_scale.
  destruct (Z.eqb_spec atttypmod (-1)) as [E | _]; [contradiction | ].
  change 65535 with (Z.ones 16).
  rewrite !Z.land_ones, Z.shiftr_div_pow2 by lia.
  split; reflexivity.
Qed.

(** X3: for the type modifier with which PostgreSQL stores
    [numeric(p, s)], [((p << 16) | s) + 4], the type mapper gives back the
    precision [p] and the scale [s], for every [p] and [s] below
    [2^16]. *)
Theorem numeric_typmod_round_trip (p s : Z) :
  0 <= p < 2 ^ 16 -> 0 <= s < 2 ^ 16 ->
  _get_precision 1700 (Z.lor (Z.shiftl p 16) s + 4) = Some p
  /\ _get_scale 1700 (Z.lor (Z.shiftl p 16) s + 4) = Some s.
Proof.
  intros Hp Hs.
  rewrite lor_shiftl_16 by lia.
  destruct (@numeric_precision_scale (p * 2 ^ 16 + s + 4) ltac:(lia)) as (-> & ->).
  replace (p * 2 ^ 16 + s + 4 - 4) with (s + p * 2 ^ 16) by lia.
  split; f_equal.
  - rewrite Z.div_add, (Z.div_small s) by lia. apply Z.mod_small. lia.
  - rewrite Z.mod_add by lia. apply Z.mod_small. lia.
Qed.

Lemma numeric_typmod_round_trip_witness :
  0 <= 10 < 2 ^ 16 /\ 0 <= 2 < 2 ^ 16
  /\ Z.lor (Z.shiftl 10 16) 2 + 4 = 655366
  /\ _get_precision 1700 655366 = Some 10
  /\ _get_scale 1700 655366 = Some 2.
Proof.
  assert (Hp : 0 <= 10 < 2 ^ 16) by (split; [lia | reflexivity]).
  assert (Hs : 0 <= 2 < 2 ^ 16) by (split; [lia | reflexivity]).
  split; [exact Hp | ]. split; [exact Hs | ]. split; [reflexivity | ].
  exact (numeric_typmod_round_trip Hp Hs).
Defined.

(** X4: whatever the type modifier, the precision and the scale read for
    [numeric] are 16-bit numbers. *)
Theorem numeric_precision_scale_bounds (atttypmod : Z) :
  atttypmod <> -1 ->
  exists p s,
    _get_precision 1700 atttypmod = Some p /\ 0 <= p < 2 ^ 16
    /\ _get_scale 1700 atttypmod = Some s /\ 0 <= s < 2 ^ 16.
Proof.
  intros H. destruct (numeric_precision_scale H) as (Hp & Hs).
  do 2 eexists. split; [exact Hp | ]. split; [ | split; [exact Hs | ]];
    apply Z.mod_pos_bound; lia.
Qed.

(** A negative modifier still gives numbers of the range. *)
Lemma numeric_precision_scale_bounds_witness :
  -7 <> -1
  /\ exists p s,
       _get_precision 1700 (-7) = Some p /\ 0 <= p < 2 ^ 16
       /\ _get_scale 1700 (-7) = Some s /\ 0 <= s < 2 ^ 16.
Proof.
  assert (H : -7 <> -1) by discriminate.
  split; [exact H | exact (numeric_precision_scale_bounds H)].
Defined.

(** ** The fingerprint *)

Lemma le_bytes_range (n : nat) :
  forall w, Forall (fun b => 0 <= b < 256) (Blake2b.le_bytes n w).
Proof.
  induction n as [|n IH]; intros w; cbn [Blake2b.le_bytes]; constructor.
  - apply Z.mod_pos_bound. lia.
  - apply IH.
Qed.

Lemma be_value_range (bytes : list Z) :
  Forall (fun b => 0 <= b < 256) bytes ->
  forall acc, 0 <= acc ->
    0 <= fold_left (fun a b => 256 * a + b) bytes acc
       < (acc + 1) * 256 ^ Z.of_nat (List.length bytes).
Proof.
  induction 1 as [|b bytes Hb _ IH]; intros acc Hacc.
  - simpl. lia.
  - cbn [fold_left List.length].
    specialize (IH (256 * acc + b) ltac:(lia)).
    rewrite Nat2Z.inj_succ, Z.pow_succ_r by lia.
    split; [lia | ].
    eapply Z.lt_le_trans; [apply IH | ].
    assert (0 < 256 ^ Z.of_nat (List.length bytes)) by (apply Z.pow_pos_nonneg; lia).
    nia.
Qed.

Lemma le_bytes_length (n : nat) : forall w, List.length (Blake2b.le_bytes n w) = n.
Proof. induction n; intros w; simpl; auto. Qed.

(** X5: the fingerprint of any type-info sequence is a non-negative
    64-bit number. *)
Theorem hash_typeinfo_range (new_typeinfo : list TypeInfo) :
  0 <= hash_typeinfo new_typeinfo < 2 ^ 64.
Proof.
  unfold hash_typeinfo, Blake2b.digest8_int.
  match goal with
  | |- context [Blake2b.le_bytes 8 ?w] =>
      pose proof (@be_value_range _ (le_bytes_range 8 w) 0 ltac:(lia)) as H;
      rewrite le_bytes_length in H
  end.
  exact H.
Qed.

(** ** More on schema reconciliation *)

Lemma in_setitem {V} (d : Dict.t V) (k : string) (v : V) (k' : string) (v' : V) :
  In (k', v') (Dict.setitem k v d) -> (k', v') = (k, v) \/ In (k', v') d.
Proof.
  induction d as [|[k0 v0] d IH]; simpl.
  - intros [E | []]. left. now symmetry.
  - destruct (String.eqb_spec k k0) as [-> | Hne]; simpl.
    + intros [E | HIn]; [left; now symmetry | right; now right].
    + intros [E | HIn]; [right; now left | ].
      destruct (IH HIn) as [E | HIn']; [now left | right; now right].
Qed.

Lemma keys_setitem_incl {V} (d : Dict.t V) (k : string) (v : V) (k' : string) :
  In k' (Dict.keys (Dict.setitem k v d)) -> k' = k \/ In k' (Dict.keys d).
Proof.
  unfold Dict.keys. intros HIn. apply in_map_iff in HIn as ([k0 v0] & <- & HIn).
  apply in_setitem in HIn as [[= -> ->] | HIn]; [now left | right].
  change k0 with (fst (k0, v0)). now apply in_map.
Qed.

Lemma keys_retain_field_incl (k : string) (s1 s2 col : TColumnSchema) (k' : string) :
  In k' (Dict.keys (retain_field k s1 s2 col)) -> k' = k \/ In k' (Dict.keys col).
Proof.
  unfold retain_field.
  destruct (Dict.contains k s1 || Dict.contains k s2); [ | now right].
  apply keys_setitem_incl.
Qed.

(** What a column that [compare_column] accepts and returns looks like. *)
Lemma compare_column_inv (new_columns : TTableSchemaColumns)
    (col_name : string) (s1 m : TColumnSchema) :
  compare_column new_columns col_name s1 = Ok m ->
  column_compatible new_columns col_name s1
  /\ (forall k, In k (Dict.keys m) -> In k ALLOWED_COL_SCHEMA_FIELDS)
  /\ exists s2, Dict.get col_name new_columns = Some s2
                /\ merged_column col_name s1 s2 m.
Proof.
  intros Hrun.
  assert (Hcompat : column_compatible new_columns col_name s1).
  { unfold compare_column, Dict.getitem in Hrun. unfold column_compatible.
    destruct (Dict.get col_name new_columns) as [s2|] eqn:Hs2; [ | discriminate].
    destruct (Dict.get "data_type" s1) as [t1|] eqn:Ht1; cbn [bind] in Hrun;
      [ | discriminate].
    destruct (Dict.get "data_type" s2) as [t2|] eqn:Ht2; cbn [bind] in Hrun;
      [ | discriminate].
    destruct (py_eqb t1 t2) eqn:Heq; cbn [negb] in Hrun; [ | discriminate].
    destruct (extra_fields s2) eqn:Hextra; [ | discriminate].
    exists s2, t1, t2. repeat split; assumption || reflexivity. }
  split; [exact Hcompat | ].
  destruct (compare_column_ok Hcompat) as (s2 & m' & Hs2 & Hm' & Hmerged).
  rewrite Hrun in Hm'. injection Hm' as <-.
  split; [ | now exists s2].
  destruct Hcompat as (s2' & t1 & t2 & Hs2' & Ht1 & Ht2 & Heq & Hextra).
  unfold compare_column, Dict.getitem in Hrun.
  rewrite Hs2', Ht1, Ht2 in Hrun. cbn [bind] in Hrun.
  rewrite Heq, Hextra in Hrun. cbn [negb] in Hrun. injection Hrun as <-.
  intros k Hk.
  repeat (apply keys_retain_field_incl in Hk as [-> | Hk]; [simpl; tauto | ]).
  simpl in Hk. simpl. intuition.
Qed.

(** The loop, read backwards: every column of [last] was accepted, and
    every entry of the result is in the accumulator or is what
    [compare_column] returned for a column of [last]. *)
Lemma compare_columns_inv (new_columns : TTableSchemaColumns) :
  forall (last_items : list (string * TColumnSchema)) (acc merged : TTableSchemaColumns),
    compare_columns new_columns last_items acc = Ok merged ->
    (forall c s1, In (c, s1) last_items ->
                  exists m, compare_column new_columns c s1 = Ok m)
    /\ (forall c m, In (c, m) merged ->
          In (c, m) acc
          \/ exists s1, In (c, s1) last_items
                        /\ compare_column new_columns c s1 = Ok m)
    /\ (Dict.wf acc -> Dict.wf merged).
Proof.
  induction last_items as [|[c s1] rest IH]; intros acc merged Hrun;
    cbn [compare_columns] in Hrun.
  - injection Hrun as <-. split; [intros ? ? [] | ]. split; [now left | auto].
  - destruct (compare_column new_columns c s1) as [m | e] eqn:Hm;
      cbn [bind] in Hrun; [ | discriminate].
    destruct (IH _ _ Hrun) as (Hall & Hfrom & Hwf).
    split; [ | split].
    + intros c' s1' [[= <- <-] | HIn]; [now exists m | now apply Hall].
    + intros c' m' HIn. destruct (Hfrom c' m' HIn) as [Hacc | (s1' & HIn' & Hm')].
      * apply in_setitem in Hacc as [[= -> ->] | Hacc]; [ | now left].
        right. exists s1. split; [now left | exact Hm].
      * right. exists s1'. split; [now right | exact Hm'].
    + intros Hacc. apply Hwf. now apply DictFacts.wf_setitem.
Qed.

(** X6: [compare_schemas] returns a schema only when the names are equal
    and every column of [last] is in [new] with an equal [data_type] and
    with no field outside name, data_type, nullable, precision and scale:
    the precondition of the merge is also necessary. *)
Theorem compare_schemas_only_compatible (last new merged : TTableSchema) :
  compare_schemas last new = Ok merged ->
  name last = name new
  /\ (forall c s1, In (c, s1) (columns last) ->
        exists s2 t1 t2,
          Dict.get c (columns new) = Some s2
          /\ Dict.get "data_type" s1 = Some t1
          /\ Dict.get "data_type" s2 = Some t2
          /\ py_eqb t1 t2 = true
          /\ (forall k, In k (Dict.keys s2) -> In k ALLOWED_COL_SCHEMA_FIELDS)).
Proof.
  unfold compare_schemas. cbv zeta. intros Hrun.
  destruct (String.eqb_spec (name last) (name new)) as [Hname | _];
    cbn [negb] in Hrun; [ | discriminate].
  split; [exact Hname | ].
  destruct (compare_columns (columns new) (Dict.items (columns last)) Dict.empty)
    as [cols | e] eqn:Hcols; cbn [bind] in Hrun; [ | discriminate].
  destruct (compare_columns_inv _ _ _ Hcols) as (Hall & _).
  intros c s1 HIn. destruct (Hall c s1 HIn) as (m & Hm).
  destruct (compare_column_inv _ _ _ Hm) as ((s2 & t1 & t2 & ? & ? & ? & ? & Hextra) & _).
  exists s2, t1, t2. repeat split; try assumption.
  intros k Hk. unfold extra_fields in Hextra.
  destruct (set_contains k ALLOWED_COL_SCHEMA_FIELDS) eqn:Hallowed.
  - unfold set_contains in Hallowed. apply existsb_exists in Hallowed as (x & Hx & E).
    apply String.eqb_eq in E. now subst x.
  - assert (HIn' : In k (filter (fun k => negb (set_contains k ALLOWED_COL_SCHEMA_FIELDS))
                           (Dict.keys s2)))
      by (apply filter_In; split; [exact Hk | now rewrite Hallowed]).
    rewrite Hextra in HIn'. destruct HIn'.
Qed.

Lemma compare_schemas_only_compatible_witness :
  (exists merged,
     compare_schemas Examples.last_schema Examples.new_schema = Ok merged)
  /\ name Examples.last_schema = name Examples.new_schema
  /\ (forall c s1, In (c, s1) (columns Examples.last_schema) ->
        exists s2 t1 t2,
          Dict.get c (columns Examples.new_schema) = Some s2
          /\ Dict.get "data_type" s1 = Some t1
          /\ Dict.get "data_type" s2 = Some t2
          /\ py_eqb t1 t2 = true
          /\ (forall k, In k (Dict.keys s2) -> In k ALLOWED_COL_SCHEMA_FIELDS)).
Proof.
  destruct (compare_schemas Examples.last_schema Examples.new_schema)
    as [merged | e] eqn:Hrun; [ | discriminate Hrun].
  split; [now exists merged | ].
  exact (compare_schemas_only_compatible _ _ Hrun).
Defined.

(** X7: every column of a schema that [compare_schemas] returns has its
    name and a data type and no field outside name, data_type, nullable,
    precision and scale; a [primary_key] of the cached schema is not
    carried over. *)
Theorem compare_schemas_result_fields (last new merged : TTableSchema) :
  compare_schemas last new = Ok merged ->
  forall c m, In (c, m) (columns merged) ->
    Dict.get "name" m = Some (VStr c)
    /\ (exists s1, In (c, s1) (columns last)
                   /\ Dict.get "data_type" m = Dict.get "data_type" s1)
    /\ Dict.get "primary_key" m = None
    /\ (forall k, In k (Dict.keys m) -> In k ALLOWED_COL_SCHEMA_FIELDS).
Proof.
  unfold compare_schemas. cbv zeta. intros Hrun c m HIn.
  destruct (negb (String.eqb (name last) (name new))); [discriminate | ].
  destruct (compare_columns (columns new) (Dict.items (columns last)) Dict.empty)
    as [cols | e] eqn:Hcols; cbn [bind] in Hrun; [ | discriminate].
  injection Hrun as <-. cbn [columns] in HIn.
  destruct (compare_columns_inv _ _ _ Hcols) as (_ & Hfrom & _).
  destruct (Hfrom c m HIn) as [[] | (s1 & HIn1 & Hm)].
  destruct (compare_column_inv _ _ _ Hm) as (_ & Hallowed & s2 & _ & Hname & Hdt & _).
  split; [exact Hname | ]. split; [now exists s1 | ]. split; [ | exact Hallowed].
  apply DictFacts.get_none_not_in. intros Hk. apply Hallowed in Hk.
  simpl in Hk. intuition discriminate.
Qed.

Lemma compare_schemas_result_fields_witness :
  exists merged,
    compare_schemas Examples.last_schema Examples.new_schema = Ok merged
    /\ forall c m, In (c, m) (columns merged) ->
         Dict.get "name" m = Some (VStr c)
         /\ (exists s1, In (c, s1) (columns Examples.last_schema)
                        /\ Dict.get "data_type" m = Dict.get "data_type" s1)
         /\ Dict.get "primary_key" m = None
         /\ (forall k, In k (Dict.keys m) -> In k ALLOWED_COL_SCHEMA_FIELDS).
Proof.
  destruct (compare_schemas Examples.last_schema Examples.new_schema)
    as [merged | e] eqn:Hrun; [ | discriminate Hrun].
  exists merged. split; [reflexivity | ].
  exact (compare_schemas_result_fields _ _ Hrun).
Defined.

Lemma retain_field_again (k : string) (s1 s2 m col : TColumnSchema) :
  Dict.get k m = preferred k s1 s2 ->
  retain_field k m s2 col = retain_field k s1 s2 col.
Proof.
  unfold retain_field, preferred, Dict.contains. intros Hm.
  destruct (Dict.get k s1) as [v1|]; [now rewrite Hm | ].
  destruct (Dict.get k s2) as [v2|]; now rewrite Hm.
Qed.

Lemma compare_column_again (new_columns : TTableSchemaColumns)
    (col_name : string) (s1 m : TColumnSchema) :
  compare_column new_columns col_name s1 = Ok m ->
  compare_column new_columns col_name m = Ok m.
Proof.
  intros Hrun.
  destruct (compare_column_inv _ _ _ Hrun)
    as ((s2 & t1 & t2 & Hs2 & Ht1 & Ht2 & Heq & Hextra) & _ & s2' & Hs2'
        & (_ & Hdt & Hn & Hp & Hs)).
  rewrite Hs2 in Hs2'. injection Hs2' as <-.
  unfold compare_column, Dict.getitem in Hrun |- *.
  rewrite Hs2, Ht1, Ht2 in Hrun. cbn [bind] in Hrun.
  rewrite Heq, Hextra in Hrun. cbn [negb] in Hrun. injection Hrun as Hm.
  rewrite Hs2, Hdt, Ht1, Ht2. cbn [bind]. rewrite Heq, Hextra. cbn [negb].
  rewrite (fun col => @retain_field_again _ _ _ _ col Hn),
    (fun col => @retain_field_again _ _ _ _ col Hp),
    (fun col => @retain_field_again _ _ _ _ col Hs).
  rewrite <- Hm. reflexivity.
Qed.

(** Columns that [compare_column] leaves as they are go through the loop
    unchanged. *)
Lemma compare_columns_fixed (new_columns : TTableSchemaColumns) :
  forall (entries : list (string * TColumnSchema)) (acc : TTableSchemaColumns),
    NoDup (map fst entries) ->
    (forall k, In k (map fst entries) -> Dict.get k acc = None) ->
    (forall c m, In (c, m) entries -> compare_column new_columns c m = Ok m) ->
    compare_columns new_columns entries acc = Ok (acc ++ entries)%list.
Proof.
  induction entries as [|[c m] rest IH]; intros acc Hnd Hfresh Hfix;
    cbn [compare_columns].
  - now rewrite app_nil_r.
  - inversion Hnd as [|? ? Hc Hnd']; subst.
    rewrite (Hfix c m (or_introl eq_refl)). cbn [bind].
    rewrite (@DictFacts.setitem_fresh _ acc c m (Hfresh c (or_introl eq_refl))).
    rewrite IH.
    + now rewrite <- app_assoc.
    + exact Hnd'.
    + intros k Hk.
      rewrite <- (@DictFacts.setitem_fresh _ acc c m (Hfresh c (or_introl eq_refl))).
      rewrite DictFacts.get_setitem_other; [apply Hfresh; now right | ].
      intros ->. contradiction.
    + intros c' m' HIn. apply Hfix. now right.
Qed.

(** X8: reconciling is idempotent: the schema that [compare_schemas]
    retains, compared with the same new schema again, is retained as it
    is. *)
Theorem compare_schemas_idempotent (last new merged : TTableSchema) :
  compare_schemas last new = Ok merged ->
  compare_schemas merged new = Ok merged.
Proof.
  unfold compare_schemas. cbv zeta. intros Hrun.
  destruct (String.eqb_spec (name last) (name new)) as [Hname | _];
    cbn [negb] in Hrun; [ | discriminate].
  destruct (compare_columns (columns new) (Dict.items (columns last)) Dict.empty)
    as [cols | e] eqn:Hcols; cbn [bind] in Hrun; [ | discriminate].
  injection Hrun as <-. cbn [name columns].
  rewrite Hname, String.eqb_refl. cbn [negb].
  destruct (compare_columns_inv _ _ _ Hcols) as (_ & Hfrom & Hwf).
  unfold Dict.items.
  rewrite (@compare_columns_fixed (columns new) cols Dict.empty).
  - reflexivity.
  - apply Hwf. constructor.
  - reflexivity.
  - intros c m HIn. destruct (Hfrom c m HIn) as [[] | (s1 & _ & Hm)].
    now apply compare_column_again in Hm.
Qed.

Lemma compare_schemas_idempotent_witness :
  exists merged,
    compare_schemas Examples.last_schema Examples.new_schema = Ok merged
    /\ compare_schemas merged Examples.new_schema = Ok merged
    /\ Dict.keys (columns merged) = ["id"; "amount"].
Proof.
  destruct (compare_schemas Examples.last_schema Examples.new_schema)
    as [merged | e] eqn:Hrun; [ | discriminate Hrun].
  exists merged. split; [reflexivity | ].
  split; [exact (compare_schemas_idempotent _ _ Hrun) | ].
  vm_compute in Hrun. injection Hrun as <-. reflexivity.
Defined.

(** ** More on schema inference and row items *)

Lemma included_names_cons (included_columns : option str_set)
    (col : DatumMessage) (rest : list DatumMessage) :
  included_names included_columns (col :: rest)
  = if column_included included_columns (column_name col)
    then column_name col :: included_names included_columns rest
    else included_names included_columns rest.
Proof. reflexivity. Qed.

Lemma included_names_in (included_columns : option str_set)
    (tuples : list DatumMessage) (k : string) :
  In k (included_names included_columns tuples) <->
  exists col, In col tuples /\ column_name col = k
              /\ column_included included_columns k = true.
Proof.
  unfold included_names. rewrite filter_In, in_map_iff. split.
  - intros ((col & <- & HIn) & Hinc). now exists col.
  - intros (col & HIn & <- & Hinc). split; [now exists col | exact Hinc].
Qed.

(** The keys the comprehension of [infer_table_schema] adds. *)
Lemma infer_columns_keys (is_change : bool) (typeinfo : list TypeInfo)
    (included_columns : option str_set) :
  forall tuples i acc cols,
    infer_columns is_change typeinfo included_columns i tuples acc = Ok cols ->
    (forall k, In k (Dict.keys cols) ->
       In k (Dict.keys acc) \/ In k (included_names included_columns tuples))
    /\ (NoDup (included_names included_columns tuples) ->
        (forall k, In k (included_names included_columns tuples) ->
                   Dict.get k acc = None) ->
        Dict.keys cols = (Dict.keys acc ++ included_names included_columns tuples)%list)
    /\ (is_change = true ->
        forall j col, nth_error tuples j = Some col ->
          column_included included_columns (column_name col) = true ->
          (i + j < List.length typeinfo)%nat).
Proof.
  induction tuples as [|col rest IH]; intros i acc cols Hrun;
    cbn [infer_columns] in Hrun.
  - injection Hrun as <-. split; [now left | ].
    split; [intros _ _; simpl; now rewrite app_nil_r | ].
    intros _ [|j] col' H; discriminate H.
  - rewrite included_names_cons.
    destruct (column_included included_columns (column_name col)) eqn:Hinc.
    + destruct (if is_change
                then t <- list_getitem typeinfo i;; Ok (Some t)
                else Ok None) as [ti | e] eqn:Hti; cbn [bind] in Hrun; [ | discriminate].
      destruct (IH _ _ _ Hrun) as (Hsub & Heq & Hidx).
      split; [ | split].
      * intros k Hk. destruct (Hsub k Hk) as [Hacc | Hrest]; [ | right; now right].
        apply keys_setitem_incl in Hacc as [-> | Hacc]; [right; now left | now left].
      * intros Hnd Hfresh. inversion Hnd as [|? ? Hnotin Hnd']; subst.
        rewrite Heq.
        -- rewrite DictFacts.keys_setitem_fresh by (apply Hfresh; now left).
           now rewrite <- app_assoc.
        -- exact Hnd'.
        -- intros k Hk. rewrite DictFacts.get_setitem_other.
           ++ apply Hfresh. now right.
           ++ intros E. rewrite <- E in Hk. contradiction.
      * intros Hchange [|j] col' Hnth Hinc'.
        -- subst is_change. unfold list_getitem in Hti.
           destruct (nth_error typeinfo i) eqn:E; cbn [bind] in Hti; [ | discriminate].
           assert (i < List.length typeinfo)%nat
             by (apply nth_error_Some; congruence).
           lia.
        -- specialize (Hidx Hchange j col' Hnth Hinc'). lia.
    + destruct (IH _ _ _ Hrun) as (Hsub & Heq & Hidx).
      split; [exact Hsub | ]. split; [exact Heq | ].
      intros Hchange [|j] col' Hnth Hinc'.
      * injection Hnth as <-. congruence.
      * specialize (Hidx Hchange j col' Hnth Hinc'). lia.
Qed.

(** X9: with an allow-list, the inferred schema has no column outside it:
    every key of the columns is the name of an included column of the
    source tuple, or one of the two replication columns. *)
Theorem infer_table_schema_only_included (msg : RowMessage)
    (included_columns : option str_set) (schema : TTableSchema) :
  infer_table_schema msg included_columns = Ok schema ->
  forall k, In k (Dict.keys (columns schema)) ->
    (exists col, In col (source_tuple msg) /\ column_name col = k
                 /\ column_included included_columns k = true)
    \/ k = "lsn" \/ k = "deleted_ts".
Proof.
  unfold infer_table_schema. cbv zeta. intros Hrun k Hk.
  destruct (infer_columns _ _ _ _ _ _) as [cols | e] eqn:Hcols;
    cbn [bind] in Hrun; [ | discriminate].
  destruct (list_getitem _ _) as [table_name | e]; cbn [bind] in Hrun;
    [ | discriminate].
  injection Hrun as <-. cbn [columns] in Hk.
  apply keys_setitem_incl in Hk as [-> | Hk]; [tauto | ].
  apply keys_setitem_incl in Hk as [-> | Hk]; [tauto | ].
  destruct (infer_columns_keys _ _ _ _ _ _ Hcols) as (Hsub & _).
  destruct (Hsub k Hk) as [[] | HIn].
  left. now apply included_names_in.
Qed.

Lemma infer_table_schema_only_included_witness :
  exists schema,
    infer_table_schema Examples.insert_t (Some ["note"]) = Ok schema
    /\ Dict.keys (columns schema) = ["note"; "lsn"; "deleted_ts"]
    /\ forall k, In k (Dict.keys (columns schema)) ->
         (exists col, In col (source_tuple Examples.insert_t) /\ column_name col = k
                      /\ column_included (Some ["note"]) k = true)
         \/ k = "lsn" \/ k = "deleted_ts".
Proof.
  destruct (infer_table_schema Examples.insert_t (Some ["note"]))
    as [schema | e] eqn:Hrun; [ | discriminate Hrun].
  exists schema. split; [reflexivity | ].
  split; [vm_compute in Hrun; injection Hrun as <-; reflexivity | ].
  exact (infer_table_schema_only_included _ _ Hrun).
Defined.

(** X10: the inferred columns follow the source tuple: when the included
    columns have different names, none of them [lsn] or [deleted_ts], the
    keys of the schema are these names in the order of the tuple, and
    then [lsn] and [deleted_ts]. *)
Theorem infer_table_schema_column_order (msg : RowMessage)
    (included_columns : option str_set) (schema : TTableSchema) :
  infer_table_schema msg included_columns = Ok schema ->
  NoDup (included_names included_columns (source_tuple msg)) ->
  ~ In "lsn" (included_names included_columns (source_tuple msg)) ->
  ~ In "deleted_ts" (included_names included_columns (source_tuple msg)) ->
  Dict.keys (columns schema)
  = (included_names included_columns (source_tuple msg)
       ++ ["lsn"; "deleted_ts"])%list.
Proof.
  unfold infer_table_schema. cbv zeta. intros Hrun Hnd Hlsn Hdel.
  destruct (infer_columns _ _ _ _ _ _) as [cols | e] eqn:Hcols;
    cbn [bind] in Hrun; [ | discriminate].
  destruct (list_getitem _ _) as [table_name | e]; cbn [bind] in Hrun;
    [ | discriminate].
  injection Hrun as <-. cbn [columns].
  destruct (infer_columns_keys _ _ _ _ _ _ Hcols) as (_ & Heq & _).
  specialize (Heq Hnd (fun _ _ => eq_refl)). cbn [Dict.keys Dict.empty map app] in Heq.
  assert (Hl : Dict.get "lsn" cols = None)
    by (apply DictFacts.get_none_not_in; now rewrite Heq).
  assert (Hd : Dict.get "deleted_ts" cols = None)
    by (apply DictFacts.get_none_not_in; now rewrite Heq).
  rewrite (setitem_replication_columns _ Hl Hd).
  unfold Dict.keys in *. now rewrite map_app, Heq.
Qed.

Lemma infer_table_schema_column_order_witness :
  exists schema,
    infer_table_schema Examples.insert_t None = Ok schema
    /\ included_names None (source_tuple Examples.insert_t) = ["id"; "note"]
    /\ Dict.keys (columns schema) = ["id"; "note"; "lsn"; "deleted_ts"].
Proof.
  destruct (infer_table_schema Examples.insert_t None)
    as [schema | e] eqn:Hrun; [ | discriminate Hrun].
  exists schema. split; [reflexivity | ]. split; [reflexivity | ].
  apply (infer_table_schema_column_order _ _ Hrun).
  - repeat constructor; simpl; intuition discriminate.
  - simpl. intuition discriminate.
  - simpl. intuition discriminate.
Defined.

(** X11: a message other than a DELETE that lacks the type info of one of
    its included columns makes [infer_table_schema] raise [IndexError]:
    [new_typeinfo] is indexed by the column's position in [new_tuple]. *)
Theorem infer_table_schema_short_typeinfo (msg : RowMessage)
    (included_columns : option str_set) (j : nat) (col : DatumMessage) :
  op msg <> DELETE ->
  nth_error (new_tuple msg) j = Some col ->
  column_included included_columns (column_name col) = true ->
  (List.length (new_typeinfo msg) <= j)%nat ->
  infer_table_schema msg included_columns = Raise IndexError.
Proof.
  intros Hop Hnth Hinc Hshort.
  destruct (infer_table_schema msg included_columns) as [schema | e] eqn:Hrun.
  - exfalso. unfold infer_table_schema in Hrun. cbv zeta in Hrun.
    assert (Hchange : negb (Op_eqb (op msg) DELETE) = true)
      by (destruct (op msg); try reflexivity; contradiction).
    unfold source_tuple in Hrun. rewrite Hchange in Hrun.
    destruct (infer_columns _ _ _ _ _ _) as [cols | e] eqn:Hcols;
      cbn [bind] in Hrun; [ | discriminate].
    destruct (infer_columns_keys _ _ _ _ _ _ Hcols) as (_ & _ & Hidx).
    specialize (Hidx eq_refl j col Hnth Hinc). lia.
  - f_equal. now apply infer_table_schema_raises in Hrun.
Qed.

Lemma infer_table_schema_short_typeinfo_witness :
  op Examples.update_short_typeinfo <> DELETE
  /\ (List.length (new_typeinfo Examples.update_short_typeinfo) <= 1)%nat
  /\ infer_table_schema Examples.update_short_typeinfo None = Raise IndexError.
Proof.
  assert (Hop : op Examples.update_short_typeinfo <> DELETE) by discriminate.
  assert (Hlen : (List.length (new_typeinfo Examples.update_short_typeinfo) <= 1)%nat)
    by (simpl; lia).
  split; [exact Hop | ]. split; [exact Hlen | ].
  exact (@infer_table_schema_short_typeinfo Examples.update_short_typeinfo None 1%nat
           _ Hop eq_refl eq_refl Hlen).
Defined.

(** The loop of [gen_data_item], column by column: which keys it adds,
    what it needs of the schema, and what value a column ends with. *)
Lemma gen_data_item_loop_inv (lib : Library) (for_delete : bool)
    (column_schema : TTableSchemaColumns) (included_columns : option str_set) :
  forall row acc data_item,
    gen_data_item_loop lib for_delete column_schema included_columns row acc
    = Ok data_item ->
    (forall k, In k (Dict.keys data_item) ->
       In k (Dict.keys acc) \/ In k (included_names included_columns row))
    /\ (forall data, In data row ->
          column_included included_columns (column_name data) = true ->
          exists col data_type v,
            Dict.get (column_name data) column_schema = Some col
            /\ Dict.get "data_type" col = Some data_type
            /\ _to_dlt_val_datum lib data data_type for_delete = Ok v
            /\ (NoDup (included_names included_columns row) ->
                Dict.get (column_name data) data_item = Some v)).
Proof.
  induction row as [|data rest IH]; intros acc data_item Hrun;
    cbn [gen_data_item_loop] in Hrun.
  - injection Hrun as <-. split; [now left | intros ? []].
  - cbv zeta in Hrun. rewrite included_names_cons.
    destruct (column_included included_columns (column_name data)) eqn:Hinc.
    + unfold Dict.getitem in Hrun at 1.
      destruct (Dict.get (column_name data) column_schema) as [col|] eqn:Hcol;
        cbn [bind] in Hrun; [ | discriminate].
      unfold Dict.getitem in Hrun at 1.
      destruct (Dict.get "data_type" col) as [data_type|] eqn:Hdt;
        cbn [bind] in Hrun; [ | discriminate].
      destruct (_to_dlt_val_datum lib data data_type for_delete) as [v | e] eqn:Hv;
        cbn [bind] in Hrun; [ | discriminate].
      destruct (IH _ _ Hrun) as (Hsub & Hrow).
      destruct (gen_data_item_loop_ok _ _ _ _ _ _ Hrun) as (_ & _ & Hother).
      split.
      * intros k Hk. destruct (Hsub k Hk) as [Hacc | Hrest]; [ | right; now right].
        apply keys_setitem_incl in Hacc as [-> | Hacc]; [right; now left | now left].
      * intros data' [<- | HIn] Hinc'.
        -- exists col, data_type, v. repeat split; try assumption.
           intros Hnd. inversion Hnd as [|? ? Hnotin _]; subst.
           rewrite Hother.
           ++ apply DictFacts.get_setitem_same.
           ++ intros data' HIn' Hinc'' E. apply Hnotin.
              apply included_names_in. exists data'. rewrite E. auto.
        -- destruct (Hrow data' HIn Hinc') as (col' & dt' & v' & ? & ? & ? & Hget).
           exists col', dt', v'. repeat split; try assumption.
           intros Hnd. apply Hget. now inversion Hnd.
    + destruct (IH _ _ Hrun) as (Hsub & Hrow).
      split; [exact Hsub | ].
      intros data' [<- | HIn] Hinc'; [congruence | now apply Hrow].
Qed.

(** X12: a row item has no key outside the allow-list: every key is the
    name of an included column of the source tuple, or it is
    [deleted_ts] on a DELETE. *)
Theorem gen_data_item_only_included (lib : Library) (msg : RowMessage)
    (column_schema : TTableSchemaColumns) (included_columns : option str_set)
    (data_item : TDataItem) :
  gen_data_item lib msg column_schema included_columns = Ok data_item ->
  forall k, In k (Dict.keys data_item) ->
    (exists data, In data (source_tuple msg) /\ column_name data = k
                  /\ column_included included_columns k = true)
    \/ (op msg = DELETE /\ k = "deleted_ts").
Proof.
  unfold gen_data_item. cbv zeta. intros Hrun k Hk.
  destruct (gen_data_item_loop_inv _ _ _ _ _ _ Hrun) as (Hsub & _).
  destruct (Hsub k Hk) as [Hacc | HIn].
  - right. destruct (op msg); cbn in Hacc; try contradiction.
    destruct Hacc as [<- | []]. auto.
  - left. now apply included_names_in.
Qed.

Lemma gen_data_item_only_included_witness :
  exists schema data_item,
    infer_table_schema Examples.insert_t None = Ok schema
    /\ gen_data_item unused_library Examples.insert_t (columns schema) (Some ["note"])
       = Ok data_item
    /\ Dict.keys data_item = ["note"]
    /\ forall k, In k (Dict.keys data_item) ->
         (exists data, In data (source_tuple Examples.insert_t)
                       /\ column_name data = k
                       /\ column_included (Some ["note"]) k = true)
         \/ (op Examples.insert_t = DELETE /\ k = "deleted_ts").
Proof.
  destruct (infer_table_schema Examples.insert_t None) as [schema | e] eqn:Hschema;
    [ | discriminate Hschema].
  destruct (gen_data_item unused_library Examples.insert_t (columns schema) (Some ["note"]))
    as [data_item | e] eqn:Hitem;
    [ | vm_compute in Hschema; injection Hschema as <-; discriminate Hitem].
  exists schema, data_item. split; [reflexivity | ]. split; [exact Hitem | ].
  split.
  - vm_compute in Hschema. injection Hschema as <-.
    vm_compute in Hitem. injection Hitem as <-. reflexivity.
  - exact (gen_data_item_only_included _ _ _ _ Hitem).
Defined.

(** X13: a row with an included column that the column schema does not
    have yields no item: [gen_data_item] raises. *)
Theorem gen_data_item_unknown_column (lib : Library) (msg : RowMessage)
    (column_schema : TTableSchemaColumns) (included_columns : option str_set)
    (data : DatumMessage) :
  In data (source_tuple msg) ->
  column_included included_columns (column_name data) = true ->
  Dict.get (column_name data) column_schema = None ->
  exists e, gen_data_item lib msg column_schema included_columns = Raise e.
Proof.
  intros HIn Hinc Hmissing.
  destruct (gen_data_item lib msg column_schema included_columns)
    as [data_item | e] eqn:Hrun; [ | now exists e].
  unfold gen_data_item in Hrun. cbv zeta in Hrun.
  destruct (gen_data_item_loop_inv _ _ _ _ _ _ Hrun) as (_ & Hrow).
  destruct (Hrow data HIn Hinc) as (col & _ & _ & Hcol & _). congruence.
Qed.

(** A DELETE of [public.t] against a schema that has only the replication
    columns: the key column [id] is unknown. *)
Lemma gen_data_item_unknown_column_witness :
  In (Examples.null_column "id" 23 (-1) true) (source_tuple Examples.delete_t)
  /\ Dict.get "id" [("lsn", lsn_column); ("deleted_ts", deleted_ts_column)] = None
  /\ gen_data_item unused_library Examples.delete_t
       [("lsn", lsn_column); ("deleted_ts", deleted_ts_column)] None
     = Raise (KeyError (VStr "id")).
Proof.
  assert (HIn : In (Examples.null_column "id" 23 (-1) true)
                   (source_tuple Examples.delete_t)) by (now left).
  split; [exact HIn | ]. split; [reflexivity | ].
  destruct (@gen_data_item_unknown_column unused_library Examples.delete_t
              [("lsn", lsn_column); ("deleted_ts", deleted_ts_column)] None
              _ HIn eq_refl eq_refl) as (e & He).
  rewrite He. vm_compute in He. injection He as <-. reflexivity.
Defined.

Lemma dummy_vals_not_none (v : PyVal) :
  In v (Dict.values _DUMMY_VALS) -> v <> VNone.
Proof.
  simpl. intros H.
  repeat (destruct H as [<- | H]; [discriminate | ]). destruct H.
Qed.

(** X14: in the item of a DELETE, a column that the wire carries as null
    is not null: it holds one of the dummy values of [_DUMMY_VALS], so a
    downstream NOT NULL column is never violated by a key-only DELETE. *)
Theorem delete_item_has_dummy (lib : Library) (msg : RowMessage)
    (column_schema : TTableSchemaColumns) (included_columns : option str_set)
    (data_item : TDataItem) (data : DatumMessage) :
  gen_data_item lib msg column_schema included_columns = Ok data_item ->
  op msg = DELETE ->
  NoDup (included_names included_columns (old_tuple msg)) ->
  In data (old_tuple msg) ->
  column_included included_columns (column_name data) = true ->
  datum data = datum_null ->
  exists dummy,
    Dict.get (column_name data) data_item = Some dummy
    /\ In dummy (Dict.values _DUMMY_VALS)
    /\ dummy <> VNone.
Proof.
  unfold gen_data_item, source_tuple. cbv zeta. intros Hrun Hop Hnd HIn Hinc Hnull.
  rewrite Hop in Hrun. cbn [Op_eqb negb] in Hrun.
  destruct (gen_data_item_loop_inv _ _ _ _ _ _ Hrun) as (_ & Hrow).
  destruct (Hrow data HIn Hinc) as (col & data_type & v & _ & _ & Hv & Hget).
  exists v. split; [now apply Hget | ].
  assert (Hdummy : In v (Dict.values _DUMMY_VALS)).
  { unfold _to_dlt_val_datum in Hv. rewrite Hnull in Hv. cbn in Hv.
    unfold getitem_val, Dict.getitem in Hv.
    destruct data_type; try discriminate.
    destruct (Dict.get s _DUMMY_VALS) as [d|] eqn:Hd; [ | discriminate].
    injection Hv as <-. apply DictFacts.get_in in Hd.
    unfold Dict.values. change d with (snd (s, d)). now apply in_map. }
  split; [exact Hdummy | now apply dummy_vals_not_none].
Qed.

Lemma delete_item_has_dummy_witness :
  exists schema data_item,
    infer_table_schema Examples.delete_t None = Ok schema
    /\ gen_data_item unused_library Examples.delete_t (columns schema) None
       = Ok data_item
    /\ Dict.get "id" data_item = Some (VInt 0)
    /\ exists dummy,
         Dict.get "id" data_item = Some dummy
         /\ In dummy (Dict.values _DUMMY_VALS)
         /\ dummy <> VNone.
Proof.
  destruct (infer_table_schema Examples.delete_t None) as [schema | e] eqn:Hschema;
    [ | discriminate Hschema].
  destruct (gen_data_item unused_library Examples.delete_t (columns schema) None)
    as [data_item | e] eqn:Hitem;
    [ | vm_compute in Hschema; injection Hschema as <-; discriminate Hitem].
  exists schema, data_item. split; [reflexivity | ]. split; [exact Hitem | ].
  split.
  - vm_compute in Hschema. injection Hschema as <-.
    vm_compute in Hitem. injection Hitem as <-. reflexivity.
  - apply (@delete_item_has_dummy unused_library Examples.delete_t (columns schema)
             None data_item (Examples.null_column "id" 23 (-1) true) Hitem eq_refl).
    + repeat constructor. simpl. tauto.
    + now left.
    + reflexivity.
    + reflexivity.
Defined.

(** ** The consumer's caches and buffer *)

Module CacheFacts.
Import MessageConsumer.

Ltac run_M := ConsumerFacts.run_M.

(** [get_table_schema]: cached schemas stay cached, the schema it returns
    is cached for the table, and a cached fingerprint is not replaced. *)
Lemma get_table_schema_caches (msg : RowMessage) (table_name : string)
    (self self' : t) (r : result TTableSchema) :
  get_table_schema msg table_name self = (self', r) ->
  (forall t0, Dict.contains t0 (last_table_schema self) = true ->
              Dict.contains t0 (last_table_schema self') = true)
  /\ (forall s, r = Ok s -> Dict.contains table_name (last_table_schema self') = true)
  /\ (caches_consistent self ->
      caches_consistent self'
      /\ forall t0 h, Dict.get t0 (last_table_hashes self) = Some h ->
                      Dict.get t0 (last_table_hashes self') = Some h).
Proof.
  unfold get_table_schema. run_M. intros Hrun.
  assert (Hsame : self' = self ->
            (forall s, r = Ok s -> Dict.contains table_name (last_table_schema self) = true) ->
            (forall t0, Dict.contains t0 (last_table_schema self) = true ->
                        Dict.contains t0 (last_table_schema self') = true)
            /\ (forall s, r = Ok s ->
                          Dict.contains table_name (last_table_schema self') = true)
            /\ (caches_consistent self ->
                caches_consistent self'
                /\ forall t0 h, Dict.get t0 (last_table_hashes self) = Some h ->
                                Dict.get t0 (last_table_hashes self') = Some h))
    by (intros -> Hok; repeat split; auto).
  destruct (Dict.get table_name (last_table_schema self)) as [last|] eqn:Hlast.
  - assert (Hcached : Dict.contains table_name (last_table_schema self) = true)
      by (unfold Dict.contains; now rewrite Hlast).
    destruct (Op_eqb (op msg) DELETE).
    + injection Hrun as <- <-. now apply Hsame.
    + destruct (option_Z_eqb _ _).
      * injection Hrun as <- <-. now apply Hsame.
      * destruct (infer_table_schema msg (Dict.get table_name (included_columns self)))
          as [new | e] eqn:Hinfer.
        -- destruct (compare_schemas last new) as [retained | e] eqn:Hcmp.
           ++ injection Hrun as <- <-. cbn [last_table_schema last_table_hashes set_last_table_schema set_last_table_hashes].
              split; [intros t0 H0; now apply DictFacts.contains_setitem | ].
              split; [intros _ _; apply DictFacts.contains_setitem_same | ].
              intros Hinv. split; [ | auto].
              intros t0 h H0. cbn [last_table_schema last_table_hashes set_last_table_schema set_last_table_hashes]. apply DictFacts.contains_setitem.
              exact (Hinv t0 h H0).
           ++ destruct e; injection Hrun as <- <-; apply Hsame; auto; discriminate.
        -- injection Hrun as <- <-. apply Hsame; auto; discriminate.
  - assert (Hmiss :
      forall (self0 : t) (r0 : result TTableSchema),
        (if option_Z_eqb (Some (hash_typeinfo (new_typeinfo msg)))
              (Dict.get table_name (last_table_hashes self))
         then (self, Dict.getitem table_name (last_table_schema self))
         else
           match infer_table_schema msg (Dict.get table_name (included_columns self)) with
           | Ok new =>
               (set_last_table_hashes
                  (Dict.setitem table_name (hash_typeinfo (new_typeinfo msg))
                     (last_table_hashes self))
                  (set_last_table_schema
                     (Dict.setitem table_name new (last_table_schema self)) self),
                Ok new)
           | Raise e => (self, Raise e)
           end) = (self0, r0) ->
        (forall t0, Dict.contains t0 (last_table_schema self) = true ->
                    Dict.contains t0 (last_table_schema self0) = true)
        /\ (forall s, r0 = Ok s ->
                      Dict.contains table_name (last_table_schema self0) = true)
        /\ (caches_consistent self ->
            caches_consistent self0
            /\ forall t0 h, Dict.get t0 (last_table_hashes self) = Some h ->
                            Dict.get t0 (last_table_hashes self0) = Some h)).
    { intros self0 r0 H0.
      destruct (option_Z_eqb _ _).
      - unfold Dict.getitem in H0. rewrite Hlast in H0.
        injection H0 as <- <-. repeat split; auto; discriminate.
      - destruct (infer_table_schema msg (Dict.get table_name (included_columns self)))
          as [new | e] eqn:Hinfer.
        + injection H0 as <- <-. cbn [last_table_schema last_table_hashes set_last_table_schema set_last_table_hashes].
          split; [intros t0 Ht0; now apply DictFacts.contains_setitem | ].
          split; [intros _ _; apply DictFacts.contains_setitem_same | ].
          intros Hinv.
          assert (Hother : forall t0 h, Dict.get t0 (last_table_hashes self) = Some h ->
                                        table_name <> t0).
          { intros t0 h Ht0 ->. apply Hinv in Ht0.
            unfold Dict.contains in Ht0. now rewrite Hlast in Ht0. }
          split.
          * intros t0 h Ht0. cbn [last_table_schema last_table_hashes set_last_table_schema set_last_table_hashes] in Ht0 |- *.
            destruct (String.eqb_spec table_name t0) as [<- | Hne].
            -- apply DictFacts.contains_setitem_same.
            -- rewrite DictFacts.get_setitem_other in Ht0 by exact Hne.
               apply DictFacts.contains_setitem. exact (Hinv t0 h Ht0).
          * intros t0 h Ht0. rewrite DictFacts.get_setitem_other; [exact Ht0 | ].
            exact (Hother t0 h Ht0).
        + injection H0 as <- <-. repeat split; auto; discriminate. }
    destruct (Op_eqb (op msg) DELETE); apply Hmiss; cbv zeta in Hrun;
      destruct (option_Z_eqb _ _); try exact Hrun;
      destruct (infer_table_schema msg (Dict.get table_name (included_columns self)));
      exact Hrun.
Qed.

End CacheFacts.

Module BatchFacts.
Import MessageConsumer.

Ltac run_M := ConsumerFacts.run_M.

Lemma fold_left_add_acc (l : list Z) :
  forall a, fold_left Z.add l a = a + fold_left Z.add l 0.
Proof.
  induction l as [|x l IH]; intros a; cbn [fold_left]; [lia | ].
  rewrite (IH (a + x)), (IH (0 + x)). lia.
Qed.

Lemma sum_Z_cons (x : Z) (l : list Z) : sum_Z (x :: l) = x + sum_Z l.
Proof. unfold sum_Z. cbn [fold_left]. rewrite fold_left_add_acc. lia. Qed.

(** The row count of a buffer. *)
Lemma n_items_append_item (table_name : string) (data_item : TDataItem) :
  forall d : Dict.t (list TDataItem),
    sum_Z (map (fun l => Z.of_nat (List.length l))
               (Dict.values (append_item table_name data_item d)))
    = sum_Z (map (fun l => Z.of_nat (List.length l)) (Dict.values d)) + 1.
Proof.
  unfold append_item, Dict.values.
  induction d as [|[k l] d IH]; cbn [Dict.get Dict.setitem map snd].
  - rewrite sum_Z_cons. reflexivity.
  - destruct (String.eqb table_name k) eqn:E; cbn [map snd].
    + rewrite !sum_Z_cons, length_app. cbn [List.length]. lia.
    + rewrite !sum_Z_cons, IH. lia.
Qed.

(** [process_change] on a table of the allow-set, with what it does to
    the caches and to the buffer. *)
Lemma process_change_effects (lib : Library) (msg : RowMessage) (lsn : Z)
    (self self' : t) (r : result unit) :
  process_change lib msg lsn self = (self', r) ->
  set_contains (table msg) (table_qnames self) = true ->
  (forall t0, Dict.contains t0 (last_table_schema self) = true ->
              Dict.contains t0 (last_table_schema self') = true)
  /\ (caches_consistent self ->
      caches_consistent self'
      /\ forall t0 h, Dict.get t0 (last_table_hashes self) = Some h ->
                      Dict.get t0 (last_table_hashes self') = Some h)
  /\ match r with
     | Ok _ =>
         exists table_name data_item,
           nth_error (split_dot (table msg)) 1 = Some table_name
           /\ Dict.contains table_name (last_table_schema self') = true
           /\ data_items self' = append_item table_name data_item (data_items self)
     | Raise _ => data_items self' = data_items self
     end.
Proof.
  unfold process_change. run_M. intros Hrun Hallowed. rewrite Hallowed in Hrun.
  cbn [negb] in Hrun. unfold list_getitem in Hrun.
  destruct (nth_error (split_dot (table msg)) 1) as [table_name|] eqn:Hname.
  2: { injection Hrun as <- <-. repeat split; auto. }
  destruct (get_table_schema msg table_name self) as [self1 [table_schema | e]] eqn:Hschema;
    destruct (@ConsumerFacts.get_table_schema_spec _ _ _ _ _ Hschema) as (_ & Hitems & _);
    destruct (@CacheFacts.get_table_schema_caches _ _ _ _ _ Hschema)
      as (Hgrow & Hcached & Hhash).
  - destruct (gen_data_item lib msg (columns table_schema)
                (Dict.get table_name (included_columns self1)))
      as [data_item | e] eqn:Hitem.
    + injection Hrun as <- <-.
      split; [exact Hgrow | ]. split; [exact Hhash | ].
      exists table_name, (Dict.setitem "lsn" (VInt lsn) data_item).
      split; [reflexivity | ]. split; [exact (Hcached _ eq_refl) | ].
      cbn [data_items set_data_items]. now rewrite Hitems.
    + injection Hrun as <- <-. split; [exact Hgrow | ]. split; [exact Hhash | exact Hitems].
  - injection Hrun as <- <-. split; [exact Hgrow | ]. split; [exact Hhash | exact Hitems].
Qed.

(** One message, whatever it is: cached schemas stay, cached fingerprints
    stay, and the buffer is as it was or one row longer. *)
Lemma process_msg_effects (lib : Library) (msg : ReplicationMessage)
    (self self' : t) (r : result unit) :
  process_msg lib msg self = (self', r) ->
  (forall t0, Dict.contains t0 (last_table_schema self) = true ->
              Dict.contains t0 (last_table_schema self') = true)
  /\ (caches_consistent self ->
      caches_consistent self'
      /\ forall t0 h, Dict.get t0 (last_table_hashes self) = Some h ->
                      Dict.get t0 (last_table_hashes self') = Some h)
  /\ (data_items self' = data_items self
      \/ exists row_msg table_name data_item,
           payload msg = Some row_msg
           /\ is_change (op row_msg)
           /\ set_contains (table row_msg) (table_qnames self) = true
           /\ r = Ok tt
           /\ nth_error (split_dot (table row_msg)) 1 = Some table_name
           /\ Dict.contains table_name (last_table_schema self') = true
           /\ data_items self' = append_item table_name data_item (data_items self)).
Proof.
  unfold process_msg. intros Hrun.
  assert (Hsame : self' = self ->
            (forall t0, Dict.contains t0 (last_table_schema self) = true ->
                        Dict.contains t0 (last_table_schema self') = true)
            /\ (caches_consistent self ->
                caches_consistent self'
                /\ forall t0 h, Dict.get t0 (last_table_hashes self) = Some h ->
                                Dict.get t0 (last_table_hashes self') = Some h)
            /\ (data_items self' = data_items self
                \/ exists row_msg table_name data_item,
                     payload msg = Some row_msg
                     /\ is_change (op row_msg)
                     /\ set_contains (table row_msg) (table_qnames self) = true
                     /\ r = Ok tt
                     /\ nth_error (split_dot (table row_msg)) 1 = Some table_name
                     /\ Dict.contains table_name (last_table_schema self') = true
                     /\ data_items self'
                        = append_item table_name data_item (data_items self)))
    by (intros ->; repeat split; auto).
  destruct (payload msg) as [row_msg|] eqn:Hpayload;
    [ | unfold raise in Hrun; injection Hrun as <- _; now apply Hsame].
  assert (Hchange :
    is_change (op row_msg) ->
    process_change lib row_msg (data_start msg) self = (self', r) ->
    (forall t0, Dict.contains t0 (last_table_schema self) = true ->
                Dict.contains t0 (last_table_schema self') = true)
    /\ (caches_consistent self ->
        caches_consistent self'
        /\ forall t0 h, Dict.get t0 (last_table_hashes self) = Some h ->
                        Dict.get t0 (last_table_hashes self') = Some h)
    /\ (data_items self' = data_items self
        \/ exists row_msg0 table_name data_item,
             Some row_msg = Some row_msg0
             /\ is_change (op row_msg0)
             /\ set_contains (table row_msg0) (table_qnames self) = true
             /\ r = Ok tt
             /\ nth_error (split_dot (table row_msg0)) 1 = Some table_name
             /\ Dict.contains table_name (last_table_schema self') = true
             /\ data_items self'
                = append_item table_name data_item (data_items self))).
  { intros Hop Hc.
    destruct (set_contains (table row_msg) (table_qnames self)) eqn:Hallowed.
    - destruct (@process_change_effects _ _ _ _ _ _ Hc Hallowed) as (Hgrow & Hhash & Hbuf).
      split; [exact Hgrow | ]. split; [exact Hhash | ].
      destruct r as [[] | e]; [ | now left].
      destruct Hbuf as (table_name & data_item & Hname & Hcached & Hitems).
      right. exists row_msg, table_name, data_item. repeat split; assumption.
    - unfold process_change in Hc. run_M. rewrite Hallowed in Hc.
      injection Hc as <- _. repeat split; auto. }
  destruct (op row_msg) eqn:Hop.
  - unfold raise in Hrun. injection Hrun as <- _. now apply Hsame.
  - apply Hchange; [now left | exact Hrun].
  - apply Hchange; [right; now left | exact Hrun].
  - apply Hchange; [right; now right | exact Hrun].
  - unfold update in Hrun. injection Hrun as <- _. repeat split; auto.
  - destruct (ConsumerFacts.process_commit_spec _ _ Hrun)
      as (_ & _ & _ & Hitems & Hschema & _ & _ & _ & _).
    assert (Hhashes : last_table_hashes self' = last_table_hashes self).
    { clear - Hrun. unfold process_commit in Hrun. run_M. cbn in Hrun.
      repeat match type of Hrun with
             | context [if ?b then _ else _] => destruct b
             end;
        inversion Hrun; reflexivity. }
    split; [now rewrite Hschema | ].
    split; [ | now left].
    intros Hinv. unfold caches_consistent. rewrite Hschema, Hhashes. auto.
Qed.

End BatchFacts.

Module RunFacts.
Import MessageConsumer.

Ltac run_M := ConsumerFacts.run_M.

Lemma set_contains_in (x : string) (s : str_set) :
  set_contains x s = true -> In x s.
Proof.
  unfold set_contains. intros H. apply existsb_exists in H as (y & Hy & E).
  apply String.eqb_eq in E. now subst y.
Qed.

Lemma init_buffer_ok (upto : Z) (qnames : str_set) (target : Z)
    (options : option (Dict.t SqlTableOptions.t)) :
  buffer_ok (__init__ upto qnames target options).
Proof. intros t0 l []. Qed.

Lemma process_msg_buffer_ok (lib : Library) (msg : ReplicationMessage)
    (self self' : t) (r : result unit) :
  process_msg lib msg self = (self', r) -> buffer_ok self -> buffer_ok self'.
Proof.
  intros Hrun Hok.
  destruct (StreamFacts.process_msg_spec _ _ _ Hrun) as (_ & Hq & _).
  destruct (BatchFacts.process_msg_effects _ _ _ Hrun) as (Hgrow & _ & Hbuf).
  assert (Hold : forall t0 l, In (t0, l) (data_items self) ->
            l <> []
            /\ Dict.contains t0 (last_table_schema self') = true
            /\ exists q, In q (table_qnames self')
                         /\ nth_error (split_dot q) 1 = Some t0).
  { intros t0 l HIn. destruct (Hok t0 l HIn) as (Hne & Hc & q & HInq & Hsplit).
    split; [exact Hne | ]. split; [now apply Hgrow | ].
    exists q. now rewrite Hq. }
  destruct Hbuf as [Hsame | (row_msg & table_name & data_item & _ & _ & Hallowed & _
                             & Hname & Hcached & Happend)].
  - intros t0 l HIn. rewrite Hsame in HIn. now apply Hold.
  - intros t0 l HIn. rewrite Happend in HIn. unfold append_item in HIn.
    apply in_setitem in HIn as [[= -> ->] | HIn]; [ | now apply Hold].
    split; [ | split; [exact Hcached | ]].
    + intros E. apply (f_equal (@List.length _)) in E.
      rewrite length_app in E. simpl in E. lia.
    + exists (table row_msg). rewrite Hq.
      split; [now apply set_contains_in | exact Hname].
Qed.

Lemma consume_stream_buffer_ok (lib : Library) :
  forall (stream : list ReplicationMessage) (consumer consumer' : t)
         (raised : option exn) (i k : nat),
    consume_stream lib consumer stream i = (consumer', raised, k) ->
    buffer_ok consumer ->
    buffer_ok consumer' /\ table_qnames consumer' = table_qnames consumer.
Proof.
  induction stream as [|msg rest IH]; intros consumer consumer' raised i k Hrun Hok;
    cbn [consume_stream] in Hrun.
  - injection Hrun as <- _ _. auto.
  - unfold __call__ in Hrun.
    destruct (process_msg lib msg consumer) as [consumer1 [[] | e]] eqn:Hmsg;
      pose proof (@process_msg_buffer_ok _ _ _ _ _ Hmsg Hok) as Hok1;
      destruct (StreamFacts.process_msg_spec _ _ _ Hmsg) as (_ & Hq & _).
    + destruct (IH _ _ _ _ _ Hrun Hok1) as (Hok' & Hq'). split; [exact Hok' | congruence].
    + injection Hrun as <- _ _. auto.
Qed.

Lemma consume_stream_caches (lib : Library) :
  forall (stream : list ReplicationMessage) (consumer consumer' : t)
         (raised : option exn) (i k : nat),
    consume_stream lib consumer stream i = (consumer', raised, k) ->
    caches_consistent consumer ->
    caches_consistent consumer'
    /\ forall t0 h, Dict.get t0 (last_table_hashes consumer) = Some h ->
                    Dict.get t0 (last_table_hashes consumer') = Some h.
Proof.
  induction stream as [|msg rest IH]; intros consumer consumer' raised i k Hrun Hinv;
    cbn [consume_stream] in Hrun.
  - injection Hrun as <- _ _. auto.
  - unfold __call__ in Hrun.
    destruct (process_msg lib msg consumer) as [consumer1 [[] | e]] eqn:Hmsg;
      destruct (BatchFacts.process_msg_effects _ _ _ Hmsg) as (_ & Hhash & _);
      destruct (Hhash Hinv) as (Hinv1 & Hkept).
    + destruct (IH _ _ _ _ _ Hrun Hinv1) as (Hinv' & Hkept'). auto.
    + injection Hrun as <- _ _. auto.
Qed.

(** [last_commit_lsn] after a run: as before, or the position of a COMMIT
    of the stream. *)
Lemma consume_stream_commit_lsn (lib : Library) :
  forall (stream : list ReplicationMessage) (consumer consumer' : t)
         (raised : option exn) (i k : nat),
    consume_stream lib consumer stream i = (consumer', raised, k) ->
    last_commit_lsn consumer' = last_commit_lsn consumer
    \/ exists lsn, commit_at stream lsn /\ last_commit_lsn consumer' = Some lsn.
Proof.
  induction stream as [|msg rest IH]; intros consumer consumer' raised i k Hrun;
    cbn [consume_stream] in Hrun.
  - injection Hrun as <- _ _. now left.
  - unfold __call__ in Hrun.
    assert (Hstep : forall consumer1 r, process_msg lib msg consumer = (consumer1, r) ->
              last_commit_lsn consumer1 = last_commit_lsn consumer
              \/ commit_at (msg :: rest) (data_start msg)
                 /\ last_commit_lsn consumer1 = Some (data_start msg)).
    { intros consumer1 r Hmsg.
      destruct (payload msg) as [row_msg|] eqn:Hpayload.
      - destruct (op row_msg) eqn:Hop;
          try (left; apply (@StreamFacts.process_msg_keeps_commit_lsn _ _ _ _ _ Hmsg);
               intros row' Hrow'; rewrite Hpayload in Hrow'; injection Hrow' as <-;
               congruence).
        right. split.
        + exists msg, row_msg. repeat split; auto. now left.
        + unfold process_msg in Hmsg. rewrite Hpayload, Hop in Hmsg.
          now destruct (ConsumerFacts.process_commit_spec _ _ Hmsg)
            as (_ & _ & _ & _ & _ & _ & Hlsn & _).
      - left. apply (@StreamFacts.process_msg_keeps_commit_lsn _ _ _ _ _ Hmsg).
        intros row' Hrow'. rewrite Hpayload in Hrow'. discriminate. }
    assert (Hlift : forall lsn, commit_at rest lsn -> commit_at (msg :: rest) lsn).
    { intros lsn (m & row & HIn & H). exists m, row. split; [now right | exact H]. }
    destruct (process_msg lib msg consumer) as [consumer1 [[] | e]] eqn:Hmsg;
      specialize (Hstep _ _ eq_refl).
    + destruct (IH _ _ _ _ _ Hrun) as [Hsame | (lsn & Hat & Hlsn)].
      * rewrite Hsame. destruct Hstep as [? | (? & ?)]; [now left | right; eauto].
      * right. exists lsn. auto.
    + injection Hrun as <- _ _.
      destruct Hstep as [? | (? & ?)]; [now left | right; eauto].
Qed.

(** A run never goes past a COMMIT at or beyond [upto_lsn]. *)
Lemma consume_stream_upto (lib : Library) :
  forall (stream : list ReplicationMessage) (consumer consumer' : t)
         (raised : option exn) (i k j : nat) (msg : ReplicationMessage)
         (row_msg : RowMessage),
    consume_stream lib consumer stream i = (consumer', raised, k) ->
    nth_error stream j = Some msg ->
    payload msg = Some row_msg ->
    op row_msg = COMMIT ->
    data_start msg >= upto_lsn consumer ->
    (k <= i + j)%nat /\ exists e, raised = Some e.
Proof.
  induction stream as [|m rest IH]; intros consumer consumer' raised i k j msg row_msg
    Hrun Hnth Hpayload Hop Hupto; [destruct j; discriminate Hnth | ].
  cbn [consume_stream] in Hrun. unfold __call__ in Hrun.
  destruct (process_msg lib m consumer) as [consumer1 [[] | e]] eqn:Hmsg.
  - destruct j as [|j].
    + exfalso. injection Hnth as ->.
      unfold process_msg in Hmsg. rewrite Hpayload, Hop in Hmsg.
      destruct (ConsumerFacts.process_commit_spec _ _ Hmsg)
        as (_ & _ & _ & _ & _ & _ & _ & Hdone & Hr).
      rewrite Hdone in Hr.
      destruct (Z.geb_spec (data_start msg) (upto_lsn consumer)); [ | lia].
      rewrite orb_true_r in Hr. discriminate Hr.
    + destruct (StreamFacts.process_msg_spec _ _ _ Hmsg) as (Hu & _).
      destruct (IH _ _ _ _ _ _ _ _ Hrun Hnth Hpayload Hop ltac:(rewrite Hu; exact Hupto))
        as (Hle & He).
      split; [lia | exact He].
  - injection Hrun as _ <- <-. split; [lia | now exists e].
Qed.

(** From a consumer that has not consumed all: [consumed_all] is set only
    by the COMMIT that ends the run, at or beyond [upto_lsn]. *)
Lemma consume_stream_consumed_all (lib : Library) :
  forall (stream : list ReplicationMessage) (consumer consumer' : t)
         (raised : option exn) (i k : nat),
    consume_stream lib consumer stream i = (consumer', raised, k) ->
    consumed_all consumer = false ->
    consumed_all consumer' = true ->
    raised = Some StopReplication
    /\ exists lsn, last_commit_lsn consumer' = Some lsn /\ lsn >= upto_lsn consumer.
Proof.
  induction stream as [|msg rest IH]; intros consumer consumer' raised i k Hrun Hfresh Hdone;
    cbn [consume_stream] in Hrun.
  - injection Hrun as <- _ _. congruence.
  - unfold __call__ in Hrun.
    destruct (process_msg lib msg consumer) as [consumer1 [[] | e]] eqn:Hmsg;
      destruct (StreamFacts.process_msg_spec _ _ _ Hmsg) as (Hu & _ & _ & Hok & _).
    + destruct (IH _ _ _ _ _ Hrun (Hok eq_refl Hfresh) Hdone) as (Hr & lsn & Hlsn & Hge).
      split; [exact Hr | ]. exists lsn. split; [exact Hlsn | lia].
    + injection Hrun as <- <- _.
      unfold process_msg in Hmsg.
      destruct (payload msg) as [row_msg|];
        [ | unfold raise in Hmsg; injection Hmsg as <- _; congruence].
      assert (Hchange : process_change lib row_msg (data_start msg) consumer
                        = (consumer1, Raise e) -> False).
      { intros Hc.
        destruct (set_contains (table row_msg) (table_qnames consumer)) eqn:Hallowed.
        - destruct (@ConsumerFacts.process_change_spec _ _ _ _ _ _ Hc Hallowed)
            as ((_ & _ & _ & _ & Hsame & _) & _). congruence.
        - unfold process_change in Hc. run_M. rewrite Hallowed in Hc. discriminate Hc. }
      destruct (op row_msg); try (now apply Hchange in Hmsg).
      * unfold raise in Hmsg. injection Hmsg as <- _. congruence.
      * unfold update in Hmsg. discriminate Hmsg.
      * destruct (ConsumerFacts.process_commit_spec _ _ Hmsg)
          as (_ & _ & _ & _ & _ & _ & Hlsn & Hall & Hr).
        rewrite Hdone in Hr. cbn [orb] in Hr. split; [congruence | ].
        exists (data_start msg). split; [exact Hlsn | ].
        rewrite Hall, Hfresh in Hdone. cbn [orb] in Hdone.
        destruct (Z.geb_spec (data_start msg) (upto_lsn consumer)); [lia | discriminate].
Qed.

(** The trace of the generator, when the [finally] block gets past its
    first statement. *)
Lemma iter_trace (lib : Library) (self self' : ItemGenerator.t)
    (stream : list ReplicationMessage) (events : list Event) (exn' : option exn) :
  ItemGenerator.__iter__ lib self stream = (events, self', exn') ->
  (events = [StartReplication (ItemGenerator.slot_name self)
               (ItemGenerator.start_lsn self)]
   /\ self' = self)
  \/ exists consumer raised k lsn,
       consume_stream lib
         (__init__ (ItemGenerator.upto_lsn self) (ItemGenerator.table_qnames self)
            (ItemGenerator.target_batch_size self) (ItemGenerator.table_options self))
         stream 0 = (consumer, raised, k)
       /\ last_commit_lsn consumer = Some lsn
       /\ ItemGenerator.last_commit_lsn self' = Some lsn
       /\ ItemGenerator.generated_all self' = consumed_all consumer
       /\ exn' = match raised with Some StopReplication => None | other => other end
       /\ events
          = ([StartReplication (ItemGenerator.slot_name self)
                (ItemGenerator.start_lsn self);
              SendFeedbackWrite lsn]
             ++ map (fun '(table, data_items) =>
                       Yield {| items_table := table;
                                items_schema := Dict.get table (last_table_schema consumer);
                                items := data_items |})
                    (data_items consumer)
             ++ [SendFeedbackFlush lsn; ConnectionClose])%list.
Proof.
  unfold ItemGenerator.__iter__. intros Hrun.
  destruct (consume_stream lib _ stream 0) as [[consumer raised] k] eqn:Hstream.
  destruct (last_commit_lsn consumer) as [lsn|] eqn:Hlsn.
  - right. exists consumer, raised, k, lsn.
    injection Hrun as <- <- <-. repeat split; auto.
  - left. injection Hrun as <- <- _. auto.
Qed.

End RunFacts.

(** X15: a cached fingerprint is never replaced.  From a consumer whose
    fingerprints all have a cached schema (a new consumer is one), a run
    over any stream keeps every fingerprint it started with, also for a
    table whose schema [compare_schemas] has replaced meanwhile; and the
    caches stay consistent. *)
Theorem fingerprint_never_replaced (lib : Library)
    (stream : list ReplicationMessage) (consumer consumer' : MessageConsumer.t)
    (raised : option exn) (i k : nat) :
  caches_consistent consumer ->
  consume_stream lib consumer stream i = (consumer', raised, k) ->
  caches_consistent consumer'
  /\ forall t h,
       Dict.get t (MessageConsumer.last_table_hashes consumer) = Some h ->
       Dict.get t (MessageConsumer.last_table_hashes consumer') = Some h.
Proof.
  intros Hinv Hrun. exact (@RunFacts.consume_stream_caches lib _ _ _ _ _ _ Hrun Hinv).
Qed.

Lemma consumer_after_insert_caches :
  exists h s,
    MessageConsumer.last_table_hashes Examples.consumer_after_insert = [("t", h)]
    /\ MessageConsumer.last_table_schema Examples.consumer_after_insert = [("t", s)]
    /\ h = hash_typeinfo (new_typeinfo Examples.insert_t).
Proof. do 2 eexists. split; [ | split]; vm_compute; reflexivity. Qed.

Lemma fingerprint_never_replaced_witness :
  caches_consistent Examples.consumer_after_insert
  /\ exists consumer' raised k,
       consume_stream unused_library Examples.consumer_after_insert
         [ Examples.on_wire Examples.delete_t 288;
           Examples.on_wire Examples.insert_t_changed 304 ] 0
       = (consumer', raised, k)
       /\ raised = Some StopReplication
       /\ Dict.get "t" (MessageConsumer.last_table_hashes consumer')
          = Some (hash_typeinfo (new_typeinfo Examples.insert_t)).
Proof.
  destruct consumer_after_insert_caches as (h & s & Hh & Hs & Hval).
  assert (Hinv : caches_consistent Examples.consumer_after_insert).
  { intros t0 h0 H0. rewrite Hh in H0. rewrite Hs. unfold Dict.contains.
    cbn [Dict.get] in H0 |- *. destruct (String.eqb t0 "t"); [reflexivity | discriminate]. }
  split; [exact Hinv | ].
  destruct (consume_stream unused_library Examples.consumer_after_insert
              [ Examples.on_wire Examples.delete_t 288;
                Examples.on_wire Examples.insert_t_changed 304 ] 0)
    as [[consumer' raised] k] eqn:Hrun.
  exists consumer', raised, k. split; [reflexivity | ].
  split; [vm_compute in Hrun; now injection Hrun as _ <- _ | ].
  destruct (@fingerprint_never_replaced _ _ _ _ _ _ _ Hinv Hrun) as (_ & Hkept).
  rewrite <- Hval. apply Hkept. rewrite Hh. reflexivity.
Defined.

(** X16: one message changes the number of buffered rows by at most one:
    a change message of an allowed table that is processed without an
    exception adds exactly one row, and nothing else adds or removes a
    row. *)
Theorem buffer_grows_by_one (lib : Library) (msg : ReplicationMessage)
    (row_msg : RowMessage) (self self' : MessageConsumer.t) (r : result unit) :
  payload msg = Some row_msg ->
  MessageConsumer.process_msg lib msg self = (self', r) ->
  (is_change (op row_msg) ->
   set_contains (table row_msg) (MessageConsumer.table_qnames self) = true ->
   r = Ok tt ->
   MessageConsumer.n_items self' = MessageConsumer.n_items self + 1)
  /\ (MessageConsumer.n_items self' = MessageConsumer.n_items self
      \/ (MessageConsumer.n_items self' = MessageConsumer.n_items self + 1
          /\ r = Ok tt /\ is_change (op row_msg)
          /\ set_contains (table row_msg) (MessageConsumer.table_qnames self) = true)).
Proof.
  intros Hpayload Hrun. split.
  - intros Hop Hallowed ->.
    assert (Hchange : MessageConsumer.process_change lib row_msg (data_start msg) self
                      = (self', Ok tt)).
    { unfold MessageConsumer.process_msg in Hrun. rewrite Hpayload in Hrun.
      destruct Hop as [Hop | [Hop | Hop]]; rewrite Hop in Hrun; exact Hrun. }
    destruct (@BatchFacts.process_change_effects _ _ _ _ _ _ Hchange Hallowed)
      as (_ & _ & table_name & data_item & _ & _ & Hitems).
    unfold MessageConsumer.n_items. rewrite Hitems.
    apply BatchFacts.n_items_append_item.
  - destruct (@BatchFacts.process_msg_effects _ _ _ _ _ Hrun)
      as (_ & _ & [Hsame | (row' & table_name & data_item & Hrow' & Hop & Hallowed
                            & Hr & _ & _ & Hitems)]).
    + left. unfold MessageConsumer.n_items. now rewrite Hsame.
    + right. rewrite Hpayload in Hrow'. injection Hrow' as <-.
      split; [ | auto].
      unfold MessageConsumer.n_items. rewrite Hitems.
      apply BatchFacts.n_items_append_item.
Qed.

Lemma buffer_grows_by_one_witness :
  exists self',
    MessageConsumer.process_msg unused_library (Examples.on_wire Examples.delete_t 288)
      Examples.consumer_after_insert = (self', Ok tt)
    /\ MessageConsumer.n_items Examples.consumer_after_insert = 1
    /\ MessageConsumer.n_items self' = 2.
Proof.
  destruct (MessageConsumer.process_msg unused_library
              (Examples.on_wire Examples.delete_t 288) Examples.consumer_after_insert)
    as [self' r] eqn:Hrun.
  assert (Hr : r = Ok tt) by (vm_compute in Hrun; now injection Hrun as _ <-).
  subst r. exists self'. split; [reflexivity | ].
  assert (Hn : MessageConsumer.n_items Examples.consumer_after_insert = 1)
    by (vm_compute; reflexivity).
  split; [exact Hn | ].
  destruct (@buffer_grows_by_one unused_library (Examples.on_wire Examples.delete_t 288)
              Examples.delete_t _ _ _ eq_refl Hrun)
    as (Hgrow & _).
  rewrite Hgrow; [now rewrite Hn | right; now right | | reflexivity].
  vm_compute. reflexivity.
Defined.

(** X17: the generator acknowledges COMMIT positions only: every position
    it sends as written or as flushed is the [data_start] of a COMMIT
    message of the stream, and it is the position the generator records as
    [last_commit_lsn]. *)
Theorem acks_are_commit_positions (lib : Library) (self self' : ItemGenerator.t)
    (stream : list ReplicationMessage) (events : list Event) (exn' : option exn) :
  ItemGenerator.__iter__ lib self stream = (events, self', exn') ->
  forall lsn,
    In (SendFeedbackWrite lsn) events \/ In (SendFeedbackFlush lsn) events ->
    commit_at stream lsn /\ ItemGenerator.last_commit_lsn self' = Some lsn.
Proof.
  intros Hrun lsn Hack.
  destruct (@RunFacts.iter_trace _ _ _ _ _ _ Hrun)
    as [(-> & _) | (consumer & raised & k & lsn0 & Hstream & Hlsn & Hrec & _ & _ & ->)].
  - destruct Hack as [[H | []] | [H | []]]; discriminate H.
  - assert (Hno : forall e, In e (map (fun '(table, data_items) =>
                       Yield {| items_table := table;
                                items_schema :=
                                  Dict.get table
                                    (MessageConsumer.last_table_schema consumer);
                                items := data_items |})
                    (MessageConsumer.data_items consumer)) ->
                  exists ti, e = Yield ti).
    { intros e He. apply in_map_iff in He as ([table l] & <- & _). eauto. }
    assert (Heq : lsn = lsn0).
    { destruct Hack as [Hack | Hack]; cbn [app] in Hack;
        destruct Hack as [H | [H | H]]; try discriminate H; try (now injection H);
        apply in_app_or in H as [H | H];
        try (apply Hno in H as (ti & H); discriminate H);
        destruct H as [H | [H | []]]; try discriminate H; now injection H. }
    subst lsn0. split; [ | exact Hrec].
    destruct (@RunFacts.consume_stream_commit_lsn lib _ _ _ _ _ _ Hstream)
      as [Hsame | (lsn' & Hat & Hlsn')].
    + cbn in Hsame. congruence.
    + congruence.
Qed.

Lemma acks_are_commit_positions_witness :
  exists events self' exn',
    ItemGenerator.__iter__ unused_library Examples.generator_upto
      Examples.three_transactions = (events, self', exn')
    /\ In (SendFeedbackFlush 1000000) events
    /\ commit_at Examples.three_transactions 1000000
    /\ ItemGenerator.last_commit_lsn self' = Some 1000000.
Proof.
  destruct (ItemGenerator.__iter__ unused_library Examples.generator_upto
              Examples.three_transactions) as [[events self'] exn'] eqn:Hrun.
  assert (HIn : In (SendFeedbackFlush 1000000) events).
  { vm_compute in Hrun. injection Hrun as <- _ _. simpl. tauto. }
  exists events, self', exn'. split; [reflexivity | ]. split; [exact HIn | ].
  exact (@acks_are_commit_positions _ _ _ _ _ _ Hrun 1000000 (or_intror HIn)).
Defined.

(** X18: the consumer never goes past a COMMIT at or beyond [upto_lsn]:
    when the stream has such a COMMIT at index [j], the run ends with an
    exception after at most [j] messages consumed without one. *)
Theorem never_past_upto_lsn (lib : Library) (stream : list ReplicationMessage)
    (consumer consumer' : MessageConsumer.t) (raised : option exn) (k j : nat)
    (msg : ReplicationMessage) (row_msg : RowMessage) :
  consume_stream lib consumer stream 0 = (consumer', raised, k) ->
  nth_error stream j = Some msg ->
  payload msg = Some row_msg ->
  op row_msg = COMMIT ->
  data_start msg >= MessageConsumer.upto_lsn consumer ->
  (k <= j)%nat /\ exists e, raised = Some e.
Proof.
  intros Hrun Hnth Hpayload Hop Hupto.
  exact (@RunFacts.consume_stream_upto lib _ _ _ _ _ _ _ _ _ Hrun Hnth Hpayload Hop Hupto).
Qed.

Lemma never_past_upto_lsn_witness :
  exists consumer' raised k,
    consume_stream unused_library Examples.consumer Examples.three_transactions 0
    = (consumer', raised, k)
    /\ k = 5%nat
    /\ raised = Some StopReplication
    /\ (k <= 5)%nat /\ exists e, raised = Some e.
Proof.
  destruct (consume_stream unused_library Examples.consumer
              Examples.three_transactions 0) as [[consumer' raised] k] eqn:Hrun.
  exists consumer', raised, k. split; [reflexivity | ].
  split; [vm_compute in Hrun; now injection Hrun as _ _ <- | ].
  split; [vm_compute in Hrun; now injection Hrun as _ <- _ | ].
  apply (@never_past_upto_lsn unused_library Examples.three_transactions
           Examples.consumer consumer' raised k 5%nat
           (Examples.on_wire (Examples.commit_msg 1700000000000001) 1000000)
           (Examples.commit_msg 1700000000000001) Hrun eq_refl eq_refl eq_refl).
  simpl. lia.
Defined.

(** What the generator yields comes from the buffer of a consumer that
    keeps [buffer_ok]. *)
Lemma iter_yields (lib : Library) (self self' : ItemGenerator.t)
    (stream : list ReplicationMessage) (events : list Event) (exn' : option exn)
    (table_items : TableItems) :
  ItemGenerator.__iter__ lib self stream = (events, self', exn') ->
  In (Yield table_items) events ->
  exists consumer,
    buffer_ok consumer
    /\ MessageConsumer.table_qnames consumer = ItemGenerator.table_qnames self
    /\ In (items_table table_items, items table_items)
          (MessageConsumer.data_items consumer)
    /\ items_schema table_items
       = Dict.get (items_table table_items)
           (MessageConsumer.last_table_schema consumer).
Proof.
  intros Hrun HIn.
  destruct (@RunFacts.iter_trace _ _ _ _ _ _ Hrun)
    as [(-> & _) | (consumer & raised & k & lsn0 & Hstream & _ & _ & _ & _ & ->)].
  - destruct HIn as [H | []]. discriminate H.
  - destruct (@RunFacts.consume_stream_buffer_ok lib _ _ _ _ _ _ Hstream
                (@RunFacts.init_buffer_ok _ _ _ _)) as (Hok & Hq).
    exists consumer. split; [exact Hok | ]. split; [exact Hq | ].
    cbn [app] in HIn. destruct HIn as [H | [H | H]]; try discriminate H.
    apply in_app_or in H as [H | [H | [H | []]]]; try discriminate H.
    apply in_map_iff in H as ([table l] & [= <-] & H). cbn. auto.
Qed.

(** X19: every group the generator yields has a schema and at least one
    row: a table is in the buffer only once a row of it was appended, and
    by then its schema is cached. *)
Theorem yields_have_schema_and_rows (lib : Library) (self self' : ItemGenerator.t)
    (stream : list ReplicationMessage) (events : list Event) (exn' : option exn) :
  ItemGenerator.__iter__ lib self stream = (events, self', exn') ->
  forall table_items,
    In (Yield table_items) events ->
    (exists schema, items_schema table_items = Some schema)
    /\ items table_items <> [].
Proof.
  intros Hrun table_items HIn.
  destruct (@iter_yields _ _ _ _ _ _ _ Hrun HIn) as (consumer & Hok & _ & Hbuf & Hschema).
  destruct (Hok _ _ Hbuf) as (Hne & Hcached & _).
  split; [ | exact Hne].
  rewrite Hschema. unfold Dict.contains in Hcached.
  destruct (Dict.get _ _) as [schema|]; [now exists schema | discriminate].
Qed.

Lemma yields_have_schema_and_rows_witness :
  exists events self' exn' table_items,
    ItemGenerator.__iter__ unused_library Examples.generator_upto
      Examples.three_transactions = (events, self', exn')
    /\ In (Yield table_items) events
    /\ List.length (items table_items) = 2%nat
    /\ (exists schema, items_schema table_items = Some schema)
    /\ items table_items <> [].
Proof.
  destruct (ItemGenerator.__iter__ unused_library Examples.generator_upto
              Examples.three_transactions) as [[events self'] exn'] eqn:Hrun.
  assert (HIn : exists table_items,
             In (Yield table_items) events
             /\ List.length (items table_items) = 2%nat).
  { vm_compute in Hrun. injection Hrun as <- _ _.
    eexists. split; [right; right; left; reflexivity | reflexivity]. }
  destruct HIn as (table_items & HIn & Hlen).
  exists events, self', exn', table_items.
  split; [reflexivity | ]. split; [exact HIn | ]. split; [exact Hlen | ].
  exact (@yields_have_schema_and_rows _ _ _ _ _ _ Hrun table_items HIn).
Defined.

(** X20: the table filter, at the output: every group the generator
    yields is for the second dotted component of a name in
    [table_qnames]; no row of a table outside the allow-set is emitted. *)
Theorem yields_only_allowed_tables (lib : Library) (self self' : ItemGenerator.t)
    (stream : list ReplicationMessage) (events : list Event) (exn' : option exn) :
  ItemGenerator.__iter__ lib self stream = (events, self', exn') ->
  forall table_items,
    In (Yield table_items) events ->
    exists qname,
      In qname (ItemGenerator.table_qnames self)
      /\ nth_error (split_dot qname) 1 = Some (items_table table_items).
Proof.
  intros Hrun table_items HIn.
  destruct (@iter_yields _ _ _ _ _ _ _ Hrun HIn) as (consumer & Hok & Hq & Hbuf & _).
  destruct (Hok _ _ Hbuf) as (_ & _ & qname & HInq & Hsplit).
  exists qname. now rewrite <- Hq.
Qed.

Lemma yields_only_allowed_tables_witness :
  exists events self' exn',
    ItemGenerator.__iter__ unused_library Examples.generator_upto
      [ Examples.on_wire (Examples.begin_msg 1700000000000000) 256;
        Examples.on_wire Examples.insert_other 272;
        Examples.on_wire Examples.insert_t 288;
        Examples.on_wire (Examples.commit_msg 1700000000000000) 1000000 ]
    = (events, self', exn')
    /\ List.length events = 5%nat
    /\ forall table_items,
         In (Yield table_items) events ->
         exists qname,
           In qname ["public.t"]
           /\ nth_error (split_dot qname) 1 = Some (items_table table_items).
Proof.
  destruct (ItemGenerator.__iter__ unused_library Examples.generator_upto
              [ Examples.on_wire (Examples.begin_msg 1700000000000000) 256;
                Examples.on_wire Examples.insert_other 272;
                Examples.on_wire Examples.insert_t 288;
                Examples.on_wire (Examples.commit_msg 1700000000000000) 1000000 ])
    as [[events self'] exn'] eqn:Hrun.
  exists events, self', exn'. split; [reflexivity | ].
  split; [vm_compute in Hrun; now injection Hrun as <- _ _ | ].
  exact (@yields_only_allowed_tables _ _ _ _ _ _ Hrun).
Defined.

(** X21: the generator reports [generated_all] only when it has reached
    [upto_lsn]: if a run that got to close the connection leaves
    [generated_all] set, the recorded [last_commit_lsn] is at or beyond
    [upto_lsn], and no exception leaves the generator. *)
Theorem generated_all_means_upto_reached (lib : Library)
    (self self' : ItemGenerator.t) (stream : list ReplicationMessage)
    (events : list Event) (exn' : option exn) :
  ItemGenerator.__iter__ lib self stream = (events, self', exn') ->
  In ConnectionClose events ->
  ItemGenerator.generated_all self' = true ->
  exn' = None
  /\ exists lsn, ItemGenerator.last_commit_lsn self' = Some lsn
                 /\ lsn >= ItemGenerator.upto_lsn self.
Proof.
  intros Hrun Hclose Hall.
  destruct (@RunFacts.iter_trace _ _ _ _ _ _ Hrun)
    as [(-> & _) | (consumer & raised & k & lsn0 & Hstream & Hlsn & Hrec & Hgen & Hexn & _)].
  - destruct Hclose as [H | []]. discriminate H.
  - rewrite Hgen in Hall.
    destruct (@RunFacts.consume_stream_consumed_all lib _ _ _ _ _ _ Hstream eq_refl Hall)
      as (-> & lsn & Hlsn' & Hge).
    split; [exact Hexn | ].
    exists lsn0. split; [exact Hrec | ]. cbn in Hge. congruence.
Qed.

Lemma generated_all_means_upto_reached_witness :
  exists events self' exn',
    ItemGenerator.__iter__ unused_library Examples.generator_upto
      Examples.three_transactions = (events, self', exn')
    /\ In ConnectionClose events
    /\ ItemGenerator.generated_all self' = true
    /\ exn' = None
    /\ exists lsn, ItemGenerator.last_commit_lsn self' = Some lsn /\ lsn >= 1000000.
Proof.
  destruct (ItemGenerator.__iter__ unused_library Examples.generator_upto
              Examples.three_transactions) as [[events self'] exn'] eqn:Hrun.
  assert (H : In ConnectionClose events /\ ItemGenerator.generated_all self' = true).
  { vm_compute in Hrun. injection Hrun as <- <- _. split; [simpl; tauto | reflexivity]. }
  destruct H as (Hclose & Hall).
  exists events, self', exn'. split; [reflexivity | ].
  split; [exact Hclose | ]. split; [exact Hall | ].
  exact (@generated_all_means_upto_reached _ _ _ _ _ _ Hrun Hclose Hall).
Defined.

(** ** Items, schemas and the order of rows *)

(** X22: an item never has a field that its schema lacks: every key of
    the item that [gen_data_item] returns is a column of the column
    schema it was given, except [deleted_ts], which a DELETE sets of
    itself. *)
Theorem item_keys_are_schema_columns (lib : Library) (msg : RowMessage)
    (column_schema : TTableSchemaColumns) (included_columns : option str_set)
    (data_item : TDataItem) :
  gen_data_item lib msg column_schema included_columns = Ok data_item ->
  forall k, In k (Dict.keys data_item) ->
    Dict.contains k column_schema = true \/ (op msg = DELETE /\ k = "deleted_ts").
Proof.
  unfold gen_data_item. cbv zeta. intros Hrun k Hk.
  destruct (gen_data_item_loop_inv _ _ _ _ _ _ Hrun) as (Hsub & Hrow).
  destruct (Hsub k Hk) as [Hacc | HIn].
  - right. destruct (op msg); cbn in Hacc; try contradiction.
    destruct Hacc as [<- | []]. auto.
  - left. apply included_names_in in HIn as (data & HIn & <- & Hinc).
    destruct (Hrow data HIn Hinc) as (col & _ & _ & Hcol & _).
    unfold Dict.contains. now rewrite Hcol.
Qed.

Lemma item_keys_are_schema_columns_witness :
  exists schema data_item,
    infer_table_schema Examples.delete_t None = Ok schema
    /\ gen_data_item unused_library Examples.delete_t (columns schema) None
       = Ok data_item
    /\ Dict.keys data_item = ["deleted_ts"; "id"]
    /\ forall k, In k (Dict.keys data_item) ->
         Dict.contains k (columns schema) = true
         \/ (op Examples.delete_t = DELETE /\ k = "deleted_ts").
Proof.
  destruct (infer_table_schema Examples.delete_t None) as [schema | e] eqn:Hschema;
    [ | discriminate Hschema].
  destruct (gen_data_item unused_library Examples.delete_t (columns schema) None)
    as [data_item | e] eqn:Hitem;
    [ | vm_compute in Hschema; injection Hschema as <-; discriminate Hitem].
  exists schema, data_item. split; [reflexivity | ]. split; [exact Hitem | ].
  split.
  - vm_compute in Hschema. injection Hschema as <-.
    vm_compute in Hitem. injection Hitem as <-. reflexivity.
  - exact (@item_keys_are_schema_columns _ _ _ _ _ Hitem).
Defined.

(** X23: a COMMIT message cannot fail.  Processing it records its
    position as [last_commit_lsn] and leaves the buffer and the schema
    cache alone; from a consumer that has not consumed all it raises
    [StopReplication] when the position is at or beyond [upto_lsn] or at
    least [target_batch_size] rows are buffered, and returns otherwise. *)
Theorem commit_records_position (lib : Library) (msg : ReplicationMessage)
    (row_msg : RowMessage) (self self' : MessageConsumer.t) (r : result unit) :
  payload msg = Some row_msg ->
  op row_msg = COMMIT ->
  MessageConsumer.consumed_all self = false ->
  MessageConsumer.process_msg lib msg self = (self', r) ->
  MessageConsumer.last_commit_lsn self' = Some (data_start msg)
  /\ MessageConsumer.data_items self' = MessageConsumer.data_items self
  /\ MessageConsumer.last_table_schema self' = MessageConsumer.last_table_schema self
  /\ r = (if (data_start msg >=? MessageConsumer.upto_lsn self)
             || (MessageConsumer.n_items self >=? MessageConsumer.target_batch_size self)
          then Raise StopReplication else Ok tt)
  /\ MessageConsumer.consumed_all self'
     = (data_start msg >=? MessageConsumer.upto_lsn self).
Proof.
  intros Hpayload Hop Hfresh Hrun.
  unfold MessageConsumer.process_msg in Hrun. rewrite Hpayload, Hop in Hrun.
  destruct (ConsumerFacts.process_commit_spec _ _ Hrun)
    as (_ & _ & Ht & Hitems & Hschema & _ & Hlsn & Hdone & Hr).
  rewrite Hfresh in Hdone. cbn [orb] in Hdone.
  split; [exact Hlsn | ]. split; [exact Hitems | ]. split; [exact Hschema | ].
  split; [ | exact Hdone].
  rewrite Hr, Hdone, Ht. unfold MessageConsumer.n_items. now rewrite Hitems.
Qed.

Lemma commit_records_position_witness :
  exists self',
    MessageConsumer.process_msg unused_library
      (Examples.on_wire (Examples.commit_msg 1700000000000000) 288)
      Examples.consumer_after_insert = (self', Ok tt)
    /\ MessageConsumer.last_commit_lsn self' = Some 288
    /\ MessageConsumer.data_items self'
       = MessageConsumer.data_items Examples.consumer_after_insert.
Proof.
  destruct (MessageConsumer.process_msg unused_library
              (Examples.on_wire (Examples.commit_msg 1700000000000000) 288)
              Examples.consumer_after_insert) as [self' r] eqn:Hrun.
  destruct (@commit_records_position unused_library
              (Examples.on_wire (Examples.commit_msg 1700000000000000) 288)
              (Examples.commit_msg 1700000000000000)
              Examples.consumer_after_insert self' r eq_refl eq_refl
              ltac:(vm_compute; reflexivity) Hrun)
    as (Hlsn & Hitems & _ & Hr & _).
  exists self'. split; [ | split; [exact Hlsn | exact Hitems]].
  rewrite Hr. reflexivity.
Defined.

Module OrderFacts.
Import MessageConsumer.

Ltac run_M := ConsumerFacts.run_M.

Lemma buffered_append_item (table_name t0 : string) (data_item : TDataItem)
    (self self' : MessageConsumer.t) :
  data_items self' = append_item table_name data_item (data_items self) ->
  exists suffix, buffered t0 self' = (buffered t0 self ++ suffix)%list.
Proof.
  intros Hitems. unfold buffered. rewrite Hitems. unfold append_item.
  destruct (String.eqb_spec table_name t0) as [<- | Hne].
  - rewrite DictFacts.get_setitem_same. now exists [data_item].
  - rewrite DictFacts.get_setitem_other by exact Hne.
    exists []. now rewrite app_nil_r.
Qed.

(** One message: the rows of every table stay, in their order, with at
    most one more at the end. *)
Lemma process_msg_buffered (lib : Library) (msg : ReplicationMessage)
    (self self' : t) (r : result unit) (t0 : string) :
  process_msg lib msg self = (self', r) ->
  exists suffix, buffered t0 self' = (buffered t0 self ++ suffix)%list.
Proof.
  intros Hrun.
  destruct (@BatchFacts.process_msg_effects _ _ _ _ _ Hrun)
    as (_ & _ & [Hsame | (row' & table_name & data_item & _ & _ & _ & _ & _ & _ & Hitems)]).
  - exists []. unfold buffered. now rewrite Hsame, app_nil_r.
  - exact (@buffered_append_item _ t0 _ _ _ Hitems).
Qed.

Lemma consume_stream_buffered (lib : Library) (t0 : string) :
  forall (stream : list ReplicationMessage) (consumer consumer' : t)
         (raised : option exn) (i k : nat),
    consume_stream lib consumer stream i = (consumer', raised, k) ->
    exists suffix, buffered t0 consumer' = (buffered t0 consumer ++ suffix)%list.
Proof.
  induction stream as [|msg rest IH]; intros consumer consumer' raised i k Hrun;
    cbn [consume_stream] in Hrun.
  - injection Hrun as <- _ _. exists []. now rewrite app_nil_r.
  - unfold __call__ in Hrun.
    destruct (process_msg lib msg consumer) as [consumer1 [[] | e]] eqn:Hmsg;
      destruct (@process_msg_buffered _ _ _ _ _ t0 Hmsg) as (s1 & H1).
    + destruct (IH _ _ _ _ _ Hrun) as (s2 & H2).
      exists (s1 ++ s2)%list. now rewrite H2, H1, app_assoc.
    + injection Hrun as <- _ _. now exists s1.
Qed.

(** One message keeps [rows_traced], for any stream that has the
    message. *)
Lemma process_msg_rows_traced (lib : Library) (stream : list ReplicationMessage)
    (msg : ReplicationMessage) (self self' : t) (r : result unit) :
  In msg stream ->
  process_msg lib msg self = (self', r) ->
  rows_traced stream self -> rows_traced stream self'.
Proof.
  intros HIn Hrun Htraced.
  destruct (StreamFacts.process_msg_spec _ _ _ Hrun) as (_ & Hq & _).
  unfold rows_traced. rewrite Hq.
  assert (Hkeep : data_items self' = data_items self ->
            forall t1 l data_item, In (t1, l) (data_items self') -> In data_item l ->
              exists lsn, Dict.get "lsn" data_item = Some (VInt lsn)
                          /\ change_at stream (table_qnames self) lsn)
    by (intros ->; exact Htraced).
  unfold process_msg in Hrun.
  destruct (payload msg) as [row_msg|] eqn:Hpayload;
    [ | unfold raise in Hrun; injection Hrun as <- _; now apply Hkeep].
  assert (Hchange :
    is_change (op row_msg) ->
    process_change lib row_msg (data_start msg) self = (self', r) ->
    forall t1 l data_item, In (t1, l) (data_items self') -> In data_item l ->
      exists lsn, Dict.get "lsn" data_item = Some (VInt lsn)
                  /\ change_at stream (table_qnames self) lsn).
  { intros Hop Hc.
    destruct (set_contains (table row_msg) (table_qnames self)) eqn:Hallowed.
    - destruct r as [[] | e].
      + destruct (@ConsumerFacts.process_change_spec _ _ _ _ _ _ Hc Hallowed)
          as (_ & _ & Hok).
        destruct (Hok eq_refl) as (table_name & schema & item & _ & _ & Hitems).
        intros t1 l data_item Ht1 Hitem. rewrite Hitems in Ht1.
        unfold append_item in Ht1.
        apply in_setitem in Ht1 as [[= -> ->] | Ht1]; [ | exact (Htraced _ _ _ Ht1 Hitem)].
        apply in_app_or in Hitem as [Hold | [<- | []]].
        * destruct (Dict.get table_name (data_items self)) as [l0|] eqn:Hget;
            [ | destruct Hold].
          apply DictFacts.get_in in Hget. exact (Htraced _ _ _ Hget Hold).
        * exists (data_start msg). split; [apply DictFacts.get_setitem_same | ].
          exists msg, row_msg. repeat split; auto.
      + destruct (@BatchFacts.process_change_effects _ _ _ _ _ _ Hc Hallowed)
          as (_ & _ & Hsame). now apply Hkeep.
    - unfold process_change in Hc. run_M. rewrite Hallowed in Hc.
      injection Hc as <- _. now apply Hkeep. }
  destruct (op row_msg) eqn:Hop.
  - unfold raise in Hrun. injection Hrun as <- _. now apply Hkeep.
  - apply Hchange; [now left | exact Hrun].
  - apply Hchange; [right; now left | exact Hrun].
  - apply Hchange; [right; now right | exact Hrun].
  - unfold update in Hrun. injection Hrun as <- _. now apply Hkeep.
  - destruct (ConsumerFacts.process_commit_spec _ _ Hrun)
      as (_ & _ & _ & Hitems & _). now apply Hkeep.
Qed.

Lemma consume_stream_rows_traced (lib : Library) (all : list ReplicationMessage) :
  forall (stream : list ReplicationMessage) (consumer consumer' : t)
         (raised : option exn) (i k : nat),
    (forall msg, In msg stream -> In msg all) ->
    consume_stream lib consumer stream i = (consumer', raised, k) ->
    rows_traced all consumer -> rows_traced all consumer'.
Proof.
  induction stream as [|msg rest IH]; intros consumer consumer' raised i k Hsub Hrun Hok;
    cbn [consume_stream] in Hrun.
  - now injection Hrun as <- _ _.
  - unfold __call__ in Hrun.
    destruct (process_msg lib msg consumer) as [consumer1 [[] | e]] eqn:Hmsg;
      pose proof (@process_msg_rows_traced lib all msg _ _ _
                    (Hsub msg (or_introl eq_refl)) Hmsg Hok) as Hok1.
    + apply (IH _ _ _ _ _ (fun m H => Hsub m (or_intror H)) Hrun Hok1).
    + now injection Hrun as <- _ _.
Qed.

End OrderFacts.

(** X24: rows are never dropped or reordered during a run: for every
    table, what is buffered after a run over any stream is what was
    buffered before, in the same order, followed by the rows the run
    appended. *)
Theorem buffered_rows_are_kept (lib : Library) (stream : list ReplicationMessage)
    (consumer consumer' : MessageConsumer.t) (raised : option exn) (i k : nat)
    (table_name : string) :
  consume_stream lib consumer stream i = (consumer', raised, k) ->
  exists appended,
    buffered table_name consumer' = (buffered table_name consumer ++ appended)%list.
Proof.
  intros Hrun.
  exact (@OrderFacts.consume_stream_buffered lib table_name _ _ _ _ _ _ Hrun).
Qed.

Lemma buffered_rows_are_kept_witness :
  exists consumer' raised k appended,
    consume_stream unused_library Examples.consumer_after_insert
      [ Examples.on_wire Examples.delete_t 288;
        Examples.on_wire Examples.insert_t_changed 304 ] 0
    = (consumer', raised, k)
    /\ List.length (buffered "t" Examples.consumer_after_insert) = 1%nat
    /\ List.length (buffered "t" consumer') = 2%nat
    /\ buffered "t" consumer'
       = (buffered "t" Examples.consumer_after_insert ++ appended)%list.
Proof.
  destruct (consume_stream unused_library Examples.consumer_after_insert
              [ Examples.on_wire Examples.delete_t 288;
                Examples.on_wire Examples.insert_t_changed 304 ] 0)
    as [[consumer' raised] k] eqn:Hrun.
  destruct (@buffered_rows_are_kept _ _ _ _ _ _ _ "t" Hrun) as (appended & Happ).
  exists consumer', raised, k, appended. split; [reflexivity | ].
  split; [vm_compute; reflexivity | ]. split; [ | exact Happ].
  vm_compute in Hrun. injection Hrun as <- _ _. reflexivity.
Defined.

(** X25: every row of a batch can be traced to its message: after a run
    of a new consumer, the [lsn] of each buffered row is the [data_start]
    of an INSERT, UPDATE or DELETE message of the stream whose table is in
    [table_qnames]. *)
Theorem buffered_rows_carry_message_lsn (lib : Library) (upto_lsn : Z)
    (table_qnames : str_set) (target_batch_size : Z)
    (table_options : option (Dict.t SqlTableOptions.t))
    (stream : list ReplicationMessage) (consumer : MessageConsumer.t)
    (raised : option exn) (k : nat) :
  consume_stream lib
    (MessageConsumer.__init__ upto_lsn table_qnames target_batch_size table_options)
    stream 0
  = (consumer, raised, k) ->
  forall t l data_item,
    In (t, l) (MessageConsumer.data_items consumer) ->
    In data_item l ->
    exists lsn,
      Dict.get "lsn" data_item = Some (VInt lsn)
      /\ change_at stream table_qnames lsn.
Proof.
  intros Hrun.
  assert (Hinit : rows_traced stream
                    (MessageConsumer.__init__ upto_lsn table_qnames target_batch_size
                       table_options)) by (intros t l item []).
  pose proof (@OrderFacts.consume_stream_rows_traced lib stream stream _ _ _ _ _
                (fun _ H => H) Hrun Hinit) as Htraced.
  destruct (@RunFacts.consume_stream_buffer_ok lib _ _ _ _ _ _ Hrun
              (@RunFacts.init_buffer_ok _ _ _ _)) as (_ & Hq).
  unfold rows_traced in Htraced. rewrite Hq in Htraced. exact Htraced.
Qed.

Lemma buffered_rows_carry_message_lsn_witness :
  exists consumer raised k,
    consume_stream unused_library Examples.consumer Examples.three_transactions 0
    = (consumer, raised, k)
    /\ List.length (buffered "t" consumer) = 2%nat
    /\ forall t l data_item,
         In (t, l) (MessageConsumer.data_items consumer) ->
         In data_item l ->
         exists lsn,
           Dict.get "lsn" data_item = Some (VInt lsn)
           /\ change_at Examples.three_transactions ["public.t"] lsn.
Proof.
  destruct (consume_stream unused_library Examples.consumer
              Examples.three_transactions 0) as [[consumer raised] k] eqn:Hrun.
  exists consumer, raised, k. split; [reflexivity | ].
  split; [vm_compute in Hrun; injection Hrun as <- _ _; reflexivity | ].
  exact (@buffered_rows_carry_message_lsn unused_library 1000000 ["public.t"] 1000
           None _ _ _ _ Hrun).
Defined.

(** ** The replication columns of the schemas that are emitted *)

Module SchemaFacts.
Import MessageConsumer.

Ltac run_M := ConsumerFacts.run_M.

Ltac cache_fields :=
  cbn [last_table_schema last_table_hashes data_items set_last_table_schema
         set_last_table_hashes set_data_items set_last_commit_ts].

Lemma lsn_column_is_replication_column :
  replication_column "lsn" "bigint" lsn_column.
Proof. repeat split. Qed.

Lemma deleted_ts_column_is_replication_column :
  replication_column "deleted_ts" "timestamp" deleted_ts_column.
Proof. repeat split. Qed.

Lemma infer_columns_wf (is_change : bool) (typeinfo : list TypeInfo)
    (included_columns : option str_set) :
  forall tuples i acc cols,
    infer_columns is_change typeinfo included_columns i tuples acc = Ok cols ->
    Dict.wf acc -> Dict.wf cols.
Proof.
  induction tuples as [|col rest IH]; intros i acc cols Hrun Hwf;
    cbn [infer_columns] in Hrun.
  - now injection Hrun as <-.
  - destruct (column_included included_columns (column_name col)).
    + destruct (if is_change
                then t <- list_getitem typeinfo i;; Ok (Some t)
                else Ok None) as [ti | e]; cbn [bind] in Hrun; [ | discriminate].
      eapply IH; [exact Hrun | now apply DictFacts.wf_setitem].
    + eapply IH; [exact Hrun | exact Hwf].
Qed.

(** Every schema that [infer_table_schema] returns has the two columns,
    as the two literals of the source. *)
Lemma infer_table_schema_has_columns (msg : RowMessage)
    (included_columns : option str_set) (schema : TTableSchema) :
  infer_table_schema msg included_columns = Ok schema ->
  Dict.wf (columns schema)
  /\ Dict.get "lsn" (columns schema) = Some lsn_column
  /\ Dict.get "deleted_ts" (columns schema) = Some deleted_ts_column.
Proof.
  unfold infer_table_schema. cbv zeta. intros Hrun.
  destruct (infer_columns _ _ _ _ _ _) as [cols | e] eqn:Hcols; cbn [bind] in Hrun;
    [ | discriminate].
  destruct (list_getitem _ _) as [table_name | e]; cbn [bind] in Hrun;
    [ | discriminate].
  injection Hrun as <-. cbn [columns].
  split; [ | split].
  - do 2 apply DictFacts.wf_setitem.
    eapply infer_columns_wf; [exact Hcols | constructor].
  - rewrite DictFacts.get_setitem_other by discriminate.
    apply DictFacts.get_setitem_same.
  - apply DictFacts.get_setitem_same.
Qed.

Lemma infer_table_schema_ok (msg : RowMessage)
    (included_columns : option str_set) (schema : TTableSchema) :
  infer_table_schema msg included_columns = Ok schema ->
  Dict.wf (columns schema) /\ has_replication_columns schema.
Proof.
  intros Hrun.
  destruct (@infer_table_schema_has_columns _ _ _ Hrun) as (Hwf & Hlsn & Hdel).
  split; [exact Hwf | ]. split.
  - exists lsn_column. split; [exact Hlsn | apply lsn_column_is_replication_column].
  - exists deleted_ts_column.
    split; [exact Hdel | apply deleted_ts_column_is_replication_column].
Qed.

(** A column of [last] is a column of what [compare_schemas] retains,
    merged with the column of [new]. *)
Lemma compare_columns_get (new_columns last_columns merged : TTableSchemaColumns)
    (c : string) (s1 : TColumnSchema) :
  Dict.wf last_columns ->
  compare_columns new_columns (Dict.items last_columns) Dict.empty = Ok merged ->
  Dict.get c last_columns = Some s1 ->
  exists s2 m, Dict.get c merged = Some m /\ merged_column c s1 s2 m.
Proof.
  intros Hwf Hrun Hget.
  destruct (@compare_columns_inv _ _ _ _ Hrun) as (Hall & _ & _).
  assert (Hcompat : forall c' s1', In (c', s1') (Dict.items last_columns) ->
                                   column_compatible new_columns c' s1').
  { intros c' s1' HIn. destruct (Hall c' s1' HIn) as (m & Hm).
    now apply compare_column_inv in Hm. }
  destruct (@compare_columns_ok new_columns (Dict.items last_columns) Dict.empty)
    as (merged' & Hrun' & _ & _ & Hin).
  - exact Hwf.
  - reflexivity.
  - exact Hcompat.
  - rewrite Hrun in Hrun'. injection Hrun' as <-.
    destruct (Hin c s1) as (m & Hm & Hgetm).
    + apply DictFacts.get_in. exact Hget.
    + destruct (@compare_column_inv _ _ _ _ Hm) as (_ & _ & s2 & _ & Hmerged).
      now exists s2, m.
Qed.

Lemma merged_replication_column (c data_type : string) (s1 s2 m : TColumnSchema) :
  replication_column c data_type s1 ->
  merged_column c s1 s2 m ->
  replication_column c data_type m.
Proof.
  intros (_ & Htype & Hnull) (Hn & Ht & Hnl & _).
  split; [exact Hn | ]. split; [now rewrite Ht | ].
  rewrite Hnl. unfold preferred. now rewrite Hnull.
Qed.

(** Reconciling keeps the two columns: [compare_schemas] goes over the
    columns of [last], and a merged column takes its data type and its
    [nullable] from the column of [last]. *)
Lemma compare_schemas_keeps_columns (last new retained : TTableSchema) :
  compare_schemas last new = Ok retained ->
  Dict.wf (columns last) /\ has_replication_columns last ->
  Dict.wf (columns retained) /\ has_replication_columns retained.
Proof.
  unfold compare_schemas. cbv zeta. intros Hrun (Hwf & Hlsn & Hdel).
  destruct (negb (String.eqb (name last) (name new))); [discriminate | ].
  destruct (compare_columns _ _ _) as [merged | e] eqn:Hcols; cbn [bind] in Hrun;
    [ | discriminate].
  injection Hrun as <-. cbn [columns].
  split.
  - destruct (@compare_columns_inv _ _ _ _ Hcols) as (_ & _ & Hkeep).
    apply Hkeep. constructor.
  - destruct Hlsn as (l & Hl & Hlcol). destruct Hdel as (d & Hd & Hdcol).
    destruct (@compare_columns_get _ _ _ _ _ Hwf Hcols Hl) as (l2 & lm & Hlm & Hlmerged).
    destruct (@compare_columns_get _ _ _ _ _ Hwf Hcols Hd) as (d2 & dm & Hdm & Hdmerged).
    split.
    + exists lm. split; [exact Hlm | ].
      exact (@merged_replication_column _ _ _ _ _ Hlcol Hlmerged).
    + exists dm. split; [exact Hdm | ].
      exact (@merged_replication_column _ _ _ _ _ Hdcol Hdmerged).
Qed.

(** What [get_table_schema] does to the schema cache: nothing, or it
    caches the inferred schema of a table that had none, or it replaces
    the cached schema by the one [compare_schemas] retains. *)
Lemma get_table_schema_cache (msg : RowMessage) (table_name : string)
    (self self' : t) (r : result TTableSchema) :
  get_table_schema msg table_name self = (self', r) ->
  last_table_schema self' = last_table_schema self
  \/ exists new,
       infer_table_schema msg (Dict.get table_name (included_columns self)) = Ok new
       /\ ((Dict.get table_name (last_table_schema self) = None
            /\ last_table_schema self'
               = Dict.setitem table_name new (last_table_schema self))
           \/ exists last retained,
                Dict.get table_name (last_table_schema self) = Some last
                /\ compare_schemas last new = Ok retained
                /\ last_table_schema self'
                   = Dict.setitem table_name retained (last_table_schema self)).
Proof.
  unfold get_table_schema. run_M. intros Hrun.
  destruct (Dict.get table_name (last_table_schema self)) as [last|] eqn:Hlast.
  - destruct (Op_eqb (op msg) DELETE).
    + injection Hrun as <- _. now left.
    + destruct (option_Z_eqb _ _).
      * injection Hrun as <- _. now left.
      * destruct (infer_table_schema msg (Dict.get table_name (included_columns self)))
          as [new | e] eqn:Hinfer.
        -- destruct (compare_schemas last new) as [retained | e] eqn:Hcmp.
           ++ injection Hrun as <- _. right. exists new. split; [reflexivity | ].
              right. exists last, retained. cache_fields. auto.
           ++ destruct e; injection Hrun as <- _; now left.
        -- injection Hrun as <- _. now left.
  - assert (Hmiss :
      forall (self0 : t) (r0 : result TTableSchema),
        (if option_Z_eqb (Some (hash_typeinfo (new_typeinfo msg)))
              (Dict.get table_name (last_table_hashes self))
         then (self, Dict.getitem table_name (last_table_schema self))
         else
           match infer_table_schema msg (Dict.get table_name (included_columns self)) with
           | Ok new =>
               (set_last_table_hashes
                  (Dict.setitem table_name (hash_typeinfo (new_typeinfo msg))
                     (last_table_hashes self))
                  (set_last_table_schema
                     (Dict.setitem table_name new (last_table_schema self)) self),
                Ok new)
           | Raise e => (self, Raise e)
           end) = (self0, r0) ->
        last_table_schema self0 = last_table_schema self
        \/ exists new,
             infer_table_schema msg (Dict.get table_name (included_columns self)) = Ok new
             /\ ((None = None (A := TTableSchema)
                  /\ last_table_schema self0
                     = Dict.setitem table_name new (last_table_schema self))
                 \/ exists last retained,
                      None = Some last
                      /\ compare_schemas last new = Ok retained
                      /\ last_table_schema self0
                         = Dict.setitem table_name retained (last_table_schema self))).
    { intros self0 r0 H0.
      destruct (option_Z_eqb _ _).
      - injection H0 as <- _. now left.
      - destruct (infer_table_schema msg (Dict.get table_name (included_columns self)))
          as [new | e] eqn:Hinfer.
        + injection H0 as <- _. right. exists new. split; [reflexivity | ].
          left. cache_fields. auto.
        + injection H0 as <- _. now left. }
    destruct (Op_eqb (op msg) DELETE); apply Hmiss with (r0 := r); cbv zeta in Hrun;
      destruct (option_Z_eqb _ _); try exact Hrun;
      destruct (infer_table_schema msg (Dict.get table_name (included_columns self)));
      exact Hrun.
Qed.

Lemma get_table_schema_schemas_ok (msg : RowMessage) (table_name : string)
    (self self' : t) (r : result TTableSchema) :
  get_table_schema msg table_name self = (self', r) ->
  schemas_ok self -> schemas_ok self'.
Proof.
  intros Hrun Hok. unfold schemas_ok.
  destruct (@get_table_schema_cache _ _ _ _ _ Hrun)
    as [-> | (new & Hnew & [(_ & ->) | (last & retained & Hlast & Hcmp & ->)])].
  - exact Hok.
  - intros t0 schema Hget.
    destruct (String.eqb_spec table_name t0) as [<- | Hne].
    + rewrite DictFacts.get_setitem_same in Hget. injection Hget as <-.
      exact (@infer_table_schema_ok _ _ _ Hnew).
    + rewrite DictFacts.get_setitem_other in Hget by exact Hne.
      exact (Hok _ _ Hget).
  - intros t0 schema Hget.
    destruct (String.eqb_spec table_name t0) as [<- | Hne].
    + rewrite DictFacts.get_setitem_same in Hget. injection Hget as <-.
      exact (@compare_schemas_keeps_columns _ _ _ Hcmp (Hok _ _ Hlast)).
    + rewrite DictFacts.get_setitem_other in Hget by exact Hne.
      exact (Hok _ _ Hget).
Qed.

Lemma process_change_schemas_ok (lib : Library) (msg : RowMessage) (lsn : Z)
    (self self' : t) (r : result unit) :
  process_change lib msg lsn self = (self', r) ->
  schemas_ok self -> schemas_ok self'.
Proof.
  unfold process_change. run_M. intros Hrun Hok.
  destruct (set_contains (table msg) (table_qnames self)); cbn [negb] in Hrun;
    [ | now injection Hrun as <- _].
  destruct (list_getitem (split_dot (table msg)) 1) as [table_name | e];
    [ | now injection Hrun as <- _].
  destruct (get_table_schema msg table_name self) as [self1 [table_schema | e]] eqn:Hschema;
    pose proof (@get_table_schema_schemas_ok _ _ _ _ _ Hschema Hok) as Hok1;
    [ | now injection Hrun as <- _].
  destruct (gen_data_item lib msg (columns table_schema) _) as [data_item | e];
    injection Hrun as <- _; exact Hok1.
Qed.

Lemma process_msg_schemas_ok (lib : Library) (msg : ReplicationMessage)
    (self self' : t) (r : result unit) :
  process_msg lib msg self = (self', r) ->
  schemas_ok self -> schemas_ok self'.
Proof.
  unfold process_msg. intros Hrun Hok.
  destruct (payload msg) as [row_msg|];
    [ | unfold raise in Hrun; now injection Hrun as <- _].
  destruct (op row_msg).
  - unfold raise in Hrun. now injection Hrun as <- _.
  - exact (@process_change_schemas_ok _ _ _ _ _ _ Hrun Hok).
  - exact (@process_change_schemas_ok _ _ _ _ _ _ Hrun Hok).
  - exact (@process_change_schemas_ok _ _ _ _ _ _ Hrun Hok).
  - unfold update in Hrun. injection Hrun as <- _. exact Hok.
  - destruct (ConsumerFacts.process_commit_spec _ _ Hrun)
      as (_ & _ & _ & _ & Hschema & _).
    unfold schemas_ok. rewrite Hschema. exact Hok.
Qed.

Lemma consume_stream_schemas_ok (lib : Library) :
  forall (stream : list ReplicationMessage) (consumer consumer' : t)
         (raised : option exn) (i k : nat),
    consume_stream lib consumer stream i = (consumer', raised, k) ->
    schemas_ok consumer -> schemas_ok consumer'.
Proof.
  induction stream as [|msg rest IH]; intros consumer consumer' raised i k Hrun Hok;
    cbn [consume_stream] in Hrun.
  - now injection Hrun as <- _ _.
  - unfold __call__ in Hrun.
    destruct (process_msg lib msg consumer) as [consumer1 [[] | e]] eqn:Hmsg;
      pose proof (@process_msg_schemas_ok _ _ _ _ _ Hmsg Hok) as Hok1.
    + exact (IH _ _ _ _ _ Hrun Hok1).
    + now injection Hrun as <- _ _.
Qed.

Lemma init_schemas_ok (upto_lsn : Z) (table_qnames : str_set)
    (target_batch_size : Z) (table_options : option (Dict.t SqlTableOptions.t)) :
  schemas_ok (__init__ upto_lsn table_qnames target_batch_size table_options).
Proof. intros t0 schema Hget. discriminate Hget. Qed.

End SchemaFacts.

(** C6, as the code has it.  On a message whose table has a second dotted
    component, and (unless it is a DELETE) type info for every column,
    [infer_table_schema] returns a schema named by that component as it
    stands, quotes included; its columns hold [lsn] (bigint, nullable) and
    [deleted_ts] (timestamp, nullable) under these keys, and the two are
    the last entries, in this order, when no included source column has
    one of the two names.  And the two columns are in every schema that is
    emitted: each group the generator yields has a schema, inferred or
    retained by [compare_schemas], that holds [lsn] with the data type
    bigint and [deleted_ts] with the data type timestamp, both nullable. *)
Theorem infer_table_schema_replication_columns :
  (forall (msg : RowMessage) (included_columns : option str_set)
          (table_name : string),
     nth_error (split_dot (table msg)) 1 = Some table_name ->
     op msg = DELETE
     \/ (List.length (new_tuple msg) <= List.length (new_typeinfo msg))%nat ->
     exists cols,
       infer_table_schema msg included_columns
       = Ok {| name := table_name; columns := cols |}
       /\ Dict.get "lsn" cols = Some lsn_column
       /\ Dict.get "deleted_ts" cols = Some deleted_ts_column
       /\ ((forall col, In col (source_tuple msg) ->
              column_included included_columns (column_name col) = true ->
              column_name col <> "lsn" /\ column_name col <> "deleted_ts") ->
           exists source_cols,
             cols = (source_cols ++ [("lsn", lsn_column);
                                     ("deleted_ts", deleted_ts_column)])%list))
  /\ (forall (lib : Library) (self self' : ItemGenerator.t)
             (stream : list ReplicationMessage) (events : list Event)
             (exn' : option exn),
        ItemGenerator.__iter__ lib self stream = (events, self', exn') ->
        forall table_items,
          In (Yield table_items) events ->
          exists schema,
            items_schema table_items = Some schema
            /\ has_replication_columns schema).
Proof.
  split.
  - intros msg included_columns table_name.
    apply infer_table_schema_returns.
  - intros lib self self' stream events exn' Hrun table_items HIn.
    destruct (@RunFacts.iter_trace _ _ _ _ _ _ Hrun)
      as [(-> & _) | (consumer & raised & k & lsn0 & Hstream & _ & _ & _ & _ & ->)].
    + destruct HIn as [H | []]. discriminate H.
    + destruct (@RunFacts.consume_stream_buffer_ok lib _ _ _ _ _ _ Hstream
                  (@RunFacts.init_buffer_ok _ _ _ _)) as (Hbuf & _).
      pose proof (@SchemaFacts.consume_stream_schemas_ok lib _ _ _ _ _ _ Hstream
                    (@SchemaFacts.init_schemas_ok _ _ _ _)) as Hok.
      cbn [app] in HIn. destruct HIn as [H | [H | H]]; try discriminate H.
      apply in_app_or in H as [H | [H | [H | []]]]; try discriminate H.
      apply in_map_iff in H as ([table l] & [= <-] & H). cbn [items_schema].
      destruct (Hbuf _ _ H) as (_ & Hcached & _).
      unfold Dict.contains in Hcached.
      destruct (Dict.get table (MessageConsumer.last_table_schema consumer))
        as [schema|] eqn:Hget; [ | discriminate].
      exists schema. split; [reflexivity | ]. exact (proj2 (Hok _ _ Hget)).
Qed.

Lemma infer_table_schema_replication_columns_witness :
  (exists cols source_cols,
     infer_table_schema Examples.insert_t None = Ok {| name := "t"; columns := cols |}
     /\ Dict.get "lsn" cols = Some lsn_column
     /\ Dict.get "deleted_ts" cols = Some deleted_ts_column
     /\ cols = (source_cols ++ [("lsn", lsn_column);
                                ("deleted_ts", deleted_ts_column)])%list
     /\ Dict.keys source_cols = ["id"; "note"])
  /\ (exists events self' exn' table_items schema,
        ItemGenerator.__iter__ unused_library Examples.generator_archived
          Examples.reconciled_transaction = (events, self', exn')
        /\ In (Yield table_items) events
        /\ items_schema table_items = Some schema
        /\ Dict.get "lsn" (columns schema)
           = Some [("name", VStr "lsn"); ("data_type", VStr "bigint");
                   ("nullable", VBool true)]
        /\ has_replication_columns schema).
Proof.
  destruct infer_table_schema_replication_columns as (Hinfer & Hemitted).
  split.
  - destruct (Hinfer Examples.insert_t None "t")
      as (cols & Hrun & Hlsn & Hdel & Hlast).
    + reflexivity.
    + right. simpl. lia.
    + destruct Hlast as (source_cols & Hcols).
      { intros col [<- | [<- | []]] _; split; discriminate. }
      exists cols, source_cols. repeat split; try assumption.
      vm_compute in Hrun. injection Hrun as <-.
      apply (f_equal (@List.length _)) in Hcols as Hlen.
      rewrite length_app in Hlen. simpl in Hlen.
      destruct source_cols as [|c1 [|c2 [|c3 rest]]]; simpl in Hlen; try lia.
      injection Hcols as <- <-. reflexivity.
  - destruct (ItemGenerator.__iter__ unused_library Examples.generator_archived
                Examples.reconciled_transaction) as [[events self'] exn'] eqn:Hrun.
    assert (HIn : exists table_items,
               In (Yield table_items) events
               /\ (forall schema, items_schema table_items = Some schema ->
                     Dict.get "lsn" (columns schema)
                     = Some [("name", VStr "lsn"); ("data_type", VStr "bigint");
                             ("nullable", VBool true)])).
    { vm_compute in Hrun. injection Hrun as <- _ _.
      eexists. split; [right; right; left; reflexivity | ].
      intros schema [= <-]. reflexivity. }
    destruct HIn as (table_items & HIn & Hmerged).
    destruct (Hemitted _ _ _ _ _ _ Hrun table_items HIn) as (schema & Hschema & Hcols).
    exists events, self', exn', table_items, schema.
    split; [reflexivity | ]. split; [exact HIn | ]. split; [exact Hschema | ].
    split; [exact (Hmerged schema Hschema) | exact Hcols].
Defined.
